(** * Gesture recognizers of the shell: drag start and edge drag

    A shallow embedding of [src/shell-dnd-start-gesture.c] and
    [src/shell-edge-drag-gesture.c], and the properties of the two
    recognizers proved over it.

    Conventions of the embedding.
    - Pixel coordinates are C [float]s in the source.  They are rationals
      ([Q]) here: comparisons are exact, there is no NaN, and the result
      of an arithmetic operation on floats is rounded to single precision
      by [float32], as the hardware does.  A [float] stored into an [int]
      is truncated towards zero.  The [int] drag threshold that is
      compared with a float is converted by [float_of_int], with rounding;
      the constant 100 and the [int]s of a monitor geometry, which are far
      below 2^24, are converted by [inject_Z].
    - [guint32] timestamps are integers with the wrap-around of the
      subtraction written out.  [int] values (the drag threshold, the scale
      factor, monitor geometries) are integers; their sums and products
      are not wrapped, signed overflow being undefined in C.
    - Every recognizer is a record: the [ClutterGesture] it derives from,
      its private fields, and the part of the host it acts on (the event
      copies it allocated, the timeout sources it scheduled).
    - Signals, property notifications and runs of the [state_changed]
      virtual function are logged, newest first, in the [emitted] field of
      the base object.
    - [g_assert] and [g_assert_not_reached] abort: such code returns a
      [result]. *)

From Stdlib Require Import ZArith QArith Qabs Qround Lia Lqa List Bool.
From stdpp Require Import base decidable option gmap sets list.
From Stdlib Require String Ascii.

Set Default Proof Using "Type".
Set Warnings "-clear-no-such-hyp".

(* ===================================================================== *)
(** * Preliminaries *)
(* ===================================================================== *)

Inductive error : Type :=
| AssertNotReached       (* g_assert_not_reached () *)
| AssertFailed           (* g_assert (cond) with cond false *)
| NoSuchPoint.           (* a point index the gesture does not track *)

Inductive result (A : Type) : Type :=
| Ok (a : A)
| Err (e : error).
Arguments Ok {A} a.
Arguments Err {A} e.

Definition rbind {A B : Type} (r : result A) (k : A -> result B) : result B :=
  match r with
  | Ok a => k a
  | Err e => Err e
  end.

Notation "'let!' x := r 'in' k" := (rbind r (fun x => k))
  (at level 10, x name, r at level 100, k at level 200, only parsing).

(** Strict comparison of two floats, [a < b]. *)
Definition Qltb (a b : Q) : bool := negb (Qle_bool b a).

(** Conversion of a float to [int]: the fractional part is discarded. *)
Definition Qtruncate (q : Q) : Z := Z.quot (Qnum q) (Zpos (Qden q)).

(** ** Single-precision arithmetic

    The value of a C [float] (IEEE 754 binary32) is an integer multiple
    of a power of two: 24 significant bits, and no bit below 2^-149.  The
    result of an operation on floats is the exact result rounded to the
    nearest such value, a tie going to the value with an even
    significand. *)

(** The nearest integer, a tie going to the even one. *)
Definition round_half_even (q : Q) : Z :=
  let f := Qfloor q in
  let r := (q - inject_Z f)%Q in
  if Qltb r (1 # 2) then f
  else if Qltb (1 # 2) r then (f + 1)%Z
  else if Z.even f then f else (f + 1)%Z.

(** The exponent of the last significant bit of a magnitude given in
    units of 2^-149: 24 bits are kept, none below the unit. *)
Definition float32_exponent (scaled : Q) : Z :=
  Z.max 0 (Z.log2 (Qfloor scaled) - 23).

(** A magnitude in units of 2^-149, rounded to 24 significant bits. *)
Definition float32_significand (scaled : Q) : Z :=
  let e := float32_exponent scaled in
  (round_half_even (scaled / inject_Z (2 ^ e)) * 2 ^ e)%Z.

Definition float32_of_magnitude (a : Q) : Q :=
  Qred (inject_Z (float32_significand (a * inject_Z (2 ^ 149))) / inject_Z (2 ^ 149)).

(** Rounding to single precision.  A result beyond the largest float is
    infinite in C; here it is a finite number above every [int], which
    the comparisons of the code, all with an [int], treat alike. *)
Definition float32 (q : Q) : Q :=
  if Qltb q 0 then - float32_of_magnitude (- q) else float32_of_magnitude q.

(** [(float) i]: conversion of an [int] to [float]. *)
Definition float_of_int (i : Z) : Q := float32 (inject_Z i).

(** [a - b] on floats. *)
Definition float_sub (a b : Q) : Q := float32 (a - b).

Arguments float32 : simpl never.
Arguments float_of_int : simpl never.
Arguments float_sub : simpl never.

(** Arithmetic on [guint32]. *)
Definition guint32 (z : Z) : Z := z mod 2 ^ 32.

(* ===================================================================== *)
(** * The gesture framework (Clutter) *)
(* ===================================================================== *)

Module Clutter.

(** Modelled from the spec: the gesture states of the framework the two
    recognizers derive from ([ClutterGesture], not part of the sources). *)
Inductive ClutterGestureState : Type :=
| CLUTTER_GESTURE_STATE_POSSIBLE
| CLUTTER_GESTURE_STATE_RECOGNIZING
| CLUTTER_GESTURE_STATE_CANCELLED
| CLUTTER_GESTURE_STATE_COMPLETED.

#[global] Instance ClutterGestureState_eq_dec : EqDecision ClutterGestureState.
Proof. solve_decision. Defined.

Inductive ClutterEventType : Type :=
| CLUTTER_MOTION
| CLUTTER_BUTTON_PRESS
| CLUTTER_BUTTON_RELEASE
| CLUTTER_TOUCH_BEGIN
| CLUTTER_TOUCH_UPDATE
| CLUTTER_TOUCH_END
| CLUTTER_TOUCH_CANCEL.

#[global] Instance ClutterEventType_eq_dec : EqDecision ClutterEventType.
Proof. solve_decision. Defined.

Inductive ClutterInputDeviceType : Type :=
| CLUTTER_POINTER_DEVICE
| CLUTTER_KEYBOARD_DEVICE
| CLUTTER_TOUCHPAD_DEVICE
| CLUTTER_TOUCHSCREEN_DEVICE
| CLUTTER_TABLET_DEVICE
| CLUTTER_PEN_DEVICE.

#[global] Instance ClutterInputDeviceType_eq_dec : EqDecision ClutterInputDeviceType.
Proof. solve_decision. Defined.

(** What the recognizers read of an event: its type, its [guint32]
    timestamp in milliseconds and the type of its source device. *)
Record ClutterEvent : Type := {
  event_type : ClutterEventType;
  event_time : Z;
  event_device_type : ClutterInputDeviceType
}.

Record graphene_point_t : Type := { point_x : Q; point_y : Q }.

(** [graphene_point_distance (a, b, &d_x, &d_y)]: the two out parameters,
    the distance of the points on each axis: [fabsf] of the difference of
    the coordinates, a single-precision subtraction. *)
Definition graphene_point_distance (a b : graphene_point_t) : Q * Q :=
  (Qabs (float_sub (point_x a) (point_x b)), Qabs (float_sub (point_y a) (point_y b))).

(** Modelled from the spec: a point of the gesture, with its begin
    coordinates, its current coordinates and its latest event. *)
Record GesturePoint : Type := {
  begin_coords_abs : graphene_point_t;
  coords_abs : graphene_point_t;
  point_event : ClutterEvent
}.

Inductive GParam : Type :=
| PROP_MANUAL_MODE
| PROP_TIMEOUT_THRESHOLD
| PROP_SIDE.

(** What an object lets the outside observe. *)
Inductive Emission : Type :=
| StateChanged (old_state new_state : ClutterGestureState)
| Notify (pspec : GParam)
| Progress (progress_px : Q).

Record ClutterGesture : Type := {
  state : ClutterGestureState;
  points : gmap nat GesturePoint;
  emitted : list Emission
}.

Definition clutter_gesture_get_n_points (g : ClutterGesture) : nat :=
  size (points g).

Definition clutter_gesture_get_point (g : ClutterGesture) (point : nat)
  : result GesturePoint :=
  match points g !! point with
  | Some p => Ok p
  | None => Err NoSuchPoint
  end.

Definition emit (e : Emission) (g : ClutterGesture) : ClutterGesture :=
  {| state := state g; points := points g; emitted := e :: emitted g |}.

Definition is_terminal (s : ClutterGestureState) : bool :=
  match s with
  | CLUTTER_GESTURE_STATE_CANCELLED | CLUTTER_GESTURE_STATE_COMPLETED => true
  | _ => false
  end.

(** Modelled from the spec: the transitions the framework accepts,
    Possible -> Recognizing -> {Cancelled, Completed}, every terminal
    state also directly from Possible. *)
Definition valid_transition (old_state new_state : ClutterGestureState) : bool :=
  match old_state, new_state with
  | CLUTTER_GESTURE_STATE_POSSIBLE, CLUTTER_GESTURE_STATE_RECOGNIZING
  | CLUTTER_GESTURE_STATE_POSSIBLE, CLUTTER_GESTURE_STATE_CANCELLED
  | CLUTTER_GESTURE_STATE_POSSIBLE, CLUTTER_GESTURE_STATE_COMPLETED
  | CLUTTER_GESTURE_STATE_RECOGNIZING, CLUTTER_GESTURE_STATE_CANCELLED
  | CLUTTER_GESTURE_STATE_RECOGNIZING, CLUTTER_GESTURE_STATE_COMPLETED => true
  | _, _ => false
  end.

(** A class deriving from [ClutterGesture]: access to the base object and
    the [state_changed] virtual function. *)
Class GestureClass (G : Type) : Type := {
  gesture : G -> ClutterGesture;
  with_gesture : ClutterGesture -> G -> G;
  state_changed_vfunc : ClutterGestureState -> ClutterGestureState -> G -> G
}.

(** Modelled from the spec: what a requested transition does to the base
    object. *)
Definition transition (new_state : ClutterGestureState) (g : ClutterGesture)
  : ClutterGesture :=
  if valid_transition (state g) new_state then
    {| state := new_state;
       points := points g;
       emitted := StateChanged (state g) new_state :: emitted g |}
  else g.

(** Modelled from the spec: a requested transition is validated and
    applied by the framework, which then runs [state_changed]; a request
    the framework does not accept changes nothing. *)
Definition clutter_gesture_set_state {G : Type} `{GestureClass G}
    (new_state : ClutterGestureState) (self : G) : G :=
  let old_state := state (gesture self) in
  if valid_transition old_state new_state then
    state_changed_vfunc old_state new_state
      (with_gesture (transition new_state (gesture self)) self)
  else self.

(** Modelled from the spec: the framework tracks the points.  A new point
    is registered before [point_began] runs, a moved point is updated
    before [point_moved] runs, an ended point is dropped after
    [point_ended] ran. *)
Definition register_point (point : nat) (coords : graphene_point_t)
    (event : ClutterEvent) (g : ClutterGesture) : ClutterGesture :=
  {| state := state g;
     points := <[point := {| begin_coords_abs := coords;
                             coords_abs := coords;
                             point_event := event |}]> (points g);
     emitted := emitted g |}.

(** Modelled from the spec: a move updates the current coordinates and
    the latest event of a point; its begin coordinates stay. *)
Definition update_point (point : nat) (coords : graphene_point_t)
    (event : ClutterEvent) (g : ClutterGesture) : ClutterGesture :=
  {| state := state g;
     points := alter (fun p => {| begin_coords_abs := begin_coords_abs p;
                                  coords_abs := coords;
                                  point_event := event |}) point (points g);
     emitted := emitted g |}.

(** Modelled from the spec: a point that ended is no longer tracked. *)
Definition remove_point (point : nat) (g : ClutterGesture) : ClutterGesture :=
  {| state := state g;
     points := delete point (points g);
     emitted := emitted g |}.

(** Modelled from the spec: a cancelled or completed gesture simply ends,
    and a fresh point sequence starts a new attempt from the initial
    state. *)
Definition rearm (g : ClutterGesture) : ClutterGesture :=
  {| state := CLUTTER_GESTURE_STATE_POSSIBLE;
     points := points g;
     emitted := emitted g |}.

(** Modelled from the spec: the framework hands a new sequence to a
    gesture that is in progress, or that has finished and has no point
    left (a fresh attempt); the index of a point is unused while the point
    is tracked. *)
Definition accepts_sequence (point : nat) (g : ClutterGesture) : bool :=
  bool_decide (points g !! point = None)
  && (negb (is_terminal (state g)) || bool_decide (points g = ∅)).

(** Modelled from the spec: a new gesture is Possible and has no point. *)
Definition gesture_init : ClutterGesture :=
  {| state := CLUTTER_GESTURE_STATE_POSSIBLE; points := ∅; emitted := [] |}.

End Clutter.
Import Clutter.

(* ===================================================================== *)
(** * shell-dnd-start-gesture.c *)
(* ===================================================================== *)

Module Dnd.

(** A [ClutterEvent *] obtained from [clutter_event_copy]: the allocation
    and the event it holds. *)
Record EventCopy : Type := { copy_id : nat; copy_event : ClutterEvent }.

(** The event copies of the process: the next allocation, the copies not
    freed yet, and every call of [clutter_event_free], newest first. *)
Record EventStore : Type := {
  next_copy : nat;
  live : gset nat;
  freed : list nat
}.

Definition clutter_event_copy (event : ClutterEvent) (st : EventStore)
  : EventCopy * EventStore :=
  ({| copy_id := next_copy st; copy_event := event |},
   {| next_copy := S (next_copy st);
      live := {[next_copy st]} ∪ live st;
      freed := freed st |}).

Definition clutter_event_free (c : EventCopy) (st : EventStore) : EventStore :=
  {| next_copy := next_copy st;
     live := live st ∖ {[copy_id c]};
     freed := copy_id c :: freed st |}.

(** [g_clear_pointer (&ptr, clutter_event_free)]: frees what a non-null
    pointer points to; the caller's pointer is null afterwards. *)
Definition g_clear_pointer (ptr : option EventCopy) (st : EventStore) : EventStore :=
  match ptr with
  | Some c => clutter_event_free c st
  | None => st
  end.

(** [clutter_event_get_time]; of a null event it is CLUTTER_CURRENT_TIME. *)
Definition clutter_event_get_time (ptr : option EventCopy) : Z :=
  match ptr with
  | Some c => event_time (copy_event c)
  | None => 0
  end.

Record ShellDndStartGesture : Type := {
  parent : ClutterGesture;
  drag_threshold_ignored : bool;
  point_begin_event : option EventCopy;
  drag_triggering_event : option EventCopy;
  manual_mode : bool;
  timeout_threshold_ms : Z;
  event_store : EventStore
}.

Definition with_parent (g : ClutterGesture) (self : ShellDndStartGesture) :=
  {| parent := g;
     drag_threshold_ignored := drag_threshold_ignored self;
     point_begin_event := point_begin_event self;
     drag_triggering_event := drag_triggering_event self;
     manual_mode := manual_mode self;
     timeout_threshold_ms := timeout_threshold_ms self;
     event_store := event_store self |}.

Definition should_handle_sequence (sequence_begin_event : ClutterEvent) : bool :=
  let event_type := event_type sequence_begin_event in
  if bool_decide (event_type = CLUTTER_BUTTON_PRESS)
     || bool_decide (event_type = CLUTTER_TOUCH_BEGIN)
  then true
  else false.

Definition state_changed (old_state new_state : ClutterGestureState)
    (self : ShellDndStartGesture) : ShellDndStartGesture :=
  if bool_decide (new_state = CLUTTER_GESTURE_STATE_CANCELLED)
     || bool_decide (new_state = CLUTTER_GESTURE_STATE_COMPLETED)
  then
    let st1 := g_clear_pointer (drag_triggering_event self) (event_store self) in
    let st2 := g_clear_pointer (point_begin_event self) st1 in
    {| parent := parent self;
       drag_threshold_ignored := drag_threshold_ignored self;
       point_begin_event := None;
       drag_triggering_event := None;
       manual_mode := manual_mode self;
       timeout_threshold_ms := timeout_threshold_ms self;
       event_store := st2 |}
  else self.

#[global] Instance dnd_gesture_class : GestureClass ShellDndStartGesture := {
  gesture := parent;
  with_gesture := with_parent;
  state_changed_vfunc := state_changed
}.

Definition shell_dnd_start_gesture_start_drag (start_event : option ClutterEvent)
    (self : ShellDndStartGesture) : ShellDndStartGesture :=
  if negb (clutter_gesture_get_n_points (parent self) =? 1)%nat then self
  else if bool_decide (state (parent self) = CLUTTER_GESTURE_STATE_POSSIBLE) then
    let self :=
      match start_event with
      | Some ev =>
          let (c, st) := clutter_event_copy ev (event_store self) in
          {| parent := parent self;
             drag_threshold_ignored := drag_threshold_ignored self;
             point_begin_event := point_begin_event self;
             drag_triggering_event := Some c;
             manual_mode := manual_mode self;
             timeout_threshold_ms := timeout_threshold_ms self;
             event_store := st |}
      | None => self
      end in
    clutter_gesture_set_state CLUTTER_GESTURE_STATE_COMPLETED self
  else self.

Definition set_drag_threshold_ignored (b : bool) (self : ShellDndStartGesture) :=
  {| parent := parent self;
     drag_threshold_ignored := b;
     point_begin_event := point_begin_event self;
     drag_triggering_event := drag_triggering_event self;
     manual_mode := manual_mode self;
     timeout_threshold_ms := timeout_threshold_ms self;
     event_store := event_store self |}.

Section WithHost.

(** The "drag-threshold" setting of [st_settings_get ()] and the scale
    factor of the stage's theme context, both [int]. *)
Variable st_settings_drag_threshold : Z.
Variable st_theme_context_scale_factor : Z.

Definition maybe_start_drag (point : nat) (self : ShellDndStartGesture)
  : result ShellDndStartGesture :=
  let! p := clutter_gesture_get_point (parent self) point in
  let event := point_event p in
  let begin_coords := begin_coords_abs p in
  let coords := coords_abs p in
  if drag_threshold_ignored self then Ok self
  else
    let drag_threshold :=
      (st_settings_drag_threshold * st_theme_context_scale_factor)%Z in
    if Qltb (float_of_int drag_threshold)
            (Qabs (float_sub (point_x coords) (point_x begin_coords)))
       || Qltb (float_of_int drag_threshold)
               (Qabs (float_sub (point_y coords) (point_y begin_coords)))
    then
      let device_type := event_device_type event in
      let is_pointer_or_touchpad :=
        bool_decide (device_type = CLUTTER_POINTER_DEVICE)
        || bool_decide (device_type = CLUTTER_TOUCHPAD_DEVICE) in
      let ellapsed_time :=
        guint32 (event_time event
                 - clutter_event_get_time (point_begin_event self)) in
      (* Pointer devices (e.g. mouse) start the drag immediately *)
      if is_pointer_or_touchpad
         || (timeout_threshold_ms self <? ellapsed_time)%Z
      then Ok (shell_dnd_start_gesture_start_drag (Some event) self)
      else Ok (set_drag_threshold_ignored true self)
    else Ok self.

Definition point_began (point : nat) (self : ShellDndStartGesture)
  : result ShellDndStartGesture :=
  if (1 <? clutter_gesture_get_n_points (parent self))%nat then
    Ok (clutter_gesture_set_state CLUTTER_GESTURE_STATE_CANCELLED self)
  else
    let! p := clutter_gesture_get_point (parent self) point in
    let event := point_event p in
    let (c, st) := clutter_event_copy event (event_store self) in
    let self :=
      {| parent := parent self;
         drag_threshold_ignored := false;
         point_begin_event := Some c;
         drag_triggering_event := drag_triggering_event self;
         manual_mode := manual_mode self;
         timeout_threshold_ms := timeout_threshold_ms self;
         event_store := st |} in
    if negb (manual_mode self)
       && bool_decide (state (parent self) = CLUTTER_GESTURE_STATE_POSSIBLE)
    then maybe_start_drag point self
    else Ok self.

Definition point_moved (point : nat) (self : ShellDndStartGesture)
  : result ShellDndStartGesture :=
  if negb (manual_mode self)
     && bool_decide (state (parent self) = CLUTTER_GESTURE_STATE_POSSIBLE)
  then maybe_start_drag point self
  else Ok self.

Definition point_ended (point : nat) (self : ShellDndStartGesture)
  : ShellDndStartGesture :=
  if bool_decide (state (parent self) = CLUTTER_GESTURE_STATE_POSSIBLE)
     && (clutter_gesture_get_n_points (parent self) =? 1)%nat
  then
    (* All points were removed and we're still in POSSIBLE, this means
       we're in manual mode and nobody told us to start the drag. *)
    clutter_gesture_set_state CLUTTER_GESTURE_STATE_CANCELLED self
  else self.

End WithHost.

Definition shell_dnd_start_gesture_get_point_begin_event
    (self : ShellDndStartGesture) : option EventCopy :=
  point_begin_event self.

Definition shell_dnd_start_gesture_get_drag_triggering_event
    (self : ShellDndStartGesture) : option EventCopy :=
  drag_triggering_event self.

Definition shell_dnd_start_gesture_get_manual_mode
    (self : ShellDndStartGesture) : bool :=
  manual_mode self.

Definition shell_dnd_start_gesture_set_manual_mode (new_manual_mode : bool)
    (self : ShellDndStartGesture) : ShellDndStartGesture :=
  if bool_decide (manual_mode self = new_manual_mode) then self
  else
    {| parent := emit (Notify PROP_MANUAL_MODE) (parent self);
       drag_threshold_ignored := drag_threshold_ignored self;
       point_begin_event := point_begin_event self;
       drag_triggering_event := drag_triggering_event self;
       manual_mode := new_manual_mode;
       timeout_threshold_ms := timeout_threshold_ms self;
       event_store := event_store self |}.

Definition shell_dnd_start_gesture_get_timeout_threshold
    (self : ShellDndStartGesture) : Z :=
  timeout_threshold_ms self.

Definition shell_dnd_start_gesture_set_timeout_threshold (new_timeout_threshold_ms : Z)
    (self : ShellDndStartGesture) : ShellDndStartGesture :=
  if bool_decide (timeout_threshold_ms self = new_timeout_threshold_ms) then self
  else
    {| parent := emit (Notify PROP_TIMEOUT_THRESHOLD) (parent self);
       drag_threshold_ignored := drag_threshold_ignored self;
       point_begin_event := point_begin_event self;
       drag_triggering_event := drag_triggering_event self;
       manual_mode := manual_mode self;
       timeout_threshold_ms := new_timeout_threshold_ms;
       event_store := event_store self |}.

(** [shell_dnd_start_gesture_init] is empty: the private data is zeroed,
    and the properties have their defaults (FALSE and 0). *)
Definition shell_dnd_start_gesture_init : ShellDndStartGesture :=
  {| parent := gesture_init;
     drag_threshold_ignored := false;
     point_begin_event := None;
     drag_triggering_event := None;
     manual_mode := false;
     timeout_threshold_ms := 0;
     event_store := {| next_copy := 0; live := ∅; freed := [] |} |}.

(** ** The recognizer driven by the framework and by its owner *)

Inductive Input : Type :=
| PointBegan (point : nat) (coords : graphene_point_t) (event : ClutterEvent)
| PointMoved (point : nat) (coords : graphene_point_t) (event : ClutterEvent)
| PointEnded (point : nat)
| StartDrag (start_event : option ClutterEvent)
| SetManualMode (manual_mode : bool)
| SetTimeoutThreshold (timeout_threshold_ms : Z).

Section Run.

Variable st_settings_drag_threshold : Z.
Variable st_theme_context_scale_factor : Z.

(** Modelled from the spec: how the framework dispatches the events of a
    stream to the callbacks of the recognizer.  An event the framework
    does not hand over leaves the recognizer as it is. *)
Definition dispatch (i : Input) (self : ShellDndStartGesture)
  : result ShellDndStartGesture :=
  match i with
  | PointBegan point coords event =>
      if should_handle_sequence event && accepts_sequence point (parent self) then
        let g := if is_terminal (state (parent self))
                 then rearm (parent self) else parent self in
        point_began st_settings_drag_threshold st_theme_context_scale_factor
          point (with_parent (register_point point coords event g) self)
      else Ok self
  | PointMoved point coords event =>
      if bool_decide (is_Some (points (parent self) !! point)) then
        point_moved st_settings_drag_threshold st_theme_context_scale_factor
          point (with_parent (update_point point coords event (parent self)) self)
      else Ok self
  | PointEnded point =>
      if bool_decide (is_Some (points (parent self) !! point)) then
        let self := point_ended point self in
        Ok (with_parent (remove_point point (parent self)) self)
      else Ok self
  | StartDrag start_event =>
      Ok (shell_dnd_start_gesture_start_drag start_event self)
  | SetManualMode b =>
      Ok (shell_dnd_start_gesture_set_manual_mode b self)
  | SetTimeoutThreshold t =>
      Ok (shell_dnd_start_gesture_set_timeout_threshold (guint32 t) self)
  end.

Fixpoint run (inputs : list Input) (self : ShellDndStartGesture)
  : result ShellDndStartGesture :=
  match inputs with
  | [] => Ok self
  | i :: inputs => let! self := dispatch i self in run inputs self
  end.

End Run.

End Dnd.

(* ===================================================================== *)
(** * shell-edge-drag-gesture.c *)
(* ===================================================================== *)

Module EdgeDrag.

Definition EDGE_THRESHOLD : Z := 20.
Definition DRAG_DISTANCE : Z := 80.
Definition CANCEL_THRESHOLD : Z := 100.
Definition CANCEL_TIMEOUT_MS : Z := 200.

(** Modelled from the spec: the sides {Top,Bottom,Left,Right}; the type is
    declared in st-types.h, which is not among the sources, in the order
    top, right, bottom, left. *)
Inductive StSide : Type :=
| ST_SIDE_TOP
| ST_SIDE_RIGHT
| ST_SIDE_BOTTOM
| ST_SIDE_LEFT.

#[global] Instance StSide_eq_dec : EqDecision StSide.
Proof. solve_decision. Defined.

(** The integer a side is in C, and the side an integer is, if any. *)
Definition StSide_to_int (side : StSide) : Z :=
  match side with
  | ST_SIDE_TOP => 0
  | ST_SIDE_RIGHT => 1
  | ST_SIDE_BOTTOM => 2
  | ST_SIDE_LEFT => 3
  end.

Definition StSide_of_int (side : Z) : option StSide :=
  if (side =? 0)%Z then Some ST_SIDE_TOP
  else if (side =? 1)%Z then Some ST_SIDE_RIGHT
  else if (side =? 2)%Z then Some ST_SIDE_BOTTOM
  else if (side =? 3)%Z then Some ST_SIDE_LEFT
  else None.

Record MtkRectangle : Type := {
  rect_x : Z;
  rect_y : Z;
  rect_width : Z;
  rect_height : Z
}.

(** The display of the host: the index of the monitor a rectangle is on
    (-1 when there is none) and the geometry of a monitor. *)
Record MetaDisplay : Type := {
  meta_display_get_monitor_index_for_rect : MtkRectangle -> Z;
  meta_display_get_monitor_geometry : Z -> MtkRectangle
}.

(** The timeout sources of the main loop: the interval of every source
    that is still attached, and the id handed out last.  Ids start at 1. *)
Record GMainContext : Type := {
  sources : gmap nat Z;
  last_source_id : nat
}.

Definition g_timeout_add (interval : Z) (ctx : GMainContext) : nat * GMainContext :=
  let id := S (last_source_id ctx) in
  (id, {| sources := <[id := interval]> (sources ctx); last_source_id := id |}).

Definition g_source_remove (id : nat) (ctx : GMainContext) : GMainContext :=
  {| sources := delete id (sources ctx); last_source_id := last_source_id ctx |}.

(** [g_clear_handle_id (&id, g_source_remove)]: removes the source of a
    non-zero id; the caller's id is 0 afterwards. *)
Definition g_clear_handle_id (id : nat) (ctx : GMainContext) : GMainContext :=
  if (id =? 0)%nat then ctx else g_source_remove id ctx.

Record ShellEdgeDragGesture : Type := {
  parent : ClutterGesture;
  side : StSide;
  cancel_timeout_point : nat;
  cancel_timeout_id : nat;
  main_context : GMainContext
}.

Definition with_parent (g : ClutterGesture) (self : ShellEdgeDragGesture) :=
  {| parent := g;
     side := side self;
     cancel_timeout_point := cancel_timeout_point self;
     cancel_timeout_id := cancel_timeout_id self;
     main_context := main_context self |}.

Definition state_changed (old_state new_state : ClutterGestureState)
    (self : ShellEdgeDragGesture) : ShellEdgeDragGesture :=
  if bool_decide (new_state = CLUTTER_GESTURE_STATE_CANCELLED)
     || bool_decide (new_state = CLUTTER_GESTURE_STATE_COMPLETED)
  then
    {| parent := parent self;
       side := side self;
       cancel_timeout_point := cancel_timeout_point self;
       cancel_timeout_id := 0;
       main_context := g_clear_handle_id (cancel_timeout_id self) (main_context self) |}
  else self.

#[global] Instance edge_drag_gesture_class : GestureClass ShellEdgeDragGesture := {
  gesture := parent;
  with_gesture := with_parent;
  state_changed_vfunc := state_changed
}.

Definition should_handle_sequence (sequence_begin_event : ClutterEvent) : bool :=
  let event_type := event_type sequence_begin_event in
  if bool_decide (event_type = CLUTTER_TOUCH_BEGIN) then true else false.

Section WithDisplay.

Variable display : MetaDisplay.

(** [rect.x = coords->x - 1]: a single-precision subtraction, whose
    result is truncated to [int]. *)
Definition get_monitor_for_coords (coords : graphene_point_t) : option MtkRectangle :=
  let rect :=
    {| rect_x := Qtruncate (float_sub (point_x coords) 1);
       rect_y := Qtruncate (float_sub (point_y coords) 1);
       rect_width := 1;
       rect_height := 1 |} in
  let monitor_index := meta_display_get_monitor_index_for_rect display rect in
  if (monitor_index =? -1)%Z then None
  else Some (meta_display_get_monitor_geometry display monitor_index).

(** The bound is an [int] cast to [float]: a sum of the [int]s of a
    monitor geometry, far below 2^24, so that the cast is exact. *)
Definition is_near_monitor_edge (self : ShellEdgeDragGesture) (point : nat)
  : result bool :=
  let! p := clutter_gesture_get_point (parent self) point in
  let coords := coords_abs p in
  match get_monitor_for_coords coords with
  | None => Err AssertNotReached
  | Some monitor_geometry =>
      Ok match side self with
         | ST_SIDE_LEFT =>
             Qltb (point_x coords)
                  (inject_Z (rect_x monitor_geometry + EDGE_THRESHOLD))
         | ST_SIDE_RIGHT =>
             Qltb (inject_Z (rect_x monitor_geometry + rect_width monitor_geometry
                             - EDGE_THRESHOLD))
                  (point_x coords)
         | ST_SIDE_TOP =>
             Qltb (point_y coords)
                  (inject_Z (rect_y monitor_geometry + EDGE_THRESHOLD))
         | ST_SIDE_BOTTOM =>
             Qltb (inject_Z (rect_y monitor_geometry + rect_height monitor_geometry
                             - EDGE_THRESHOLD))
                  (point_y coords)
         end
  end.

Definition exceeds_cancel_threshold (self : ShellEdgeDragGesture) (point : nat)
  : result bool :=
  let! p := clutter_gesture_get_point (parent self) point in
  let begin_coords := begin_coords_abs p in
  let latest_coords := coords_abs p in
  let (distance_x, distance_y) := graphene_point_distance latest_coords begin_coords in
  Ok match side self with
     | ST_SIDE_LEFT | ST_SIDE_RIGHT => Qltb (inject_Z CANCEL_THRESHOLD) distance_x
     | ST_SIDE_TOP | ST_SIDE_BOTTOM => Qltb (inject_Z CANCEL_THRESHOLD) distance_y
     end.

Definition passes_distance_needed (self : ShellEdgeDragGesture) (sequence : nat)
  : result bool :=
  let! p := clutter_gesture_get_point (parent self) sequence in
  let begin_coords := begin_coords_abs p in
  match get_monitor_for_coords begin_coords with
  | None => Err AssertNotReached
  | Some monitor_geometry =>
      let latest_coords := coords_abs p in
      Ok match side self with
         | ST_SIDE_LEFT =>
             Qltb (inject_Z (rect_x monitor_geometry + DRAG_DISTANCE))
                  (point_x latest_coords)
         | ST_SIDE_RIGHT =>
             Qltb (point_x latest_coords)
                  (inject_Z (rect_x monitor_geometry + rect_width monitor_geometry
                             - DRAG_DISTANCE))
         | ST_SIDE_TOP =>
             Qltb (inject_Z (rect_y monitor_geometry + DRAG_DISTANCE))
                  (point_y latest_coords)
         | ST_SIDE_BOTTOM =>
             Qltb (point_y latest_coords)
                  (inject_Z (rect_y monitor_geometry + rect_height monitor_geometry
                             - DRAG_DISTANCE))
         end
  end.

Definition set_cancel_timeout_id (id : nat) (self : ShellEdgeDragGesture) :=
  {| parent := parent self;
     side := side self;
     cancel_timeout_point := cancel_timeout_point self;
     cancel_timeout_id := id;
     main_context := main_context self |}.

(** The callback of the cancel timeout.  The boolean is what it returns
    to the main loop: [false] is G_SOURCE_REMOVE. *)
Definition on_cancel_timeout (self : ShellEdgeDragGesture)
  : result (ShellEdgeDragGesture * bool) :=
  let! near := is_near_monitor_edge self (cancel_timeout_point self) in
  let self :=
    if near then clutter_gesture_set_state CLUTTER_GESTURE_STATE_CANCELLED self
    else self in
  Ok (set_cancel_timeout_id 0 self, false).

Definition point_began (point : nat) (self : ShellEdgeDragGesture)
  : result ShellEdgeDragGesture :=
  let n_points := clutter_gesture_get_n_points (parent self) in
  let! cancel :=
    (if (1 <? n_points)%nat then Ok true
     else let! near := is_near_monitor_edge self point in Ok (negb near)) in
  if cancel then
    Ok (clutter_gesture_set_state CLUTTER_GESTURE_STATE_CANCELLED self)
  else
    if (cancel_timeout_id self =? 0)%nat then
      let (id, ctx) := g_timeout_add CANCEL_TIMEOUT_MS (main_context self) in
      Ok {| parent := parent self;
            side := side self;
            cancel_timeout_point := point;
            cancel_timeout_id := id;
            main_context := ctx |}
    else Err AssertFailed.

Definition point_moved (point : nat) (self : ShellEdgeDragGesture)
  : result ShellEdgeDragGesture :=
  let! exceeds := exceeds_cancel_threshold self point in
  if exceeds then
    Ok (clutter_gesture_set_state CLUTTER_GESTURE_STATE_CANCELLED self)
  else
    let! self :=
      (if bool_decide (state (parent self) = CLUTTER_GESTURE_STATE_POSSIBLE) then
         let! near := is_near_monitor_edge self point in
         if negb near
         then Ok (clutter_gesture_set_state CLUTTER_GESTURE_STATE_RECOGNIZING self)
         else Ok self
       else Ok self) in
    if bool_decide (state (parent self) = CLUTTER_GESTURE_STATE_RECOGNIZING) then
      let! p := clutter_gesture_get_point (parent self) point in
      let begin_coords := begin_coords_abs p in
      let latest_coords := coords_abs p in
      let (distance_x, distance_y) :=
        graphene_point_distance latest_coords begin_coords in
      let self :=
        match side self with
        | ST_SIDE_LEFT | ST_SIDE_RIGHT =>
            with_parent (emit (Progress distance_x) (parent self)) self
        | ST_SIDE_TOP | ST_SIDE_BOTTOM =>
            with_parent (emit (Progress distance_y) (parent self)) self
        end in
      let! passes := passes_distance_needed self point in
      if passes
      then Ok (clutter_gesture_set_state CLUTTER_GESTURE_STATE_COMPLETED self)
      else Ok self
    else Ok self.

Definition point_ended (point : nat) (self : ShellEdgeDragGesture)
  : ShellEdgeDragGesture :=
  clutter_gesture_set_state CLUTTER_GESTURE_STATE_CANCELLED self.

End WithDisplay.

Definition shell_edge_drag_gesture_init : ShellEdgeDragGesture :=
  {| parent := gesture_init;
     side := ST_SIDE_TOP;
     cancel_timeout_point := 0;
     cancel_timeout_id := 0;
     main_context := {| sources := ∅; last_source_id := 0 |} |}.

(** The setter receives the C value of the enum, which can be any
    integer; [g_return_if_fail] returns when its condition is false. *)
Definition shell_edge_drag_gesture_set_side (new_side : Z)
    (self : ShellEdgeDragGesture) : ShellEdgeDragGesture :=
  if negb ((StSide_to_int ST_SIDE_TOP <=? new_side)%Z
           && (new_side <=? StSide_to_int ST_SIDE_LEFT)%Z) then self
  else
    match StSide_of_int new_side with
    | Some s =>
        {| parent := emit (Notify PROP_SIDE) (parent self);
           side := s;
           cancel_timeout_point := cancel_timeout_point self;
           cancel_timeout_id := cancel_timeout_id self;
           main_context := main_context self |}
    | None => self
    end.

Definition shell_edge_drag_gesture_get_side (self : ShellEdgeDragGesture) : StSide :=
  side self.

(** ** The recognizer driven by the framework, the main loop and its owner *)

Inductive Input : Type :=
| PointBegan (point : nat) (coords : graphene_point_t) (event : ClutterEvent)
| PointMoved (point : nat) (coords : graphene_point_t) (event : ClutterEvent)
| PointEnded (point : nat)
| TimeoutFired (id : nat)
| SetSide (side : Z).

Section Run.

Variable display : MetaDisplay.

(** The main loop runs the callback of a source that is attached, and
    destroys the source when the callback returns G_SOURCE_REMOVE. *)
Definition g_main_dispatch (id : nat) (self : ShellEdgeDragGesture)
  : result ShellEdgeDragGesture :=
  match sources (main_context self) !! id with
  | None => Ok self
  | Some _ =>
      let! r := on_cancel_timeout display self in
      let (self, continue) := r : ShellEdgeDragGesture * bool in
      if continue then Ok self
      else Ok {| parent := parent self;
                 side := side self;
                 cancel_timeout_point := cancel_timeout_point self;
                 cancel_timeout_id := cancel_timeout_id self;
                 main_context := g_source_remove id (main_context self) |}
  end.

(** Modelled from the spec: how the framework dispatches the events of a
    stream to the callbacks of the recognizer.  An event the framework
    does not hand over leaves the recognizer as it is. *)
Definition dispatch (i : Input) (self : ShellEdgeDragGesture)
  : result ShellEdgeDragGesture :=
  match i with
  | PointBegan point coords event =>
      if should_handle_sequence event && accepts_sequence point (parent self) then
        let g := if is_terminal (state (parent self))
                 then rearm (parent self) else parent self in
        point_began display point
          (with_parent (register_point point coords event g) self)
      else Ok self
  | PointMoved point coords event =>
      if bool_decide (is_Some (points (parent self) !! point)) then
        point_moved display point
          (with_parent (update_point point coords event (parent self)) self)
      else Ok self
  | PointEnded point =>
      if bool_decide (is_Some (points (parent self) !! point)) then
        let self := point_ended point self in
        Ok (with_parent (remove_point point (parent self)) self)
      else Ok self
  | TimeoutFired id => g_main_dispatch id self
  | SetSide s => Ok (shell_edge_drag_gesture_set_side s self)
  end.

Fixpoint run (inputs : list Input) (self : ShellEdgeDragGesture)
  : result ShellEdgeDragGesture :=
  match inputs with
  | [] => Ok self
  | i :: inputs => let! self := dispatch i self in run inputs self
  end.

End Run.

End EdgeDrag.

(* ===================================================================== *)
(** * Streams and sample data used to state and to exercise the properties *)
(* ===================================================================== *)

Definition is_dnd_point_moved (i : Dnd.Input) : bool :=
  match i with
  | Dnd.PointMoved _ _ _ => true
  | _ => false
  end.

(** How far inside a monitor a position is, measured from the edge of the
    configured side. *)
Definition edge_distance (side : EdgeDrag.StSide) (m : EdgeDrag.MtkRectangle)
    (c : graphene_point_t) : Q :=
  match side with
  | EdgeDrag.ST_SIDE_LEFT => point_x c - inject_Z (EdgeDrag.rect_x m)
  | EdgeDrag.ST_SIDE_RIGHT =>
      inject_Z (EdgeDrag.rect_x m + EdgeDrag.rect_width m) - point_x c
  | EdgeDrag.ST_SIDE_TOP => point_y c - inject_Z (EdgeDrag.rect_y m)
  | EdgeDrag.ST_SIDE_BOTTOM =>
      inject_Z (EdgeDrag.rect_y m + EdgeDrag.rect_height m) - point_y c
  end.

(** The displacement of a point since it began, on the axis of the
    configured side: x for left and right, y for top and bottom. *)
Definition axis_displacement (side : EdgeDrag.StSide) (p : GesturePoint) : Q :=
  match side with
  | EdgeDrag.ST_SIDE_LEFT | EdgeDrag.ST_SIDE_RIGHT =>
      Qabs (point_x (coords_abs p) - point_x (begin_coords_abs p))
  | EdgeDrag.ST_SIDE_TOP | EdgeDrag.ST_SIDE_BOTTOM =>
      Qabs (point_y (coords_abs p) - point_y (begin_coords_abs p))
  end.

(** The same displacement as the code measures it: the absolute value of
    the single-precision difference of the coordinates. *)
Definition measured_displacement (side : EdgeDrag.StSide) (p : GesturePoint) : Q :=
  match side with
  | EdgeDrag.ST_SIDE_LEFT | EdgeDrag.ST_SIDE_RIGHT =>
      Qabs (float_sub (point_x (coords_abs p)) (point_x (begin_coords_abs p)))
  | EdgeDrag.ST_SIDE_TOP | EdgeDrag.ST_SIDE_BOTTOM =>
      Qabs (float_sub (point_y (coords_abs p)) (point_y (begin_coords_abs p)))
  end.

(** The values of the progress emissions of a log, newest first. *)
Fixpoint progress_values (log : list Emission) : list Q :=
  match log with
  | [] => []
  | Progress v :: log => v :: progress_values log
  | _ :: log => progress_values log
  end.

(** The recognizer after it emitted "progress" with a value. *)
Definition edge_emit_progress (v : Q) (self : EdgeDrag.ShellEdgeDragGesture)
  : EdgeDrag.ShellEdgeDragGesture :=
  EdgeDrag.with_parent (emit (Progress v) (EdgeDrag.parent self)) self.

(** The recognizer after it scheduled the cancel timeout for a point. *)
Definition edge_arm_timeout (point : nat) (self : EdgeDrag.ShellEdgeDragGesture)
  : EdgeDrag.ShellEdgeDragGesture :=
  {| EdgeDrag.parent := EdgeDrag.parent self;
     EdgeDrag.side := EdgeDrag.side self;
     EdgeDrag.cancel_timeout_point := point;
     EdgeDrag.cancel_timeout_id :=
       fst (EdgeDrag.g_timeout_add EdgeDrag.CANCEL_TIMEOUT_MS
              (EdgeDrag.main_context self));
     EdgeDrag.main_context :=
       snd (EdgeDrag.g_timeout_add EdgeDrag.CANCEL_TIMEOUT_MS
              (EdgeDrag.main_context self)) |}.

(** The recognizer after the main loop destroyed a source. *)
Definition edge_source_removed (id : nat) (self : EdgeDrag.ShellEdgeDragGesture)
  : EdgeDrag.ShellEdgeDragGesture :=
  {| EdgeDrag.parent := EdgeDrag.parent self;
     EdgeDrag.side := EdgeDrag.side self;
     EdgeDrag.cancel_timeout_point := EdgeDrag.cancel_timeout_point self;
     EdgeDrag.cancel_timeout_id := EdgeDrag.cancel_timeout_id self;
     EdgeDrag.main_context :=
       EdgeDrag.g_source_remove id (EdgeDrag.main_context self) |}.

(** The part of a log that is older than its newest transition to
    Completed, if it has one. *)
Fixpoint before_completed (log : list Emission) : option (list Emission) :=
  match log with
  | [] => None
  | StateChanged _ CLUTTER_GESTURE_STATE_COMPLETED :: older => Some older
  | _ :: older => before_completed older
  end.

(** A point that began at [c0] and is now at [c]. *)
Definition moved_point (c0 c : graphene_point_t) (event : ClutterEvent)
  : GesturePoint :=
  {| begin_coords_abs := c0; coords_abs := c; point_event := event |}.

(** The stream of one finger: it goes down at [c0], then moves. *)
Definition single_touch (point : nat) (c0 : graphene_point_t) (e0 : ClutterEvent)
    (moves : list (graphene_point_t * ClutterEvent)) : list EdgeDrag.Input :=
  EdgeDrag.PointBegan point c0 e0
  :: map (fun ce => EdgeDrag.PointMoved point (fst ce) (snd ce)) moves.

(** The sentence of the specification on overshoots, as it is written: on
    a move of a gesture in progress, a point displaced by more than 100px
    on the axis of the side cancels the gesture, and nothing is emitted
    on that move.  The displacement is the exact one. *)
Definition overshoot_always_cancels : Prop :=
  forall (display : EdgeDrag.MetaDisplay) (self self' : EdgeDrag.ShellEdgeDragGesture)
         (point : nat) (p : GesturePoint),
    points (EdgeDrag.parent self) !! point = Some p ->
    is_terminal (state (EdgeDrag.parent self)) = false ->
    (100 < axis_displacement (EdgeDrag.side self) p)%Q ->
    EdgeDrag.point_moved display point self = Ok self' ->
    state (EdgeDrag.parent self') = CLUTTER_GESTURE_STATE_CANCELLED
    /\ progress_values (emitted (EdgeDrag.parent self'))
       = progress_values (emitted (EdgeDrag.parent self)).

(** The sentence of the specification on edge drags, as it is written: a
    finger that goes down within 20px of the edge and moves inward by at
    least 80px, never displaced by more than 100px, completes the gesture,
    and the last progress emitted before the completion is at least 80. *)
Definition inward_drag_completes_with_progress_80 : Prop :=
  forall (display : EdgeDrag.MetaDisplay) (side : EdgeDrag.StSide)
         (point : nat) (c0 : graphene_point_t) (e0 : ClutterEvent)
         (moves : list (graphene_point_t * ClutterEvent))
         (m : EdgeDrag.MtkRectangle) (self' : EdgeDrag.ShellEdgeDragGesture),
    EdgeDrag.should_handle_sequence e0 = true ->
    (forall c, In c (c0 :: map fst moves) ->
               EdgeDrag.get_monitor_for_coords display c = Some m) ->
    (0 <= edge_distance side m c0 < 20)%Q ->
    Exists (fun ce => (80 <= edge_distance side m (fst ce) - edge_distance side m c0)%Q)
      moves ->
    Forall (fun ce => (axis_displacement side (moved_point c0 (fst ce) (snd ce))
                       <= 100)%Q) moves ->
    EdgeDrag.run display (single_touch point c0 e0 moves)
      (EdgeDrag.shell_edge_drag_gesture_set_side (EdgeDrag.StSide_to_int side)
         EdgeDrag.shell_edge_drag_gesture_init) = Ok self' ->
    state (EdgeDrag.parent self') = CLUTTER_GESTURE_STATE_COMPLETED
    /\ exists older v rest,
         before_completed (emitted (EdgeDrag.parent self')) = Some older
         /\ progress_values older = v :: rest
         /\ (80 <= v)%Q.

(** What [point_moved] of the edge-drag recognizer computes for a point
    [p] when the monitor of its begin coordinates is [m0] and the monitor
    of its current coordinates is [mc]. *)
Definition edge_moved (m0 mc : EdgeDrag.MtkRectangle) (p : GesturePoint)
    (self : EdgeDrag.ShellEdgeDragGesture) : EdgeDrag.ShellEdgeDragGesture :=
  let d := measured_displacement (EdgeDrag.side self) p in
  if Qltb 100 d then
    clutter_gesture_set_state CLUTTER_GESTURE_STATE_CANCELLED self
  else
    let self1 :=
      if bool_decide (state (EdgeDrag.parent self) = CLUTTER_GESTURE_STATE_POSSIBLE)
         && negb (Qltb (edge_distance (EdgeDrag.side self) mc (coords_abs p)) 20)
      then clutter_gesture_set_state CLUTTER_GESTURE_STATE_RECOGNIZING self
      else self in
    if bool_decide (state (EdgeDrag.parent self1) = CLUTTER_GESTURE_STATE_RECOGNIZING)
    then
      let self2 := edge_emit_progress d self1 in
      if Qltb 80 (edge_distance (EdgeDrag.side self) m0 (coords_abs p))
      then clutter_gesture_set_state CLUTTER_GESTURE_STATE_COMPLETED self2
      else self2
    else self1.

(** The cancel timeout and the sources of the main loop agree: the stored
    id is 0 and no source is attached, or the one attached source is the
    cancel timeout. *)
Definition timer_consistent (self : EdgeDrag.ShellEdgeDragGesture) : Prop :=
  EdgeDrag.sources (EdgeDrag.main_context self)
  = if (EdgeDrag.cancel_timeout_id self =? 0)%nat then ∅
    else {[EdgeDrag.cancel_timeout_id self := EdgeDrag.CANCEL_TIMEOUT_MS]}.

(** The displacement from [begin_coords] to [coords] is above a drag
    threshold on one of the two axes. *)
Definition exceeds_drag_threshold (drag_threshold : Z)
    (begin_coords coords : graphene_point_t) : Prop :=
  (inject_Z drag_threshold < Qabs (point_x coords - point_x begin_coords))%Q
  \/ (inject_Z drag_threshold < Qabs (point_y coords - point_y begin_coords))%Q.

(** The same as the code measures it: the single-precision difference of
    the coordinates is above the threshold converted to [float], on one
    of the two axes. *)
Definition measured_beyond_drag_threshold (drag_threshold : Z)
    (begin_coords coords : graphene_point_t) : Prop :=
  (float_of_int drag_threshold
   < Qabs (float_sub (point_x coords) (point_x begin_coords)))%Q
  \/ (float_of_int drag_threshold
      < Qabs (float_sub (point_y coords) (point_y begin_coords)))%Q.

(** The milliseconds between two events, as the [guint32] the code
    computes. *)
Definition elapsed_since (begin_event event : ClutterEvent) : Z :=
  guint32 (event_time event - event_time begin_event).

(** The sentence of the specification on touch drags, as it is written:
    a finger moves beyond the threshold before the timeout, the gesture
    does not complete on that move, and completes on a later move, made
    after the timeout (and still beyond the threshold). *)
Definition touch_drag_completes_on_later_move : Prop :=
  forall (drag_threshold scale_factor timeout : Z) (point : nat)
         (c0 c1 c2 : graphene_point_t) (e0 e1 e2 : ClutterEvent)
         (self1 self2 : Dnd.ShellDndStartGesture),
    let setup := [Dnd.SetTimeoutThreshold timeout; Dnd.PointBegan point c0 e0] in
    (0 <= timeout < 2 ^ 32)%Z ->
    Dnd.should_handle_sequence e0 = true ->
    event_device_type e1 = CLUTTER_TOUCHSCREEN_DEVICE ->
    event_device_type e2 = CLUTTER_TOUCHSCREEN_DEVICE ->
    exceeds_drag_threshold (drag_threshold * scale_factor) c0 c1 ->
    exceeds_drag_threshold (drag_threshold * scale_factor) c0 c2 ->
    (elapsed_since e0 e1 < timeout)%Z ->
    (timeout < elapsed_since e0 e2)%Z ->
    Dnd.run drag_threshold scale_factor
      (setup ++ [Dnd.PointMoved point c1 e1])
      Dnd.shell_dnd_start_gesture_init = Ok self1 ->
    Dnd.run drag_threshold scale_factor
      (setup ++ [Dnd.PointMoved point c1 e1; Dnd.PointMoved point c2 e2])
      Dnd.shell_dnd_start_gesture_init = Ok self2 ->
    state (Dnd.parent self1) <> CLUTTER_GESTURE_STATE_COMPLETED
    /\ state (Dnd.parent self2) = CLUTTER_GESTURE_STATE_COMPLETED.

(** ** Invariants of the two recognizers *)

(** The allocation a pointer to an event copy holds, if it is not null. *)
Definition owned (ptr : option Dnd.EventCopy) : gset nat :=
  match ptr with
  | Some c => {[Dnd.copy_id c]}
  | None => ∅
  end.

(** The event copies and the pointer that owns one: the copies not freed
    are those the pointer owns, no copy was freed twice, and every copy
    made so far is either owned or freed. *)
Definition store_consistent (ptr : option Dnd.EventCopy) (st : Dnd.EventStore) : Prop :=
  Dnd.live st = owned ptr
  /\ NoDup (Dnd.freed st)
  /\ (forall id, id ∈ Dnd.freed st <-> (id < Dnd.next_copy st)%nat /\ id ∉ Dnd.live st)
  /\ (forall id, id ∈ Dnd.live st -> (id < Dnd.next_copy st)%nat).

(** What holds of a drag-start recognizer between two callbacks. *)
Definition dnd_inv (self : Dnd.ShellDndStartGesture) : Prop :=
  Dnd.drag_triggering_event self = None
  /\ store_consistent (Dnd.point_begin_event self) (Dnd.event_store self)
  /\ (is_terminal (state (Dnd.parent self)) = true -> Dnd.point_begin_event self = None)
  /\ (points (Dnd.parent self) = ∅ -> Dnd.point_begin_event self = None)
  /\ state (Dnd.parent self) <> CLUTTER_GESTURE_STATE_RECOGNIZING.

(** The drag-start recognizer after [point_began] stored the copy of the
    event of its first point. *)
Definition dnd_begin_tracking (event : ClutterEvent) (self : Dnd.ShellDndStartGesture)
  : Dnd.ShellDndStartGesture :=
  {| Dnd.parent := Dnd.parent self;
     Dnd.drag_threshold_ignored := false;
     Dnd.point_begin_event := Some (fst (Dnd.clutter_event_copy event (Dnd.event_store self)));
     Dnd.drag_triggering_event := Dnd.drag_triggering_event self;
     Dnd.manual_mode := Dnd.manual_mode self;
     Dnd.timeout_threshold_ms := Dnd.timeout_threshold_ms self;
     Dnd.event_store := snd (Dnd.clutter_event_copy event (Dnd.event_store self)) |}.

(** What holds of an edge-drag recognizer between two callbacks. *)
Definition edge_inv (self : EdgeDrag.ShellEdgeDragGesture) : Prop :=
  timer_consistent self
  /\ (is_terminal (state (EdgeDrag.parent self)) = true ->
      EdgeDrag.cancel_timeout_id self = 0%nat)
  /\ (points (EdgeDrag.parent self) = ∅ -> EdgeDrag.cancel_timeout_id self = 0%nat)
  /\ (EdgeDrag.cancel_timeout_id self <> 0%nat ->
      is_Some (points (EdgeDrag.parent self) !! EdgeDrag.cancel_timeout_point self)).

Module Samples.

Definition at_px (x y : Z) : graphene_point_t :=
  {| point_x := inject_Z x; point_y := inject_Z y |}.

Definition touch_event (type : ClutterEventType) (time : Z) : ClutterEvent :=
  {| event_type := type;
     event_time := time;
     event_device_type := CLUTTER_TOUCHSCREEN_DEVICE |}.

(** A drag-start recognizer in manual mode that tracks one finger. *)
Definition dnd_manual_one_point : Dnd.ShellDndStartGesture :=
  match
    Dnd.run 8 1
      [Dnd.SetManualMode true;
       Dnd.PointBegan 0 (at_px 100 100) (touch_event CLUTTER_TOUCH_BEGIN 1000)]
      Dnd.shell_dnd_start_gesture_init
  with
  | Ok self => self
  | Err _ => Dnd.shell_dnd_start_gesture_init
  end.

Definition dnd_after (inputs : list Dnd.Input) : Dnd.ShellDndStartGesture :=
  match Dnd.run 8 1 inputs Dnd.shell_dnd_start_gesture_init with
  | Ok self => self
  | Err _ => Dnd.shell_dnd_start_gesture_init
  end.

(** A finger goes down at time 1000 with a timeout of 500ms, is 20px to
    the right 100ms later, and 30px to the right one second after it
    went down. *)
Definition dnd_touch_setup : list Dnd.Input :=
  [Dnd.SetTimeoutThreshold 500;
   Dnd.PointBegan 0 (at_px 100 100) (touch_event CLUTTER_TOUCH_BEGIN 1000)].

Definition dnd_early_move : Dnd.Input :=
  Dnd.PointMoved 0 (at_px 120 100) (touch_event CLUTTER_TOUCH_UPDATE 1100).

Definition dnd_late_move : Dnd.Input :=
  Dnd.PointMoved 0 (at_px 130 100) (touch_event CLUTTER_TOUCH_UPDATE 2000).

(** The recognizer after [dnd_touch_setup], with the finger updated to the
    position of [dnd_early_move], before [point_moved] runs. *)
Definition dnd_early_moving : Dnd.ShellDndStartGesture :=
  Dnd.with_parent
    (update_point 0 (at_px 120 100) (touch_event CLUTTER_TOUCH_UPDATE 1100)
       (Dnd.parent (dnd_after dnd_touch_setup)))
    (dnd_after dnd_touch_setup).

Definition one_monitor : EdgeDrag.MtkRectangle :=
  {| EdgeDrag.rect_x := 0;
     EdgeDrag.rect_y := 0;
     EdgeDrag.rect_width := 1920;
     EdgeDrag.rect_height := 1080 |}.

(** A display with a single monitor, on which every rectangle is. *)
Definition one_monitor_display : EdgeDrag.MetaDisplay :=
  {| EdgeDrag.meta_display_get_monitor_index_for_rect := fun _ => 0%Z;
     EdgeDrag.meta_display_get_monitor_geometry := fun _ => one_monitor |}.

Definition edge_after (inputs : list EdgeDrag.Input) : EdgeDrag.ShellEdgeDragGesture :=
  match EdgeDrag.run one_monitor_display inputs EdgeDrag.shell_edge_drag_gesture_init with
  | Ok self => self
  | Err _ => EdgeDrag.shell_edge_drag_gesture_init
  end.

(** An edge-drag recognizer for the top edge with a finger down 10px
    below the edge, and the same with the finger moved 40px down. *)
Definition edge_finger_down : EdgeDrag.ShellEdgeDragGesture :=
  edge_after [EdgeDrag.PointBegan 0 (at_px 500 10) (touch_event CLUTTER_TOUCH_BEGIN 1000)].

Definition edge_finger_moved : EdgeDrag.ShellEdgeDragGesture :=
  edge_after [EdgeDrag.PointBegan 0 (at_px 500 10) (touch_event CLUTTER_TOUCH_BEGIN 1000);
              EdgeDrag.PointMoved 0 (at_px 500 50) (touch_event CLUTTER_TOUCH_UPDATE 1050)].

(** The top-edge recognizer when a finger has just been registered, before
    [point_began] runs: 300px below the edge, and 20px below it. *)
Definition edge_registered (y : Z) : EdgeDrag.ShellEdgeDragGesture :=
  EdgeDrag.with_parent
    (register_point 0 (at_px 500 y) (touch_event CLUTTER_TOUCH_BEGIN 1000) gesture_init)
    EdgeDrag.shell_edge_drag_gesture_init.

(** The recognizer of [edge_finger_down] with the finger updated to a
    position 120px below where it began, before [point_moved] runs. *)
Definition edge_overshooting : EdgeDrag.ShellEdgeDragGesture :=
  EdgeDrag.with_parent
    (update_point 0 (at_px 500 130) (touch_event CLUTTER_TOUCH_UPDATE 1050)
       (EdgeDrag.parent edge_finger_down))
    edge_finger_down.

(** The floats nearest to 10.3 and to 110.3.  Their exact difference is
    above 100, by less than 3/1000000; their single-precision difference
    is 100. *)
Definition float_10_3 : Q := 10800333 # 1048576.
Definition float_110_3 : Q := 14457242 # 131072.

(** The top-edge recognizer with a finger that went down at y = 10.3f
    and is updated to y = 110.3f, before [point_moved] runs. *)
Definition edge_rounded_overshoot : EdgeDrag.ShellEdgeDragGesture :=
  let finger_down :=
    edge_after [EdgeDrag.PointBegan 0 {| point_x := 500; point_y := float_10_3 |}
                  (touch_event CLUTTER_TOUCH_BEGIN 1000)] in
  EdgeDrag.with_parent
    (update_point 0 {| point_x := 500; point_y := float_110_3 |}
       (touch_event CLUTTER_TOUCH_UPDATE 1050) (EdgeDrag.parent finger_down))
    finger_down.

(** A finger goes down 19px below the top edge, then is 81px and 99px
    below the edge. *)
Definition edge_short_drag : list (graphene_point_t * ClutterEvent) :=
  [(at_px 500 81, touch_event CLUTTER_TOUCH_UPDATE 1050);
   (at_px 500 99, touch_event CLUTTER_TOUCH_UPDATE 1100)].

Definition edge_after_short_drag : EdgeDrag.ShellEdgeDragGesture :=
  match
    EdgeDrag.run one_monitor_display
      (single_touch 0 (at_px 500 19) (touch_event CLUTTER_TOUCH_BEGIN 1000)
         edge_short_drag)
      (EdgeDrag.shell_edge_drag_gesture_set_side 0
         EdgeDrag.shell_edge_drag_gesture_init)
  with
  | Ok self => self
  | Err _ => EdgeDrag.shell_edge_drag_gesture_init
  end.

(** A mouse drag that completes: the button goes down, and the pointer
    is 30px to the right 50ms later. *)
Definition dnd_mouse_drag : list Dnd.Input :=
  [Dnd.PointBegan 0 (at_px 100 100)
     {| event_type := CLUTTER_BUTTON_PRESS;
        event_time := 1000;
        event_device_type := CLUTTER_POINTER_DEVICE |};
   Dnd.PointMoved 0 (at_px 130 100)
     {| event_type := CLUTTER_MOTION;
        event_time := 1050;
        event_device_type := CLUTTER_POINTER_DEVICE |}].

(** Both recognizers with one finger down and a second finger just
    registered, before [point_began] runs for it. *)
Definition dnd_second_finger : Dnd.ShellDndStartGesture :=
  Dnd.with_parent
    (register_point 1 (at_px 300 300) (touch_event CLUTTER_TOUCH_BEGIN 1020)
       (Dnd.parent (dnd_after dnd_touch_setup)))
    (dnd_after dnd_touch_setup).

Definition edge_second_finger : EdgeDrag.ShellEdgeDragGesture :=
  EdgeDrag.with_parent
    (register_point 1 (at_px 300 300) (touch_event CLUTTER_TOUCH_BEGIN 1020)
       (EdgeDrag.parent edge_finger_down))
    edge_finger_down.

End Samples.

(* ===================================================================== *)
(** * The GObject properties of the two recognizers *)
(* ===================================================================== *)

(** The values the properties of the two classes hold. *)
Inductive GValue : Type :=
| GValueBoolean (v_boolean : bool)
| GValueUInt (v_uint : Z)
| GValueEnum (v_enum : Z).

(** The getters of GValue return 0 for a value of another type. *)
Definition g_value_get_boolean (value : GValue) : bool :=
  match value with
  | GValueBoolean v => v
  | _ => false
  end.

Definition g_value_get_uint (value : GValue) : Z :=
  match value with
  | GValueUInt v => v
  | _ => 0
  end.

Definition g_value_get_enum (value : GValue) : Z :=
  match value with
  | GValueEnum v => v
  | _ => 0
  end.

Module DndGObject.

(** enum { PROP_0, PROP_MANUAL_MODE, PROP_TIMEOUT_THRESHOLD, PROP_LAST } *)
Definition pspec_of_prop_id (prop_id : nat) : option GParam :=
  match prop_id with
  | 1%nat => Some PROP_MANUAL_MODE
  | 2%nat => Some PROP_TIMEOUT_THRESHOLD
  | _ => None
  end.

(** The boolean tells whether G_OBJECT_WARN_INVALID_PROPERTY_ID ran. *)
Definition shell_dnd_start_gesture_set_property (prop_id : nat) (value : GValue)
    (self : Dnd.ShellDndStartGesture) : Dnd.ShellDndStartGesture * bool :=
  match pspec_of_prop_id prop_id with
  | Some PROP_MANUAL_MODE =>
      (Dnd.shell_dnd_start_gesture_set_manual_mode (g_value_get_boolean value) self,
       false)
  | Some PROP_TIMEOUT_THRESHOLD =>
      (Dnd.shell_dnd_start_gesture_set_timeout_threshold (g_value_get_uint value) self,
       false)
  | _ => (self, true)
  end.

(** The value written to the caller's GValue, if any, and whether
    G_OBJECT_WARN_INVALID_PROPERTY_ID ran. *)
Definition shell_dnd_start_gesture_get_property (prop_id : nat)
    (self : Dnd.ShellDndStartGesture) : option GValue * bool :=
  match pspec_of_prop_id prop_id with
  | Some PROP_MANUAL_MODE =>
      (Some (GValueBoolean (Dnd.shell_dnd_start_gesture_get_manual_mode self)), false)
  | Some PROP_TIMEOUT_THRESHOLD =>
      (Some (GValueUInt (Dnd.shell_dnd_start_gesture_get_timeout_threshold self)), false)
  | _ => (None, true)
  end.

End DndGObject.

Module EdgeDragGObject.

(** enum { PROP_0, PROP_SIDE, PROP_LAST } *)
Definition pspec_of_prop_id (prop_id : nat) : option GParam :=
  match prop_id with
  | 1%nat => Some PROP_SIDE
  | _ => None
  end.

Definition shell_edge_drag_gesture_set_property (prop_id : nat) (value : GValue)
    (self : EdgeDrag.ShellEdgeDragGesture) : EdgeDrag.ShellEdgeDragGesture * bool :=
  match pspec_of_prop_id prop_id with
  | Some PROP_SIDE =>
      (EdgeDrag.shell_edge_drag_gesture_set_side (g_value_get_enum value) self, false)
  | _ => (self, true)
  end.

Definition shell_edge_drag_gesture_get_property (prop_id : nat)
    (self : EdgeDrag.ShellEdgeDragGesture) : option GValue * bool :=
  match pspec_of_prop_id prop_id with
  | Some PROP_SIDE =>
      (Some (GValueEnum
               (EdgeDrag.StSide_to_int (EdgeDrag.shell_edge_drag_gesture_get_side self))),
       false)
  | _ => (None, true)
  end.

End EdgeDragGObject.

(* ===================================================================== *)
(** * st/st-context.c *)
(* ===================================================================== *)

Module StContext.

(** The static [st_clutter_context]: a pointer, null until [st_init]. *)
Definition ClutterContext : Type := nat.

(** [st_init]: the boolean tells whether [g_warn_if_fail] warned.  The
    context is stored either way. *)
Definition st_init (clutter_context : option ClutterContext)
    (st_clutter_context : option ClutterContext)
  : option ClutterContext * bool :=
  (clutter_context, bool_decide (st_clutter_context <> None)).

Definition st_get_clutter_context (st_clutter_context : option ClutterContext)
  : option ClutterContext :=
  st_clutter_context.

(** The static after a sequence of calls of [st_init], from a given
    value, and the number of warnings. *)
Fixpoint st_init_all (calls : list (option ClutterContext))
    (st_clutter_context : option ClutterContext) (warnings : nat)
  : option ClutterContext * nat :=
  match calls with
  | [] => (st_clutter_context, warnings)
  | clutter_context :: calls =>
      let (st, warned) := st_init clutter_context st_clutter_context in
      st_init_all calls st (if warned then S warnings else warnings)
  end.

End StContext.

(* ===================================================================== *)
(** * st/croco/cr-stylesheet.c *)
(* ===================================================================== *)

Module CRStyleSheet.

(** [grefcount] of GLib: the count is stored negated; it saturates at
    G_MININT, and a decrement that reaches zero reports it without
    storing the zero. *)
Definition G_MININT : Z := - 2 ^ 31.

Definition g_ref_count_init : Z := -1.

Definition g_ref_count_inc (rc : Z) : Z :=
  if negb (rc <? 0)%Z then rc
  else if (rc =? G_MININT)%Z then rc
  else (rc - 1)%Z.

Definition g_ref_count_dec (rc : Z) : bool * Z :=
  if negb (rc <? 0)%Z then (false, rc)
  else
    let rrc := (rc + 1)%Z in
    if (rrc =? 0)%Z then (true, rc) else (false, rrc).

(** A non-null [gpointer] and a non-null [GDestroyNotify]. *)
Definition gpointer : Type := nat.
Definition GDestroyNotify : Type := nat.

Section WithStatements.

(** A node of a statement list; cr-statement.c is not among the
    sources. *)
Variable CRStatement : Type.

(** [cr_statement_to_string (stmt, 0)]: the string, or NULL. *)
Variable cr_statement_to_string : CRStatement -> option String.string.

(** A [CRStatement *]: the nodes from the one pointed to, following
    [next], and whether that node has a [prev].  NULL has no node. *)
Record CRStatementList : Type := {
  first_has_prev : bool;
  nodes : list CRStatement
}.

Definition no_statement : CRStatementList :=
  {| first_has_prev := false; nodes := [] |}.

Record CRStyleSheetReal : Type := {
  statements : CRStatementList;
  ref_count : Z;
  app_data : option gpointer;
  app_data_destroy_func : option GDestroyNotify
}.

(** What a call does outside the stylesheet. *)
Inductive Effect : Type :=
| StatementDestroy (stmts : list CRStatement)    (* cr_statement_destroy *)
| DestroyNotify (func : GDestroyNotify) (data : gpointer)
| Free.                                          (* g_free (a_this) *)

(** [g_try_malloc0] returns zeroed memory of the size asked for, or NULL;
    [allocated] tells which. *)
Definition cr_stylesheet_new (allocated : bool) (a_stmts : CRStatementList)
  : option CRStyleSheetReal :=
  if negb allocated then None
  else
    Some {| statements :=
              match nodes a_stmts with
              | [] => no_statement
              | _ :: _ => a_stmts
              end;
            ref_count := g_ref_count_init;
            app_data := None;
            app_data_destroy_func := None |}.

Definition blank_line : String.string :=
  String.String (Ascii.ascii_of_nat 10)
    (String.String (Ascii.ascii_of_nat 10) String.EmptyString).

(** The loop of [cr_stylesheet_to_string], from the statement [cur_stmt]
    on; [has_prev] tells whether [cur_stmt->prev] is set. *)
Fixpoint statements_to_string (has_prev : bool) (cur_stmt : list CRStatement)
    (stringue : String.string) : String.string :=
  match cur_stmt with
  | [] => stringue
  | stmt :: next =>
      let stringue :=
        if has_prev then String.append stringue blank_line else stringue in
      let stringue :=
        match cr_statement_to_string stmt with
        | Some str => String.append stringue str
        | None => stringue
        end in
      statements_to_string true next stringue
  end.

Definition cr_stylesheet_to_string (a_this : option CRStyleSheetReal)
  : option String.string :=
  match a_this with
  | None => None
  | Some this =>
      match nodes (statements this) with
      | [] => None
      | _ :: _ =>
          Some (statements_to_string (first_has_prev (statements this))
                  (nodes (statements this)) String.EmptyString)
      end
  end.

Definition cr_stylesheet_ref (a_this : option CRStyleSheetReal)
  : option CRStyleSheetReal :=
  match a_this with
  | None => None
  | Some this =>
      Some {| statements := statements this;
              ref_count := g_ref_count_inc (ref_count this);
              app_data := app_data this;
              app_data_destroy_func := app_data_destroy_func this |}
  end.

(** [cleanup_app_data]: the stylesheet afterwards and the calls made. *)
Definition cleanup_app_data (real : CRStyleSheetReal)
  : CRStyleSheetReal * list Effect :=
  match app_data_destroy_func real with
  | Some func =>
      ({| statements := statements real;
          ref_count := ref_count real;
          app_data := None;
          app_data_destroy_func := None |},
       match app_data real with
       | Some data => [DestroyNotify func data]
       | None => []
       end)
  | None => (real, [])
  end.

(** [cr_stylesheet_destroy]: the calls made, in order; the stylesheet is
    freed. *)
Definition cr_stylesheet_destroy (a_this : option CRStyleSheetReal) : list Effect :=
  match a_this with
  | None => []
  | Some this =>
      match nodes (statements this) with
      | [] => []
      | _ :: _ => [StatementDestroy (nodes (statements this))]
      end
      ++ snd (cleanup_app_data this) ++ [Free]
  end.

(** [cr_stylesheet_unref]: the value returned, the stylesheet if it is
    still allocated, and the calls made. *)
Definition cr_stylesheet_unref (this : CRStyleSheetReal)
  : bool * option CRStyleSheetReal * list Effect :=
  let (zero, rc) := g_ref_count_dec (ref_count this) in
  if zero then (true, None, cr_stylesheet_destroy (Some this))
  else
    (false,
     Some {| statements := statements this;
             ref_count := rc;
             app_data := app_data this;
             app_data_destroy_func := app_data_destroy_func this |},
     []).

Definition cr_stylesheet_set_app_data (a_this : option CRStyleSheetReal)
    (new_app_data : option gpointer)
    (new_app_data_destroy_func : option GDestroyNotify)
  : option CRStyleSheetReal * list Effect :=
  match a_this with
  | None => (None, [])
  | Some this =>
      let (real, effects) := cleanup_app_data this in
      (Some {| statements := statements real;
               ref_count := ref_count real;
               app_data := new_app_data;
               app_data_destroy_func := new_app_data_destroy_func |},
       effects)
  end.

Definition cr_stylesheet_get_app_data (a_this : option CRStyleSheetReal)
  : option gpointer :=
  match a_this with
  | None => None
  | Some this => app_data this
  end.

(** ** Sequences of calls on one stylesheet *)

(** [refs] calls of [cr_stylesheet_ref]. *)
Fixpoint ref_times (refs : nat) (this : CRStyleSheetReal) : option CRStyleSheetReal :=
  match refs with
  | O => Some this
  | S refs =>
      match cr_stylesheet_ref (Some this) with
      | Some this => ref_times refs this
      | None => None
      end
  end.

(** [unrefs] calls of [cr_stylesheet_unref], as long as the stylesheet
    is allocated: the values returned, the stylesheet and the calls made. *)
Fixpoint unref_times (unrefs : nat) (this : CRStyleSheetReal)
  : list bool * option CRStyleSheetReal * list Effect :=
  match unrefs with
  | O => ([], Some this, [])
  | S unrefs =>
      match cr_stylesheet_unref this with
      | (zero, Some this, effects) =>
          let '(returned, final, later) := unref_times unrefs this in
          (zero :: returned, final, effects ++ later)
      | (zero, None, effects) => ([zero], None, effects)
      end
  end.

(** Calls of [cr_stylesheet_set_app_data], in order. *)
Fixpoint set_app_data_all (calls : list (option gpointer * option GDestroyNotify))
    (a_this : option CRStyleSheetReal) : option CRStyleSheetReal * list Effect :=
  match calls with
  | [] => (a_this, [])
  | (data, func) :: calls =>
      let (a_this, effects) := cr_stylesheet_set_app_data a_this data func in
      let (final, later) := set_app_data_all calls a_this in
      (final, effects ++ later)
  end.

(** The data a sequence of calls of [cr_stylesheet_set_app_data] hands
    over with a function to destroy them. *)
Definition handed_over (calls : list (option gpointer * option GDestroyNotify))
  : list Effect :=
  flat_map (fun call =>
              match call with
              | (Some data, Some func) => [DestroyNotify func data]
              | _ => []
              end) calls.

End WithStatements.

Arguments first_has_prev {CRStatement} _.
Arguments nodes {CRStatement} _.
Arguments no_statement {CRStatement}.
Arguments statements {CRStatement} _.
Arguments ref_count {CRStatement} _.
Arguments app_data {CRStatement} _.
Arguments app_data_destroy_func {CRStatement} _.
Arguments StatementDestroy {CRStatement} stmts.
Arguments DestroyNotify {CRStatement} func data.
Arguments Free {CRStatement}.
Arguments cr_stylesheet_new {CRStatement} allocated a_stmts.
Arguments statements_to_string {CRStatement} cr_statement_to_string has_prev cur_stmt stringue.
Arguments cr_stylesheet_to_string {CRStatement} cr_statement_to_string a_this.
Arguments cr_stylesheet_ref {CRStatement} a_this.
Arguments cleanup_app_data {CRStatement} real.
Arguments cr_stylesheet_destroy {CRStatement} a_this.
Arguments cr_stylesheet_unref {CRStatement} this.
Arguments cr_stylesheet_set_app_data {CRStatement} a_this new_app_data
  new_app_data_destroy_func.
Arguments cr_stylesheet_get_app_data {CRStatement} a_this.
Arguments ref_times {CRStatement} refs this.
Arguments unref_times {CRStatement} unrefs this.
Arguments set_app_data_all {CRStatement} calls a_this.
Arguments handed_over {CRStatement} calls.

End CRStyleSheet.

(* ===================================================================== *)
(** * Further notions and sample data *)
(* ===================================================================== *)

(** The displacement from [begin_coords] to [coords] is within a drag
    threshold on both axes. *)
Definition within_drag_threshold (drag_threshold : Z)
    (begin_coords coords : graphene_point_t) : Prop :=
  (Qabs (point_x coords - point_x begin_coords) <= inject_Z drag_threshold)%Q
  /\ (Qabs (point_y coords - point_y begin_coords) <= inject_Z drag_threshold)%Q.

(** The copies a pointer owns, as the list of their allocations. *)
Definition owned_ids (ptr : option Dnd.EventCopy) : list nat :=
  match ptr with
  | Some c => [Dnd.copy_id c]
  | None => []
  end.

(** In a log, every transition to Completed comes from Recognizing and
    directly follows a progress emission. *)
Fixpoint completed_after_progress (log : list Emission) : bool :=
  match log with
  | [] => true
  | StateChanged old_state CLUTTER_GESTURE_STATE_COMPLETED :: older =>
      bool_decide (old_state = CLUTTER_GESTURE_STATE_RECOGNIZING)
      && match older with
         | Progress _ :: _ => true
         | _ => false
         end
      && completed_after_progress older
  | _ :: older => completed_after_progress older
  end.

Module MoreSamples.

Definition mouse_event (type : ClutterEventType) (time : Z) : ClutterEvent :=
  {| event_type := type;
     event_time := time;
     event_device_type := CLUTTER_POINTER_DEVICE |}.

(** A drag-start recognizer with the mouse button down at (100, 100). *)
Definition dnd_button_down : Dnd.ShellDndStartGesture :=
  Samples.dnd_after
    [Dnd.PointBegan 0 (Samples.at_px 100 100) (mouse_event CLUTTER_BUTTON_PRESS 1000)].

(** The same with the pointer updated to a position, before
    [point_moved] runs. *)
Definition dnd_pointer_at (x y time : Z) : Dnd.ShellDndStartGesture :=
  Dnd.with_parent
    (update_point 0 (Samples.at_px x y) (mouse_event CLUTTER_MOTION time)
       (Dnd.parent dnd_button_down))
    dnd_button_down.

(** A finger that went down 100ms before the timestamps wrap, with a
    timeout of 500ms, updated to a position 20px away at a time after
    the wrap, before [point_moved] runs. *)
Definition dnd_finger_before_wrap : Dnd.ShellDndStartGesture :=
  Samples.dnd_after
    [Dnd.SetTimeoutThreshold 500;
     Dnd.PointBegan 0 (Samples.at_px 100 100)
       (Samples.touch_event CLUTTER_TOUCH_BEGIN (2 ^ 32 - 100))].

Definition dnd_finger_after_wrap (time : Z) : Dnd.ShellDndStartGesture :=
  Dnd.with_parent
    (update_point 0 (Samples.at_px 120 100)
       (Samples.touch_event CLUTTER_TOUCH_UPDATE time)
       (Dnd.parent dnd_finger_before_wrap))
    dnd_finger_before_wrap.

(** The text of a statement, for the examples: one character. *)
Definition letter (code : nat) : String.string :=
  String.String (Ascii.ascii_of_nat code) String.EmptyString.

End MoreSamples.

(** The number of values of a sequence of assignments that differ from
    the value held when they are assigned. *)
Fixpoint changes {A : Type} `{EqDecision A} (current : A) (values : list A) : nat :=
  match values with
  | [] => 0
  | v :: values => (if decide (current = v) then 0 else 1) + changes v values
  end.

(** A move to [c] of a point that began at [c0] stays in the edge band of
    the monitor [m] and within the cancel threshold. *)
Definition stays_in_band (display : EdgeDrag.MetaDisplay) (side : EdgeDrag.StSide)
    (m : EdgeDrag.MtkRectangle) (c0 c : graphene_point_t) : Prop :=
  EdgeDrag.get_monitor_for_coords display c = Some m
  /\ (edge_distance side m c < 20)%Q
  /\ (forall event, axis_displacement side (moved_point c0 c event) <= 100)%Q.

(** What holds of the log of an edge-drag recognizer: every transition to
    Completed comes from Recognizing, directly after a progress emission,
    and a Completed gesture has emitted progress. *)
Definition edge_log_inv (g : ClutterGesture) : Prop :=
  completed_after_progress (emitted g) = true
  /\ (state g = CLUTTER_GESTURE_STATE_COMPLETED -> progress_values (emitted g) <> []).

(** The inputs that neither start a sequence nor set a property. *)
Definition is_edge_follow_up (i : EdgeDrag.Input) : bool :=
  match i with
  | EdgeDrag.PointMoved _ _ _ | EdgeDrag.PointEnded _ | EdgeDrag.TimeoutFired _ => true
  | _ => false
  end.

Definition is_dnd_follow_up (i : Dnd.Input) : bool :=
  match i with
  | Dnd.PointMoved _ _ _ | Dnd.PointEnded _ | Dnd.StartDrag _ => true
  | _ => false
  end.

(** A stylesheet with another reference count. *)
Definition with_ref_count {CRStatement : Type} (rc : Z)
    (this : CRStyleSheet.CRStyleSheetReal CRStatement)
  : CRStyleSheet.CRStyleSheetReal CRStatement :=
  {| CRStyleSheet.statements := CRStyleSheet.statements this;
     CRStyleSheet.ref_count := rc;
     CRStyleSheet.app_data := CRStyleSheet.app_data this;
     CRStyleSheet.app_data_destroy_func := CRStyleSheet.app_data_destroy_func this |}.

(** The text of a statement in a serialized stylesheet: empty when
    [cr_statement_to_string] returns NULL. *)
Definition statement_text {CRStatement : Type}
    (cr_statement_to_string : CRStatement -> option String.string)
    (stmt : CRStatement) : String.string :=
  match cr_statement_to_string stmt with
  | Some str => str
  | None => String.EmptyString
  end.

(** The number of calls, in a sequence of calls of [st_init], that are
    made while the static is not null. *)
Fixpoint st_init_warnings (calls : list (option StContext.ClutterContext))
    (st_clutter_context : option StContext.ClutterContext) : nat :=
  match calls with
  | [] => 0
  | clutter_context :: calls =>
      match st_clutter_context with
      | Some _ => S (st_init_warnings calls clutter_context)
      | None => st_init_warnings calls clutter_context
      end
  end.

(** The inputs of a stream in which no sequence begins with an event the
    recognizer handles, and no property is set. *)
Definition edge_not_for_us (i : EdgeDrag.Input) : bool :=
  match i with
  | EdgeDrag.PointBegan _ _ event =>
      negb (bool_decide (event_type event = CLUTTER_TOUCH_BEGIN))
  | EdgeDrag.SetSide _ => false
  | _ => true
  end.

Definition dnd_not_for_us (i : Dnd.Input) : bool :=
  match i with
  | Dnd.PointBegan _ _ event =>
      negb (bool_decide (event_type event = CLUTTER_BUTTON_PRESS))
      && negb (bool_decide (event_type event = CLUTTER_TOUCH_BEGIN))
  | Dnd.SetManualMode _ | Dnd.SetTimeoutThreshold _ => false
  | _ => true
  end.

(** What follows the begin of a point at [c0] while the drag goes on, the
    point being at [cur]: moves of the point on the monitor [m] that are
    measured within 100px of [c0] and do not go beyond 80px from the edge,
    and cancel timeouts that fire while the point is out of the edge
    band. *)
Fixpoint drag_goes_on (display : EdgeDrag.MetaDisplay) (side : EdgeDrag.StSide)
    (m : EdgeDrag.MtkRectangle) (point : nat) (c0 cur : graphene_point_t)
    (inputs : list EdgeDrag.Input) : Prop :=
  match inputs with
  | [] => True
  | EdgeDrag.PointMoved moved c event :: inputs =>
      moved = point
      /\ EdgeDrag.get_monitor_for_coords display c = Some m
      /\ (measured_displacement side (moved_point c0 c event) <= 100)%Q
      /\ (edge_distance side m c <= 80)%Q
      /\ drag_goes_on display side m point c0 c inputs
  | EdgeDrag.TimeoutFired _ :: inputs =>
      (20 <= edge_distance side m cur)%Q
      /\ drag_goes_on display side m point c0 cur inputs
  | _ => False
  end.

(** The recognizer tracks one point, which began at [c0] and is at
    [cur], and the gesture is in progress. *)
Definition edge_dragging (point : nat) (c0 cur : graphene_point_t)
    (side : EdgeDrag.StSide) (self : EdgeDrag.ShellEdgeDragGesture) : Prop :=
  edge_inv self
  /\ is_terminal (state (EdgeDrag.parent self)) = false
  /\ EdgeDrag.side self = side
  /\ exists event,
      points (EdgeDrag.parent self) = {[point := moved_point c0 cur event]}.

(** The positions a stream of inputs carries: those of the points that
    begin and of the points that move. *)
Definition positions (inputs : list EdgeDrag.Input) : list graphene_point_t :=
  flat_map (fun i =>
              match i with
              | EdgeDrag.PointBegan _ c _ | EdgeDrag.PointMoved _ c _ => [c]
              | _ => []
              end) inputs.

(** The begin and the current coordinates of every tracked point are
    among [cs]. *)
Definition points_from (cs : list graphene_point_t) (g : ClutterGesture) : Prop :=
  forall point p,
    points g !! point = Some p -> begin_coords_abs p ∈ cs /\ coords_abs p ∈ cs.

(* ===================================================================== *)
(** * Properties *)
(* ===================================================================== *)

(** ** Comparisons and the framework *)

(** Closed comparisons of numbers. *)
Ltac by_computation :=
  vm_compute; first [reflexivity | discriminate | congruence].

(** Pushes [inject_Z] to the variables, so that [lra] sees the sums. *)
Ltac push_inject_Z :=
  unfold Z.sub; rewrite ?inject_Z_plus, ?inject_Z_opp;
  repeat match goal with
         | |- context [inject_Z (Zpos ?p)] =>
             change (inject_Z (Zpos p)) with (Zpos p # 1)%Q
         end.

Lemma Qltb_true (a b : Q) : Qltb a b = true <-> (a < b)%Q.
Proof.
  unfold Qltb. rewrite negb_true_iff, <- not_true_iff_false, Qle_bool_iff.
  split; [apply Qnot_le_lt | apply Qlt_not_le].
Qed.

Lemma Qltb_false (a b : Q) : Qltb a b = false <-> (b <= a)%Q.
Proof.
  unfold Qltb. rewrite negb_false_iff. apply Qle_bool_iff.
Qed.

(** ** Single-precision rounding

    Rounding is monotone and odd, and keeps the integers the code compares
    with. *)

Lemma round_half_even_bounds (q : Q) :
  (Qfloor q <= round_half_even q <= Qfloor q + 1)%Z.
Proof. unfold round_half_even. repeat case_match; lia. Qed.

Lemma round_half_even_Z (n : Z) : round_half_even (inject_Z n) = n.
Proof.
  unfold round_half_even. rewrite Qfloor_Z.
  replace (Qltb (inject_Z n - inject_Z n) (1 # 2)) with true; [done |].
  symmetry. apply Qltb_true. lra.
Qed.

Lemma round_half_even_le (q q' : Q) :
  (q <= q')%Q -> (round_half_even q <= round_half_even q')%Z.
Proof.
  intros Hle.
  pose proof (Qfloor_resp_le _ _ Hle) as Hfloor.
  pose proof (round_half_even_bounds q). pose proof (round_half_even_bounds q').
  destruct (decide (Qfloor q = Qfloor q')) as [Hsame | Hless]; [| lia].
  unfold round_half_even. rewrite <- Hsame.
  destruct (Qltb (q - inject_Z (Qfloor q)) (1 # 2)) eqn:Hq.
  { repeat case_match; lia. }
  apply Qltb_false in Hq.
  replace (Qltb (q' - inject_Z (Qfloor q)) (1 # 2)) with false
    by (symmetry; apply Qltb_false; lra).
  destruct (Qltb (1 # 2) (q - inject_Z (Qfloor q))) eqn:Hq'.
  { apply Qltb_true in Hq'.
    replace (Qltb (1 # 2) (q' - inject_Z (Qfloor q))) with true
      by (symmetry; apply Qltb_true; lra).
    lia. }
  repeat case_match; lia.
Qed.

Lemma inject_Z_pow2_pos (e : Z) : (0 < inject_Z (2 ^ e))%Q \/ (e < 0)%Z.
Proof.
  destruct (Z.le_gt_cases 0 e) as [He | He]; [left | right; lia].
  change 0%Q with (inject_Z 0). rewrite <- Zlt_Qlt. by apply Z.pow_pos_nonneg.
Qed.

Lemma float32_exponent_nonneg (scaled : Q) : (0 <= float32_exponent scaled)%Z.
Proof. unfold float32_exponent. lia. Qed.

Lemma float32_exponent_le (s s' : Q) :
  (s <= s')%Q -> (float32_exponent s <= float32_exponent s')%Z.
Proof.
  intros Hle. unfold float32_exponent.
  pose proof (Z.log2_le_mono _ _ (Qfloor_resp_le _ _ Hle)). lia.
Qed.

(** Below the next power of two. *)
Lemma float32_exponent_upper (s : Q) :
  (s < inject_Z (2 ^ (float32_exponent s + 24)))%Q.
Proof.
  pose proof (float32_exponent_nonneg s) as He.
  assert (Hfloor : (Qfloor s + 1 <= 2 ^ (float32_exponent s + 24))%Z).
  { unfold float32_exponent in *.
    destruct (Z.lt_ge_cases 0 (Qfloor s)) as [Hpos | Hneg].
    - pose proof (Z.log2_spec _ Hpos) as [_ Hupper].
      assert (2 ^ Z.succ (Z.log2 (Qfloor s))
              <= 2 ^ (Z.max 0 (Z.log2 (Qfloor s) - 23) + 24))%Z
        by (apply Z.pow_le_mono_r; lia).
      lia.
    - assert (0 < 2 ^ (Z.max 0 (Z.log2 (Qfloor s) - 23) + 24))%Z
        by (apply Z.pow_pos_nonneg; lia).
      lia. }
  eapply Qlt_le_trans; [apply Qlt_floor |].
  by rewrite <- Zle_Qle.
Qed.

Lemma float32_exponent_lower (s : Q) :
  (0 < float32_exponent s)%Z -> (inject_Z (2 ^ (float32_exponent s + 23)) <= s)%Q.
Proof.
  unfold float32_exponent. intros He.
  assert (Hpos : (0 < Qfloor s)%Z).
  { destruct (Z.lt_ge_cases 0 (Qfloor s)) as [| Hneg]; [done |].
    rewrite (Z.log2_nonpos _ Hneg) in He. lia. }
  pose proof (Z.log2_spec _ Hpos) as [Hlower _].
  replace (Z.max 0 (Z.log2 (Qfloor s) - 23) + 23)%Z with (Z.log2 (Qfloor s)) by lia.
  eapply Qle_trans; [| apply Qfloor_le]. by rewrite <- Zle_Qle.
Qed.

Lemma float32_significand_le (s s' : Q) :
  (s <= s')%Q -> (float32_significand s <= float32_significand s')%Z.
Proof.
  intros Hle. unfold float32_significand.
  pose proof (float32_exponent_le _ _ Hle) as He.
  pose proof (float32_exponent_nonneg s) as Hnonneg.
  set (e := float32_exponent s) in *. set (e' := float32_exponent s') in *.
  assert (Hpow : forall k, (0 <= k)%Z -> (0 < inject_Z (2 ^ k))%Q).
  { intros k Hk. destruct (inject_Z_pow2_pos k); [done | lia]. }
  destruct (decide (e = e')) as [<- | Hless].
  - apply Z.mul_le_mono_nonneg_r; [apply Z.pow_nonneg; lia |].
    apply round_half_even_le.
    apply Qmult_le_compat_r; [done |].
    apply Qlt_le_weak, Qinv_lt_0_compat, Hpow. lia.
  - assert (Hupper : (round_half_even (s / inject_Z (2 ^ e)) <= 2 ^ 24)%Z).
    { rewrite <- (round_half_even_Z (2 ^ 24)). apply round_half_even_le.
      apply Qle_shift_div_r; [apply Hpow; lia |].
      rewrite <- inject_Z_mult, <- Z.pow_add_r by lia.
      apply Qlt_le_weak. rewrite Z.add_comm. apply float32_exponent_upper. }
    assert (Hlower : (2 ^ 23 <= round_half_even (s' / inject_Z (2 ^ e')))%Z).
    { rewrite <- (round_half_even_Z (2 ^ 23)) at 1. apply round_half_even_le.
      apply Qle_shift_div_l; [apply Hpow; lia |].
      rewrite <- inject_Z_mult, <- Z.pow_add_r by lia.
      rewrite Z.add_comm. apply float32_exponent_lower. fold e'. lia. }
    assert (0 < 2 ^ e)%Z by (apply Z.pow_pos_nonneg; lia).
    assert (0 < 2 ^ e')%Z by (apply Z.pow_pos_nonneg; lia).
    assert (2 ^ 24 * 2 ^ e <= 2 ^ 23 * 2 ^ e')%Z.
    { rewrite <- !Z.pow_add_r by lia. apply Z.pow_le_mono_r; lia. }
    nia.
Qed.

Lemma float32_of_magnitude_le (a b : Q) :
  (a <= b)%Q -> (float32_of_magnitude a <= float32_of_magnitude b)%Q.
Proof.
  intros Hle. unfold float32_of_magnitude. rewrite !Qred_correct.
  apply Qmult_le_compat_r; [| done].
  rewrite <- Zle_Qle. apply float32_significand_le.
  by apply Qmult_le_compat_r.
Qed.

Lemma float32_of_magnitude_0 : float32_of_magnitude 0 = 0%Q.
Proof. reflexivity. Qed.

Lemma float32_of_magnitude_nonneg (a : Q) :
  (0 <= a)%Q -> (0 <= float32_of_magnitude a)%Q.
Proof.
  intros Ha. rewrite <- float32_of_magnitude_0 at 1.
  by apply float32_of_magnitude_le.
Qed.

Lemma float32_le (x y : Q) : (x <= y)%Q -> (float32 x <= float32 y)%Q.
Proof.
  intros Hle. unfold float32.
  destruct (Qltb x 0) eqn:Hx, (Qltb y 0) eqn:Hy;
    first [apply Qltb_true in Hx | apply Qltb_false in Hx];
    first [apply Qltb_true in Hy | apply Qltb_false in Hy].
  - apply Qopp_le_compat, float32_of_magnitude_le. lra.
  - pose proof (float32_of_magnitude_nonneg (- x) ltac:(lra)).
    pose proof (float32_of_magnitude_nonneg y Hy). lra.
  - lra.
  - by apply float32_of_magnitude_le.
Qed.

Lemma float32_opp (x : Q) : (float32 (- x) == - float32 x)%Q.
Proof.
  assert (Hinvolutive : (- - x)%Q = x).
  { destruct x as [n d]. unfold Qopp. simpl. by rewrite Z.opp_involutive. }
  unfold float32.
  destruct (Qltb x 0) eqn:Hx, (Qltb (- x) 0) eqn:Hx';
    first [apply Qltb_true in Hx | apply Qltb_false in Hx];
    first [apply Qltb_true in Hx' | apply Qltb_false in Hx'].
  - lra.
  - lra.
  - by rewrite Hinvolutive.
  - assert (float32_of_magnitude x <= 0)%Q.
    { rewrite <- float32_of_magnitude_0. apply float32_of_magnitude_le. lra. }
    assert (float32_of_magnitude (- x) <= 0)%Q.
    { rewrite <- float32_of_magnitude_0. apply float32_of_magnitude_le. lra. }
    pose proof (float32_of_magnitude_nonneg x Hx).
    pose proof (float32_of_magnitude_nonneg (- x) Hx'). lra.
Qed.

(** A single-precision result is within a bound that is itself a float
    when the exact result is. *)
Lemma float32_abs_le (x bound : Q) :
  (Qabs x <= bound)%Q -> (Qabs (float32 x) <= float32 bound)%Q.
Proof.
  intros [Hlower Hupper]%Qabs_Qle_condition. apply Qabs_Qle_condition.
  split.
  - rewrite <- float32_opp. by apply float32_le.
  - by apply float32_le.
Qed.

Lemma float32_abs_ge (x bound : Q) :
  (bound <= Qabs x)%Q -> (float32 bound <= Qabs (float32 x))%Q.
Proof.
  intros Hbound.
  destruct (Qlt_le_dec x 0) as [Hneg | Hpos].
  - rewrite Qabs_neg in Hbound by lra.
    eapply Qle_trans; [apply (float32_le _ _ Hbound) |].
    rewrite float32_opp. rewrite <- Qabs_opp. apply Qle_Qabs.
  - rewrite Qabs_pos in Hbound by done.
    eapply Qle_trans; [apply (float32_le _ _ Hbound) |]. apply Qle_Qabs.
Qed.

Lemma float_of_int_le (i j : Z) : (i <= j)%Z -> (float_of_int i <= float_of_int j)%Q.
Proof. intros Hle. apply float32_le. by rewrite <- Zle_Qle. Qed.

Lemma float32_100 : float32 100 = 100%Q.
Proof. reflexivity. Qed.

Lemma float32_60 : float32 60 = 60%Q.
Proof. reflexivity. Qed.

Lemma float32_0 : float32 0 = 0%Q.
Proof. reflexivity. Qed.


Lemma valid_transition_cancelled (s : ClutterGestureState) :
  valid_transition s CLUTTER_GESTURE_STATE_CANCELLED = negb (is_terminal s).
Proof. by destruct s. Qed.

Lemma valid_transition_completed (s : ClutterGestureState) :
  valid_transition s CLUTTER_GESTURE_STATE_COMPLETED = negb (is_terminal s).
Proof. by destruct s. Qed.

Lemma valid_transition_from_terminal (s s' : ClutterGestureState) :
  is_terminal s = true -> valid_transition s s' = false.
Proof. by destruct s, s'. Qed.

Lemma valid_transition_live (s s' : ClutterGestureState) :
  valid_transition s s' = true -> is_terminal s = false.
Proof. by destruct s, s'. Qed.

Lemma dnd_state_changed_parent old_state new_state self :
  Dnd.parent (Dnd.state_changed old_state new_state self) = Dnd.parent self.
Proof. unfold Dnd.state_changed. by case_match. Qed.

Lemma dnd_set_state_parent new_state (self : Dnd.ShellDndStartGesture) :
  Dnd.parent (clutter_gesture_set_state new_state self)
  = transition new_state (Dnd.parent self).
Proof.
  unfold clutter_gesture_set_state, transition; simpl.
  case_match; [| done]. by rewrite dnd_state_changed_parent.
Qed.

Lemma edge_state_changed_parent old_state new_state self :
  EdgeDrag.parent (EdgeDrag.state_changed old_state new_state self)
  = EdgeDrag.parent self.
Proof. unfold EdgeDrag.state_changed. by case_match. Qed.

Lemma edge_set_state_parent new_state (self : EdgeDrag.ShellEdgeDragGesture) :
  EdgeDrag.parent (clutter_gesture_set_state new_state self)
  = transition new_state (EdgeDrag.parent self).
Proof.
  unfold clutter_gesture_set_state, transition; simpl.
  case_match; [| done]. by rewrite edge_state_changed_parent.
Qed.

Lemma transition_state new_state g :
  state (transition new_state g)
  = if valid_transition (state g) new_state then new_state else state g.
Proof. unfold transition. by case_match. Qed.

Lemma transition_points new_state g :
  points (transition new_state g) = points g.
Proof. unfold transition. by case_match. Qed.

Lemma transition_cancelled_live g :
  is_terminal (state g) = false ->
  state (transition CLUTTER_GESTURE_STATE_CANCELLED g)
  = CLUTTER_GESTURE_STATE_CANCELLED.
Proof.
  intros Hlive. by rewrite transition_state, valid_transition_cancelled, Hlive.
Qed.

(** ** A second point cancels *)

(** C3. In both recognizers, when [point_began] runs for a point while
    another point is still active (the gesture has more than one point)
    and the gesture is in progress, the callback moves the gesture to
    Cancelled, and does nothing else. *)
Theorem second_point_cancels
    (drag_threshold scale_factor : Z) (display : EdgeDrag.MetaDisplay)
    (point : nat)
    (dnd : Dnd.ShellDndStartGesture) (edge : EdgeDrag.ShellEdgeDragGesture)
    (Hdnd_points : (1 < clutter_gesture_get_n_points (Dnd.parent dnd))%nat)
    (Hdnd_live : is_terminal (state (Dnd.parent dnd)) = false)
    (Hedge_points : (1 < clutter_gesture_get_n_points (EdgeDrag.parent edge))%nat)
    (Hedge_live : is_terminal (state (EdgeDrag.parent edge)) = false) :
  (exists dnd',
      Dnd.point_began drag_threshold scale_factor point dnd = Ok dnd'
      /\ dnd' = clutter_gesture_set_state CLUTTER_GESTURE_STATE_CANCELLED dnd
      /\ state (Dnd.parent dnd') = CLUTTER_GESTURE_STATE_CANCELLED)
  /\ (exists edge',
         EdgeDrag.point_began display point edge = Ok edge'
         /\ edge' = clutter_gesture_set_state CLUTTER_GESTURE_STATE_CANCELLED edge
         /\ state (EdgeDrag.parent edge') = CLUTTER_GESTURE_STATE_CANCELLED).
Proof.
  split.
  - eexists. unfold Dnd.point_began.
    apply Nat.ltb_lt in Hdnd_points. rewrite Hdnd_points.
    split; [reflexivity |]. split; [reflexivity |].
    rewrite dnd_set_state_parent. by apply transition_cancelled_live.
  - eexists. unfold EdgeDrag.point_began.
    apply Nat.ltb_lt in Hedge_points. rewrite Hedge_points. simpl.
    split; [reflexivity |]. split; [reflexivity |].
    rewrite edge_set_state_parent. by apply transition_cancelled_live.
Qed.

Lemma second_point_cancels_witness :
  (exists dnd',
      Dnd.point_began 8 1 1 Samples.dnd_second_finger = Ok dnd'
      /\ dnd' = clutter_gesture_set_state CLUTTER_GESTURE_STATE_CANCELLED
                  Samples.dnd_second_finger
      /\ state (Dnd.parent dnd') = CLUTTER_GESTURE_STATE_CANCELLED)
  /\ (exists edge',
         EdgeDrag.point_began Samples.one_monitor_display 1 Samples.edge_second_finger
         = Ok edge'
         /\ edge' = clutter_gesture_set_state CLUTTER_GESTURE_STATE_CANCELLED
                      Samples.edge_second_finger
         /\ state (EdgeDrag.parent edge') = CLUTTER_GESTURE_STATE_CANCELLED).
Proof.
  apply (second_point_cancels 8 1 Samples.one_monitor_display 1
           Samples.dnd_second_finger Samples.edge_second_finger).
  - vm_compute. lia.
  - reflexivity.
  - vm_compute. lia.
  - reflexivity.
Defined.

(** ** Manual mode of the drag-start recognizer *)

Lemma dnd_point_moved_manual drag_threshold scale_factor point self :
  Dnd.manual_mode self = true ->
  Dnd.point_moved drag_threshold scale_factor point self = Ok self.
Proof. intros Hmanual. unfold Dnd.point_moved. by rewrite Hmanual. Qed.

Lemma update_point_lookup point coords event g :
  is_Some (points g !! point) ->
  points (update_point point coords event g) !! point
  = Some {| begin_coords_abs :=
              match points g !! point with
              | Some p => begin_coords_abs p
              | None => coords
              end;
            coords_abs := coords;
            point_event := event |}.
Proof.
  intros [p Hp]. unfold update_point. simpl.
  rewrite lookup_alter_eq, Hp. done.
Qed.

(** Moves do nothing to a drag-start recognizer that is in manual mode or
    that ignores the drag threshold. *)
Lemma dnd_moves_inert drag_threshold scale_factor inputs : forall self,
  Dnd.manual_mode self = true \/ Dnd.drag_threshold_ignored self = true ->
  forallb is_dnd_point_moved inputs = true ->
  exists self',
    Dnd.run drag_threshold scale_factor inputs self = Ok self'
    /\ state (Dnd.parent self') = state (Dnd.parent self)
    /\ emitted (Dnd.parent self') = emitted (Dnd.parent self)
    /\ Dnd.manual_mode self' = Dnd.manual_mode self
    /\ Dnd.drag_threshold_ignored self' = Dnd.drag_threshold_ignored self
    /\ Dnd.event_store self' = Dnd.event_store self
    /\ clutter_gesture_get_n_points (Dnd.parent self')
       = clutter_gesture_get_n_points (Dnd.parent self).
Proof.
  induction inputs as [| i inputs IH]; intros self Hinert Hmoves.
  - by exists self.
  - simpl in Hmoves. apply andb_true_iff in Hmoves as [Hi Hmoves].
    destruct i as [| point coords event | | | |]; try discriminate.
    simpl. case_bool_decide as Hpoint; simpl; [| by apply IH].
    set (self1 := Dnd.with_parent _ self).
    assert (Hmoved :
      Dnd.point_moved drag_threshold scale_factor point self1 = Ok self1).
    { unfold Dnd.point_moved. case_match; [| done].
      unfold Dnd.maybe_start_drag, clutter_gesture_get_point.
      subst self1. cbn [Dnd.parent Dnd.with_parent].
      rewrite update_point_lookup by done.
      cbn [rbind Dnd.drag_threshold_ignored Dnd.manual_mode Dnd.with_parent] in *.
      destruct Hinert as [Hmanual | Hignored]; [| by rewrite Hignored].
      by rewrite Hmanual in *. }
    rewrite Hmoved. simpl.
    destruct (IH self1) as (self' & Hrun & ? & ? & ? & ? & ? & Hn); [done | done |].
    exists self'. repeat split; try done. rewrite Hn.
    subst self1. unfold clutter_gesture_get_n_points, update_point. simpl.
    destruct Hpoint as [p Hp].
    rewrite <- (insert_id (points (Dnd.parent self)) point p Hp) at 2.
    rewrite <- (insert_id (points (Dnd.parent self)) point p Hp) at 1.
    rewrite alter_insert_eq. by rewrite !map_size_insert_Some by (by rewrite Hp).
Qed.

Lemma dnd_start_drag_completes start_event self :
  clutter_gesture_get_n_points (Dnd.parent self) = 1%nat ->
  state (Dnd.parent self) = CLUTTER_GESTURE_STATE_POSSIBLE ->
  state (Dnd.parent (Dnd.shell_dnd_start_gesture_start_drag start_event self))
  = CLUTTER_GESTURE_STATE_COMPLETED.
Proof.
  intros Hn Hstate. unfold Dnd.shell_dnd_start_gesture_start_drag.
  rewrite Hn. simpl. rewrite bool_decide_eq_true_2 by done.
  rewrite dnd_set_state_parent, transition_state.
  by destruct start_event; simpl; rewrite Hstate.
Qed.

(** C4. With [manual_mode] set: no sequence of point-moved callbacks
    changes the state of the gesture, so none completes it;
    [start_drag] with exactly one active point and the state Possible moves
    the gesture to Completed; [start_drag] with another number of points or
    in another state returns the recognizer as it was. *)
Theorem manual_mode_only_start_drag_completes
    (drag_threshold scale_factor : Z) (self : Dnd.ShellDndStartGesture)
    (Hmanual : Dnd.manual_mode self = true) :
  (forall point, Dnd.point_moved drag_threshold scale_factor point self = Ok self)
  /\ (forall inputs,
         forallb is_dnd_point_moved inputs = true ->
         exists self',
           Dnd.run drag_threshold scale_factor inputs self = Ok self'
           /\ state (Dnd.parent self') = state (Dnd.parent self))
  /\ (forall start_event,
         clutter_gesture_get_n_points (Dnd.parent self) = 1%nat ->
         state (Dnd.parent self) = CLUTTER_GESTURE_STATE_POSSIBLE ->
         state (Dnd.parent (Dnd.shell_dnd_start_gesture_start_drag start_event self))
         = CLUTTER_GESTURE_STATE_COMPLETED)
  /\ (forall start_event,
         clutter_gesture_get_n_points (Dnd.parent self) <> 1%nat
         \/ state (Dnd.parent self) <> CLUTTER_GESTURE_STATE_POSSIBLE ->
         Dnd.shell_dnd_start_gesture_start_drag start_event self = self).
Proof.
  repeat split.
  - intros point. by apply dnd_point_moved_manual.
  - intros inputs Hmoves.
    destruct (dnd_moves_inert drag_threshold scale_factor inputs self
                (or_introl Hmanual) Hmoves) as (self' & Hrun & Hstate & _).
    by exists self'.
  - intros start_event Hn Hstate. by apply dnd_start_drag_completes.
  - intros start_event [Hn | Hstate]; unfold Dnd.shell_dnd_start_gesture_start_drag.
    + apply Nat.eqb_neq in Hn. by rewrite Hn.
    + rewrite (bool_decide_eq_false_2 _ Hstate). by case_match.
Qed.

Lemma manual_mode_only_start_drag_completes_witness :
  state (Dnd.parent (Dnd.shell_dnd_start_gesture_start_drag None
                       Samples.dnd_manual_one_point))
  = CLUTTER_GESTURE_STATE_COMPLETED.
Proof.
  apply (manual_mode_only_start_drag_completes 8 1 Samples.dnd_manual_one_point).
  - vm_compute. reflexivity.
  - vm_compute. reflexivity.
  - vm_compute. reflexivity.
Defined.

(** ** The side of the edge-drag recognizer *)

Lemma StSide_of_to_int (s : EdgeDrag.StSide) :
  EdgeDrag.StSide_of_int (EdgeDrag.StSide_to_int s) = Some s.
Proof. by destruct s. Qed.

Lemma StSide_of_int_Some (z : Z) (s : EdgeDrag.StSide) :
  EdgeDrag.StSide_of_int z = Some s -> z = EdgeDrag.StSide_to_int s.
Proof.
  unfold EdgeDrag.StSide_of_int.
  repeat (case_match; [intros [= <-]; simpl; lia |]). done.
Qed.

Lemma StSide_of_int_None (z : Z) :
  EdgeDrag.StSide_of_int z = None <-> (z < 0 \/ 3 < z)%Z.
Proof.
  unfold EdgeDrag.StSide_of_int.
  repeat (case_match; [split; [done | lia] |]). split; [lia | done].
Qed.

(** C9. The setter of [side]: a value that is none of the four sides
    leaves the recognizer as it was, so the side is kept and nothing is
    notified; a value that is a side is stored and the change of "side" is
    notified, whether or not the side was already that one. *)
Theorem set_side_rejects_or_notifies
    (self : EdgeDrag.ShellEdgeDragGesture) (new_side : Z) :
  (EdgeDrag.StSide_of_int new_side = None ->
   EdgeDrag.shell_edge_drag_gesture_set_side new_side self = self)
  /\ (forall s,
         EdgeDrag.StSide_of_int new_side = Some s ->
         let self' := EdgeDrag.shell_edge_drag_gesture_set_side new_side self in
         EdgeDrag.side self' = s
         /\ emitted (EdgeDrag.parent self')
            = Notify PROP_SIDE :: emitted (EdgeDrag.parent self)
         /\ state (EdgeDrag.parent self') = state (EdgeDrag.parent self)
         /\ EdgeDrag.cancel_timeout_id self' = EdgeDrag.cancel_timeout_id self)
  /\ emitted (EdgeDrag.parent
                (EdgeDrag.shell_edge_drag_gesture_set_side
                   (EdgeDrag.StSide_to_int (EdgeDrag.side self)) self))
     = Notify PROP_SIDE :: emitted (EdgeDrag.parent self).
Proof.
  unfold EdgeDrag.shell_edge_drag_gesture_set_side.
  split; [| split].
  - intros Hnone. rewrite Hnone. by case_match.
  - intros s Hsome. rewrite Hsome.
    apply StSide_of_int_Some in Hsome as ->.
    by destruct s.
  - rewrite StSide_of_to_int. by destruct (EdgeDrag.side self).
Qed.

Lemma set_side_rejects_or_notifies_witness :
  EdgeDrag.shell_edge_drag_gesture_set_side 4 EdgeDrag.shell_edge_drag_gesture_init
  = EdgeDrag.shell_edge_drag_gesture_init
  /\ EdgeDrag.side
       (EdgeDrag.shell_edge_drag_gesture_set_side 3
          EdgeDrag.shell_edge_drag_gesture_init)
     = EdgeDrag.ST_SIDE_LEFT.
Proof.
  split.
  - apply (set_side_rejects_or_notifies EdgeDrag.shell_edge_drag_gesture_init 4).
    reflexivity.
  - apply (set_side_rejects_or_notifies EdgeDrag.shell_edge_drag_gesture_init 3
             ).
    reflexivity.
Defined.

(** ** The geometry of the edge-drag recognizer *)

Section EdgeGeometry.

Variable display : EdgeDrag.MetaDisplay.

Lemma get_point_Some (g : ClutterGesture) point p :
  points g !! point = Some p -> clutter_gesture_get_point g point = Ok p.
Proof. intros Hp. unfold clutter_gesture_get_point. by rewrite Hp. Qed.

(** The edge band of the code is the positions less than 20px inside the
    edge. *)
Lemma is_near_monitor_edge_spec self point p m :
  points (EdgeDrag.parent self) !! point = Some p ->
  EdgeDrag.get_monitor_for_coords display (coords_abs p) = Some m ->
  EdgeDrag.is_near_monitor_edge display self point
  = Ok (Qltb (edge_distance (EdgeDrag.side self) m (coords_abs p)) 20).
Proof.
  intros Hp Hm. unfold EdgeDrag.is_near_monitor_edge.
  rewrite (get_point_Some _ _ _ Hp). simpl. rewrite Hm. f_equal.
  apply eq_true_iff_eq. unfold edge_distance, EdgeDrag.EDGE_THRESHOLD.
  destruct (EdgeDrag.side self); rewrite !Qltb_true; push_inject_Z;
    split; intros H; lra.
Qed.

Lemma exceeds_cancel_threshold_spec self point p :
  points (EdgeDrag.parent self) !! point = Some p ->
  EdgeDrag.exceeds_cancel_threshold self point
  = Ok (Qltb 100 (measured_displacement (EdgeDrag.side self) p)).
Proof.
  intros Hp. unfold EdgeDrag.exceeds_cancel_threshold.
  rewrite (get_point_Some _ _ _ Hp). simpl.
  by destruct (EdgeDrag.side self).
Qed.

Lemma passes_distance_needed_spec self point p m :
  points (EdgeDrag.parent self) !! point = Some p ->
  EdgeDrag.get_monitor_for_coords display (begin_coords_abs p) = Some m ->
  EdgeDrag.passes_distance_needed display self point
  = Ok (Qltb 80 (edge_distance (EdgeDrag.side self) m (coords_abs p))).
Proof.
  intros Hp Hm. unfold EdgeDrag.passes_distance_needed.
  rewrite (get_point_Some _ _ _ Hp). simpl. rewrite Hm. f_equal.
  apply eq_true_iff_eq. unfold edge_distance, EdgeDrag.DRAG_DISTANCE.
  destruct (EdgeDrag.side self); rewrite !Qltb_true; push_inject_Z;
    split; intros H; lra.
Qed.

End EdgeGeometry.

(** ** Transitions of the edge-drag recognizer *)

Lemma edge_set_state_terminal new_state (self : EdgeDrag.ShellEdgeDragGesture) :
  is_terminal new_state = true ->
  valid_transition (state (EdgeDrag.parent self)) new_state = true ->
  clutter_gesture_set_state new_state self
  = {| EdgeDrag.parent := transition new_state (EdgeDrag.parent self);
       EdgeDrag.side := EdgeDrag.side self;
       EdgeDrag.cancel_timeout_point := EdgeDrag.cancel_timeout_point self;
       EdgeDrag.cancel_timeout_id := 0;
       EdgeDrag.main_context :=
         EdgeDrag.g_clear_handle_id (EdgeDrag.cancel_timeout_id self)
           (EdgeDrag.main_context self) |}.
Proof.
  intros Hterminal Hvalid. unfold clutter_gesture_set_state. simpl.
  rewrite Hvalid. unfold EdgeDrag.state_changed.
  by destruct new_state.
Qed.

Lemma edge_set_state_recognizing (self : EdgeDrag.ShellEdgeDragGesture) :
  clutter_gesture_set_state CLUTTER_GESTURE_STATE_RECOGNIZING self
  = EdgeDrag.with_parent
      (transition CLUTTER_GESTURE_STATE_RECOGNIZING (EdgeDrag.parent self)) self.
Proof.
  unfold clutter_gesture_set_state, transition. simpl.
  case_match; [done |]. by destruct self.
Qed.

Lemma set_state_invalid {G : Type} `{GestureClass G} new_state (self : G) :
  valid_transition (state (gesture self)) new_state = false ->
  clutter_gesture_set_state new_state self = self.
Proof. intros Hinvalid. unfold clutter_gesture_set_state. by rewrite Hinvalid. Qed.

Lemma transition_progress_values new_state g :
  progress_values (emitted (transition new_state g)) = progress_values (emitted g).
Proof. unfold transition. by case_match. Qed.

Lemma clear_handle_sources self :
  timer_consistent self ->
  EdgeDrag.sources
    (EdgeDrag.g_clear_handle_id (EdgeDrag.cancel_timeout_id self)
       (EdgeDrag.main_context self)) = ∅.
Proof.
  unfold timer_consistent, EdgeDrag.g_clear_handle_id. intros Hsources.
  destruct (EdgeDrag.cancel_timeout_id self =? 0)%nat; [done |].
  simpl. rewrite Hsources. apply delete_singleton_eq.
Qed.

(** C5. A touch that begins more than 20px inside the configured edge of
    the monitor it is resolved to: [point_began] moves the gesture, which
    is in progress, to Cancelled; no timeout is scheduled (the main loop
    only loses the source of the stored id, if there was one), and the
    stored id is 0. *)
Theorem began_outside_band_cancels
    (display : EdgeDrag.MetaDisplay) (self : EdgeDrag.ShellEdgeDragGesture)
    (point : nat) (p : GesturePoint) (m : EdgeDrag.MtkRectangle)
    (Hp : points (EdgeDrag.parent self) !! point = Some p)
    (Hbegin : coords_abs p = begin_coords_abs p)
    (Hm : EdgeDrag.get_monitor_for_coords display (begin_coords_abs p) = Some m)
    (Hfar : (20 < edge_distance (EdgeDrag.side self) m (begin_coords_abs p))%Q)
    (Hlive : is_terminal (state (EdgeDrag.parent self)) = false) :
  exists self',
    EdgeDrag.point_began display point self = Ok self'
    /\ state (EdgeDrag.parent self') = CLUTTER_GESTURE_STATE_CANCELLED
    /\ EdgeDrag.cancel_timeout_id self' = 0%nat
    /\ EdgeDrag.main_context self'
       = EdgeDrag.g_clear_handle_id (EdgeDrag.cancel_timeout_id self)
           (EdgeDrag.main_context self)
    /\ (timer_consistent self ->
        EdgeDrag.sources (EdgeDrag.main_context self') = ∅).
Proof.
  assert (Hcancel :
    (let! cancel :=
       (if (1 <? clutter_gesture_get_n_points (EdgeDrag.parent self))%nat
        then Ok true
        else let! near := EdgeDrag.is_near_monitor_edge display self point in
             Ok (negb near)) in
     Ok cancel) = Ok true).
  { case_match; [done |].
    rewrite <- Hbegin in Hm, Hfar.
    rewrite (is_near_monitor_edge_spec display self point p m Hp Hm). simpl.
    replace (Qltb _ _) with false; [done |].
    symmetry. apply Qltb_false. lra. }
  eexists. unfold EdgeDrag.point_began.
  destruct (if (1 <? _)%nat then _ else _) as [cancel | e];
    simpl in Hcancel; [| discriminate].
  injection Hcancel as ->. simpl.
  split; [reflexivity |].
  rewrite edge_set_state_terminal
    by (try done; by rewrite valid_transition_cancelled, Hlive).
  simpl. split; [by apply transition_cancelled_live |].
  split; [done |]. split; [done |]. apply clear_handle_sources.
Qed.

Lemma began_outside_band_cancels_witness :
  exists self',
    EdgeDrag.point_began Samples.one_monitor_display 0 (Samples.edge_registered 300)
    = Ok self'
    /\ state (EdgeDrag.parent self') = CLUTTER_GESTURE_STATE_CANCELLED
    /\ EdgeDrag.cancel_timeout_id self' = 0%nat
    /\ EdgeDrag.main_context self'
       = EdgeDrag.g_clear_handle_id
           (EdgeDrag.cancel_timeout_id (Samples.edge_registered 300))
           (EdgeDrag.main_context (Samples.edge_registered 300))
    /\ (timer_consistent (Samples.edge_registered 300) ->
        EdgeDrag.sources (EdgeDrag.main_context self') = ∅).
Proof.
  apply (began_outside_band_cancels Samples.one_monitor_display
           (Samples.edge_registered 300) 0
           {| begin_coords_abs := Samples.at_px 500 300;
              coords_abs := Samples.at_px 500 300;
              point_event := Samples.touch_event CLUTTER_TOUCH_BEGIN 1000 |}
           Samples.one_monitor).
  - vm_compute. reflexivity.
  - reflexivity.
  - vm_compute. reflexivity.
  - vm_compute. reflexivity.
  - reflexivity.
Defined.

(** C6, the part the code does not do: the displacement the code compares
    with 100 is the single-precision difference of the coordinates, which
    can be 100 when the exact displacement is above 100.  A finger that
    went down at y = 10.3f on the top edge and moves to y = 110.3f is
    displaced by more than 100px; the move does not cancel the gesture,
    which emits a progress of 100 and completes. *)
Lemma overshoot_rounded_to_threshold_completes :
  ~ overshoot_always_cancels.
Proof.
  intros Hclaim.
  destruct (Hclaim Samples.one_monitor_display Samples.edge_rounded_overshoot
              (match EdgeDrag.point_moved Samples.one_monitor_display 0
                       Samples.edge_rounded_overshoot with
               | Ok self' => self'
               | Err _ => Samples.edge_rounded_overshoot
               end)
              0%nat
              {| begin_coords_abs := {| point_x := 500; point_y := Samples.float_10_3 |};
                 coords_abs := {| point_x := 500; point_y := Samples.float_110_3 |};
                 point_event := Samples.touch_event CLUTTER_TOUCH_UPDATE 1050 |})
    as [Hcancelled _].
  - vm_compute. reflexivity.
  - vm_compute. reflexivity.
  - vm_compute. reflexivity.
  - vm_compute. reflexivity.
  - vm_compute in Hcancelled. discriminate.
Qed.

(** C6, as the code has it.  A point whose displacement from where it
    began, measured on the axis of the configured side as the
    single-precision difference of the coordinates, is above 100:
    [point_moved] only requests Cancelled.  The gesture, if in progress,
    is Cancelled; a finished gesture is left as it was; no progress is
    emitted on that move. *)
Theorem overshoot_cancels
    (display : EdgeDrag.MetaDisplay) (self : EdgeDrag.ShellEdgeDragGesture)
    (point : nat) (p : GesturePoint)
    (Hp : points (EdgeDrag.parent self) !! point = Some p)
    (Hover : (100 < measured_displacement (EdgeDrag.side self) p)%Q) :
  exists self',
    EdgeDrag.point_moved display point self = Ok self'
    /\ self' = clutter_gesture_set_state CLUTTER_GESTURE_STATE_CANCELLED self
    /\ (is_terminal (state (EdgeDrag.parent self)) = false ->
        state (EdgeDrag.parent self') = CLUTTER_GESTURE_STATE_CANCELLED
        /\ emitted (EdgeDrag.parent self')
           = StateChanged (state (EdgeDrag.parent self))
               CLUTTER_GESTURE_STATE_CANCELLED
             :: emitted (EdgeDrag.parent self))
    /\ (is_terminal (state (EdgeDrag.parent self)) = true -> self' = self)
    /\ progress_values (emitted (EdgeDrag.parent self'))
       = progress_values (emitted (EdgeDrag.parent self)).
Proof.
  eexists. unfold EdgeDrag.point_moved.
  rewrite (exceeds_cancel_threshold_spec self point p Hp). simpl.
  apply Qltb_true in Hover. rewrite Hover.
  split; [reflexivity |]. split; [reflexivity |].
  rewrite edge_set_state_parent. split; [| split].
  - intros Hlive. split; [by apply transition_cancelled_live |].
    unfold transition. by rewrite valid_transition_cancelled, Hlive.
  - intros Hterminal. apply set_state_invalid.
    by apply valid_transition_from_terminal.
  - apply transition_progress_values.
Qed.

Lemma overshoot_cancels_witness :
  exists self',
    EdgeDrag.point_moved Samples.one_monitor_display 0 Samples.edge_overshooting
    = Ok self'
    /\ state (EdgeDrag.parent self') = CLUTTER_GESTURE_STATE_CANCELLED.
Proof.
  destruct (overshoot_cancels Samples.one_monitor_display Samples.edge_overshooting 0
              {| begin_coords_abs := Samples.at_px 500 10;
                 coords_abs := Samples.at_px 500 130;
                 point_event := Samples.touch_event CLUTTER_TOUCH_UPDATE 1050 |})
    as (self' & Hmoved & _ & Hlive & _).
  - vm_compute. reflexivity.
  - vm_compute. reflexivity.
  - exists self'. split; [exact Hmoved |]. apply Hlive. reflexivity.
Defined.

(** ** Touch drags before the timeout *)

Lemma measured_beyond_drag_threshold_true drag_threshold begin_coords coords :
  measured_beyond_drag_threshold drag_threshold begin_coords coords ->
  Qltb (float_of_int drag_threshold)
    (Qabs (float_sub (point_x coords) (point_x begin_coords)))
  || Qltb (float_of_int drag_threshold)
       (Qabs (float_sub (point_y coords) (point_y begin_coords)))
  = true.
Proof.
  intros Hexceeds. apply orb_true_iff. by rewrite !Qltb_true.
Qed.

(** C1, the part the code does not do: the sentence of the specification
    fails on a finger that is 20px away 100ms after it went down and 30px
    away one second after it went down, with a threshold of 8px and a
    timeout of 500ms.  The gesture is still Possible after the late move. *)
Lemma touch_drag_never_completes_on_later_move :
  ~ touch_drag_completes_on_later_move.
Proof.
  intros Hclaim.
  destruct (Hclaim 8%Z 1%Z 500%Z 0%nat
              (Samples.at_px 100 100) (Samples.at_px 120 100) (Samples.at_px 130 100)
              (Samples.touch_event CLUTTER_TOUCH_BEGIN 1000)
              (Samples.touch_event CLUTTER_TOUCH_UPDATE 1100)
              (Samples.touch_event CLUTTER_TOUCH_UPDATE 2000)
              (Samples.dnd_after (Samples.dnd_touch_setup ++ [Samples.dnd_early_move]))
              (Samples.dnd_after (Samples.dnd_touch_setup
                                  ++ [Samples.dnd_early_move; Samples.dnd_late_move])))
    as [_ Hcompleted].
  - lia.
  - reflexivity.
  - reflexivity.
  - reflexivity.
  - left. vm_compute. reflexivity.
  - left. vm_compute. reflexivity.
  - vm_compute. reflexivity.
  - vm_compute. reflexivity.
  - vm_compute. reflexivity.
  - vm_compute. reflexivity.
  - vm_compute in Hcompleted. discriminate.
Qed.

(** C1, as the code has it.  Automatic mode, a touch device, the gesture
    Possible and the threshold not ignored yet: on a move beyond the scaled
    drag threshold, as the code measures it (the single-precision
    difference of the coordinates, compared with the threshold converted
    to [float]), made no later than the timeout after the point began, the
    gesture does not complete; the recognizer only sets
    [drag_threshold_ignored].  From then on no sequence of moves changes
    the state of the gesture, however late they come; [start_drag] still
    completes it while the point is the only one. *)
Theorem touch_drag_before_timeout_is_ignored
    (drag_threshold scale_factor : Z) (self : Dnd.ShellDndStartGesture)
    (point : nat) (p : GesturePoint)
    (Hp : points (Dnd.parent self) !! point = Some p)
    (Hauto : Dnd.manual_mode self = false)
    (Hpossible : state (Dnd.parent self) = CLUTTER_GESTURE_STATE_POSSIBLE)
    (Hchecked : Dnd.drag_threshold_ignored self = false)
    (Htouch : event_device_type (point_event p) = CLUTTER_TOUCHSCREEN_DEVICE)
    (Hexceeds : measured_beyond_drag_threshold (drag_threshold * scale_factor)
                  (begin_coords_abs p) (coords_abs p))
    (Hearly : (guint32 (event_time (point_event p)
                        - Dnd.clutter_event_get_time (Dnd.point_begin_event self))
               <= Dnd.timeout_threshold_ms self)%Z) :
  Dnd.point_moved drag_threshold scale_factor point self
  = Ok (Dnd.set_drag_threshold_ignored true self)
  /\ state (Dnd.parent (Dnd.set_drag_threshold_ignored true self))
     = CLUTTER_GESTURE_STATE_POSSIBLE
  /\ forall inputs,
       forallb is_dnd_point_moved inputs = true ->
       exists self',
         Dnd.run drag_threshold scale_factor inputs
           (Dnd.set_drag_threshold_ignored true self) = Ok self'
         /\ state (Dnd.parent self') = CLUTTER_GESTURE_STATE_POSSIBLE
         /\ Dnd.drag_threshold_ignored self' = true
         /\ (clutter_gesture_get_n_points (Dnd.parent self) = 1%nat ->
             forall start_event,
               state (Dnd.parent
                        (Dnd.shell_dnd_start_gesture_start_drag start_event self'))
               = CLUTTER_GESTURE_STATE_COMPLETED).
Proof.
  split; [| split; [done |]].
  - unfold Dnd.point_moved. rewrite Hauto, Hpossible. simpl.
    unfold Dnd.maybe_start_drag. rewrite (get_point_Some _ _ _ Hp).
    cbn [rbind]. rewrite Hchecked.
    rewrite (measured_beyond_drag_threshold_true _ _ _ Hexceeds).
    rewrite Htouch. simpl.
    apply Z.ltb_ge in Hearly. by rewrite Hearly.
  - intros inputs Hmoves.
    destruct (dnd_moves_inert drag_threshold scale_factor inputs
                (Dnd.set_drag_threshold_ignored true self))
      as (self' & Hrun & Hstate & _ & _ & Hignored & _ & Hn); [by right | done |].
    exists self'. rewrite Hrun, Hstate, Hignored. repeat split; try done.
    intros Hone start_event. apply dnd_start_drag_completes; [| by rewrite Hstate].
    by rewrite Hn.
Qed.

Lemma touch_drag_before_timeout_is_ignored_witness :
  Dnd.point_moved 8 1 0 Samples.dnd_early_moving
  = Ok (Dnd.set_drag_threshold_ignored true Samples.dnd_early_moving).
Proof.
  apply (touch_drag_before_timeout_is_ignored 8 1 Samples.dnd_early_moving 0%nat
           {| begin_coords_abs := Samples.at_px 100 100;
              coords_abs := Samples.at_px 120 100;
              point_event := Samples.touch_event CLUTTER_TOUCH_UPDATE 1100 |}).
  - vm_compute. reflexivity.
  - reflexivity.
  - reflexivity.
  - reflexivity.
  - reflexivity.
  - left. vm_compute. reflexivity.
  - vm_compute. discriminate.
Defined.

(** ** What a move of the edge-drag recognizer can do *)

Lemma edge_point_moved_inv display point self self' :
  EdgeDrag.point_moved display point self = Ok self' ->
  exists p,
    points (EdgeDrag.parent self) !! point = Some p
    /\ (((100 < measured_displacement (EdgeDrag.side self) p)%Q
         /\ self' = clutter_gesture_set_state CLUTTER_GESTURE_STATE_CANCELLED self)
        \/ ((measured_displacement (EdgeDrag.side self) p <= 100)%Q
            /\ exists self1,
                (self1 = self
                 \/ self1 = clutter_gesture_set_state
                              CLUTTER_GESTURE_STATE_RECOGNIZING self)
                /\ (self' = self1
                    \/ (state (EdgeDrag.parent self1)
                        = CLUTTER_GESTURE_STATE_RECOGNIZING
                        /\ let self2 :=
                             edge_emit_progress
                               (measured_displacement (EdgeDrag.side self) p) self1 in
                           self' = self2
                           \/ self' = clutter_gesture_set_state
                                        CLUTTER_GESTURE_STATE_COMPLETED self2)))).
Proof.
  intros H. unfold EdgeDrag.point_moved in H.
  destruct (points (EdgeDrag.parent self) !! point) as [p |] eqn:Hp.
  2: { unfold EdgeDrag.exceeds_cancel_threshold, clutter_gesture_get_point in H.
       by rewrite Hp in H. }
  exists p. split; [done |].
  rewrite (exceeds_cancel_threshold_spec self point p Hp) in H. cbn [rbind] in H.
  destruct (Qltb 100 _) eqn:Hd.
  { left. apply Qltb_true in Hd. by injection H as <-. }
  right. apply Qltb_false in Hd. split; [done |].
  destruct (if bool_decide (state (EdgeDrag.parent self) = _) then _ else _)
    as [self1 |] eqn:H1; cbn [rbind] in H; [| done].
  exists self1.
  assert (Hself1 : self1 = self
                   \/ self1 = clutter_gesture_set_state
                                CLUTTER_GESTURE_STATE_RECOGNIZING self).
  { clear H. case_bool_decide; [| left; congruence].
    destruct (EdgeDrag.is_near_monitor_edge display self point) as [near |];
      cbn [rbind] in H1; [| done].
    destruct near; simpl in H1; injection H1 as <-; auto. }
  split; [done |].
  case_bool_decide as Hrecognizing; [| left; congruence].
  right. split; [done |].
  assert (Hp1 : points (EdgeDrag.parent self1) !! point = Some p).
  { destruct Hself1 as [-> | ->]; [done |].
    by rewrite edge_set_state_parent, transition_points. }
  assert (Hside : EdgeDrag.side self1 = EdgeDrag.side self).
  { destruct Hself1 as [-> | ->]; [done |]. by rewrite edge_set_state_recognizing. }
  rewrite (get_point_Some _ _ _ Hp1) in H. cbn [rbind] in H.
  unfold graphene_point_distance in H.
  assert (Hemit :
    match EdgeDrag.side self1 with
    | EdgeDrag.ST_SIDE_TOP | EdgeDrag.ST_SIDE_BOTTOM =>
        EdgeDrag.with_parent
          (emit (Progress (Qabs (float_sub (point_y (coords_abs p))
                                   (point_y (begin_coords_abs p)))))
             (EdgeDrag.parent self1)) self1
    | _ =>
        EdgeDrag.with_parent
          (emit (Progress (Qabs (float_sub (point_x (coords_abs p))
                                   (point_x (begin_coords_abs p)))))
             (EdgeDrag.parent self1)) self1
    end
    = edge_emit_progress (measured_displacement (EdgeDrag.side self) p) self1).
  { rewrite Hside. unfold edge_emit_progress, measured_displacement.
    by destruct (EdgeDrag.side self). }
  rewrite Hemit in H.
  destruct (EdgeDrag.passes_distance_needed display _ point) as [passes |];
    cbn [rbind] in H; [| done].
  destruct passes; injection H as <-; auto.
Qed.

Lemma edge_point_began_inv display point self self' :
  EdgeDrag.point_began display point self = Ok self' ->
  self' = clutter_gesture_set_state CLUTTER_GESTURE_STATE_CANCELLED self
  \/ ((clutter_gesture_get_n_points (EdgeDrag.parent self) <= 1)%nat
      /\ EdgeDrag.cancel_timeout_id self = 0%nat
      /\ self' = edge_arm_timeout point self).
Proof.
  intros H. unfold EdgeDrag.point_began in H.
  destruct (1 <? _)%nat eqn:Hn; cbn [rbind] in H.
  { left. by injection H as <-. }
  apply Nat.ltb_ge in Hn.
  destruct (EdgeDrag.is_near_monitor_edge display self point) as [near |];
    cbn [rbind] in H; [| done].
  destruct near; cbn [negb] in H; [| left; by injection H as <-].
  destruct (EdgeDrag.cancel_timeout_id self =? 0)%nat eqn:Hid; [| done].
  apply Nat.eqb_eq in Hid. right. by injection H as <-.
Qed.

Lemma edge_main_dispatch_inv display id self self' :
  EdgeDrag.g_main_dispatch display id self = Ok self' ->
  self' = self
  \/ (is_Some (EdgeDrag.sources (EdgeDrag.main_context self) !! id)
      /\ exists self1,
          (self1 = self
           \/ self1 = clutter_gesture_set_state
                        CLUTTER_GESTURE_STATE_CANCELLED self)
          /\ self' = edge_source_removed id (EdgeDrag.set_cancel_timeout_id 0 self1)).
Proof.
  intros H. unfold EdgeDrag.g_main_dispatch in H.
  destruct (EdgeDrag.sources (EdgeDrag.main_context self) !! id) eqn:Hid;
    [| left; by injection H as <-].
  right. split; [done |].
  unfold EdgeDrag.on_cancel_timeout in H.
  destruct (EdgeDrag.is_near_monitor_edge display self _) as [near |];
    cbn [rbind] in H; [| done].
  injection H as <-. destruct near; eauto.
Qed.

(** ** The values of the progress emissions *)

Lemma edge_dispatch_progress display i self self' :
  EdgeDrag.dispatch display i self = Ok self' ->
  exists new,
    progress_values (emitted (EdgeDrag.parent self'))
    = new ++ progress_values (emitted (EdgeDrag.parent self))
    /\ Forall (fun v => (v <= 100)%Q) new.
Proof.
  intros H. destruct i as [point coords event | point coords event | point | id | s];
    simpl in H.
  - case_match; [| exists []; by injection H as <-].
    apply edge_point_began_inv in H as [-> | (_ & _ & ->)]; exists []; split; try done.
    + rewrite edge_set_state_parent, transition_progress_values. simpl.
      by case_match.
    + simpl. by case_match.
  - case_bool_decide; [| exists []; by injection H as <-].
    apply edge_point_moved_inv in H
      as (p & Hp & [[_ ->] | (Hd & self1 & Hself1 & Hself')]).
    + exists []. split; [| done].
      by rewrite edge_set_state_parent, transition_progress_values.
    + assert (Hlog1 : progress_values (emitted (EdgeDrag.parent self1))
                      = progress_values (emitted (EdgeDrag.parent self))).
      { destruct Hself1 as [-> | ->]; [done |].
        by rewrite edge_set_state_parent, transition_progress_values. }
      destruct Hself' as [-> | (_ & [-> | ->])].
      * by exists [].
      * exists [measured_displacement (EdgeDrag.side self) p]. simpl in *.
        split; [by rewrite Hlog1 | by constructor].
      * exists [measured_displacement (EdgeDrag.side self) p].
        rewrite edge_set_state_parent, transition_progress_values. simpl in *.
        split; [by rewrite Hlog1 | by constructor].
  - case_bool_decide; injection H as <-; exists []; split; try done.
    unfold EdgeDrag.point_ended. simpl.
    by rewrite edge_set_state_parent, transition_progress_values.
  - apply edge_main_dispatch_inv in H as [-> | (_ & self1 & [-> | ->] & ->)];
      exists []; split; try done.
    simpl. by rewrite edge_set_state_parent, transition_progress_values.
  - injection H as <-. exists []. split; [| done].
    unfold EdgeDrag.shell_edge_drag_gesture_set_side.
    repeat case_match; done.
Qed.

(** C10. In every run of the edge-drag recognizer, whatever the events,
    every value carried by a progress emission is at most 100: a move
    emits at most one value, and only after the check of the cancel
    threshold, on the same displacement, did not cancel. *)
Theorem progress_at_most_cancel_threshold
    (display : EdgeDrag.MetaDisplay) (inputs : list EdgeDrag.Input)
    (self' : EdgeDrag.ShellEdgeDragGesture)
    (Hrun : EdgeDrag.run display inputs EdgeDrag.shell_edge_drag_gesture_init
            = Ok self') :
  Forall (fun v => (v <= 100)%Q)
    (progress_values (emitted (EdgeDrag.parent self'))).
Proof.
  assert (Hgen : forall inputs self self',
    Forall (fun v => (v <= 100)%Q) (progress_values (emitted (EdgeDrag.parent self))) ->
    EdgeDrag.run display inputs self = Ok self' ->
    Forall (fun v => (v <= 100)%Q) (progress_values (emitted (EdgeDrag.parent self')))).
  { clear. induction inputs as [| i inputs IH]; intros self self' Hlog Hrun.
    - by injection Hrun as <-.
    - simpl in Hrun.
      destruct (EdgeDrag.dispatch display i self) as [self1 |] eqn:Hstep;
        cbn [rbind] in Hrun; [| done].
      apply edge_dispatch_progress in Hstep as (new & Hnew & Hbound).
      apply (IH self1 self'); [| done].
      rewrite Hnew. by apply Forall_app. }
  apply (Hgen inputs EdgeDrag.shell_edge_drag_gesture_init self'); [| done].
  constructor.
Qed.

Lemma progress_at_most_cancel_threshold_witness :
  Forall (fun v => (v <= 100)%Q)
    (progress_values (emitted (EdgeDrag.parent Samples.edge_finger_moved))).
Proof.
  apply (progress_at_most_cancel_threshold Samples.one_monitor_display
           [EdgeDrag.PointBegan 0 (Samples.at_px 500 10)
              (Samples.touch_event CLUTTER_TOUCH_BEGIN 1000);
            EdgeDrag.PointMoved 0 (Samples.at_px 500 50)
              (Samples.touch_event CLUTTER_TOUCH_UPDATE 1050)]).
  vm_compute. reflexivity.
Defined.

(** ** Inward drags *)

(** C2, the part the code does not do: the sentence of the specification
    fails on a finger that goes down 19px below the top edge and is then
    81px and 99px below the edge.  The finger moved inward by 80px and was
    never displaced by more than 100px; the gesture completes on the first
    move, and the last progress emitted before the completion is 62. *)
Lemma inward_drag_final_progress_below_80 :
  ~ inward_drag_completes_with_progress_80.
Proof.
  intros Hclaim.
  destruct (Hclaim Samples.one_monitor_display EdgeDrag.ST_SIDE_TOP 0%nat
              (Samples.at_px 500 19) (Samples.touch_event CLUTTER_TOUCH_BEGIN 1000)
              Samples.edge_short_drag Samples.one_monitor
              Samples.edge_after_short_drag)
    as [_ (older & v & rest & Holder & Hvalues & Hv)].
  - reflexivity.
  - intros c _. reflexivity.
  - split; by_computation.
  - apply Exists_cons_tl, Exists_cons_hd. by_computation.
  - repeat constructor; by_computation.
  - vm_compute. reflexivity.
  - vm_compute in Holder. injection Holder as <-.
    vm_compute in Hvalues. injection Hvalues as <- <-.
    vm_compute in Hv. by apply Hv.
Qed.

Lemma edge_point_moved_eq display self point p m0 mc :
  points (EdgeDrag.parent self) !! point = Some p ->
  EdgeDrag.get_monitor_for_coords display (begin_coords_abs p) = Some m0 ->
  EdgeDrag.get_monitor_for_coords display (coords_abs p) = Some mc ->
  EdgeDrag.point_moved display point self = Ok (edge_moved m0 mc p self).
Proof.
  intros Hp Hm0 Hmc. unfold EdgeDrag.point_moved, edge_moved. cbv zeta.
  rewrite (exceeds_cancel_threshold_spec self point p Hp). cbn [rbind].
  destruct (Qltb 100 _); [done |].
  set (self1 := if _ && _ then _ else self).
  assert (Hself1 :
    (if bool_decide (state (EdgeDrag.parent self) = CLUTTER_GESTURE_STATE_POSSIBLE)
     then
       let! near := EdgeDrag.is_near_monitor_edge display self point in
       if negb near
       then Ok (clutter_gesture_set_state CLUTTER_GESTURE_STATE_RECOGNIZING self)
       else Ok self
     else Ok self) = Ok self1).
  { subst self1. case_bool_decide; [| done].
    rewrite (is_near_monitor_edge_spec display self point p mc Hp Hmc).
    cbn [rbind andb]. by case_match. }
  rewrite Hself1. cbn [rbind].
  assert (Hp1 : points (EdgeDrag.parent self1) !! point = Some p).
  { subst self1. destruct (_ && _); [| done].
    by rewrite edge_set_state_parent, transition_points. }
  assert (Hside : EdgeDrag.side self1 = EdgeDrag.side self).
  { subst self1. destruct (_ && _); [| done].
    by rewrite edge_set_state_recognizing. }
  clear Hself1. clearbody self1. case_bool_decide; [| done].
  rewrite (get_point_Some _ _ _ Hp1). cbn [rbind].
  unfold graphene_point_distance.
  set (self2 := match EdgeDrag.side self1 with
                | EdgeDrag.ST_SIDE_TOP | EdgeDrag.ST_SIDE_BOTTOM => _
                | _ => _
                end).
  assert (Hself2 : self2 = edge_emit_progress
                             (measured_displacement (EdgeDrag.side self) p) self1).
  { subst self2. rewrite Hside. unfold edge_emit_progress, measured_displacement.
    by destruct (EdgeDrag.side self). }
  rewrite Hself2.
  rewrite (passes_distance_needed_spec display _ point p m0); [| done | done].
  cbn [rbind]. unfold edge_emit_progress at 1. cbn [EdgeDrag.side EdgeDrag.with_parent].
  rewrite Hside. by case_match.
Qed.

Lemma edge_dispatch_moved display self point c e p m0 mc :
  points (EdgeDrag.parent self) !! point = Some p ->
  EdgeDrag.get_monitor_for_coords display (begin_coords_abs p) = Some m0 ->
  EdgeDrag.get_monitor_for_coords display c = Some mc ->
  EdgeDrag.dispatch display (EdgeDrag.PointMoved point c e) self
  = Ok (edge_moved m0 mc (moved_point (begin_coords_abs p) c e)
          (EdgeDrag.with_parent (update_point point c e (EdgeDrag.parent self)) self)).
Proof.
  intros Hp Hm0 Hmc. simpl.
  rewrite bool_decide_eq_true_2 by (by rewrite Hp).
  apply edge_point_moved_eq; [| done | done].
  cbn [EdgeDrag.parent EdgeDrag.with_parent].
  rewrite update_point_lookup by (by rewrite Hp). by rewrite Hp.
Qed.

Lemma edge_moved_completes m p self :
  is_terminal (state (EdgeDrag.parent self)) = false ->
  (measured_displacement (EdgeDrag.side self) p <= 100)%Q ->
  (80 < edge_distance (EdgeDrag.side self) m (coords_abs p))%Q ->
  exists older,
    state (EdgeDrag.parent (edge_moved m m p self)) = CLUTTER_GESTURE_STATE_COMPLETED
    /\ emitted (EdgeDrag.parent (edge_moved m m p self))
       = StateChanged CLUTTER_GESTURE_STATE_RECOGNIZING CLUTTER_GESTURE_STATE_COMPLETED
         :: Progress (measured_displacement (EdgeDrag.side self) p) :: older.
Proof.
  intros Hlive Hd Hpasses. unfold edge_moved.
  apply Qltb_false in Hd. rewrite Hd.
  assert (Hnear : Qltb (edge_distance (EdgeDrag.side self) m (coords_abs p)) 20 = false)
    by (apply Qltb_false; lra).
  apply Qltb_true in Hpasses. rewrite Hnear, Hpasses. cbn [negb]. cbv zeta.
  set (self1 := if _ && true then _ else self).
  assert (Hrecognizing :
    state (EdgeDrag.parent self1) = CLUTTER_GESTURE_STATE_RECOGNIZING).
  { subst self1. case_bool_decide as Hstate; cbn [andb].
    - by rewrite edge_set_state_parent, transition_state, Hstate.
    - by destruct (state (EdgeDrag.parent self)). }
  clearbody self1. rewrite bool_decide_eq_true_2 by done.
  exists (emitted (EdgeDrag.parent self1)).
  rewrite edge_set_state_parent. unfold edge_emit_progress, transition.
  cbn [EdgeDrag.parent EdgeDrag.with_parent emit state].
  by rewrite Hrecognizing.
Qed.

Lemma edge_moved_continues m p self :
  is_terminal (state (EdgeDrag.parent self)) = false ->
  (measured_displacement (EdgeDrag.side self) p <= 100)%Q ->
  (edge_distance (EdgeDrag.side self) m (coords_abs p) <= 80)%Q ->
  is_terminal (state (EdgeDrag.parent (edge_moved m m p self))) = false
  /\ EdgeDrag.side (edge_moved m m p self) = EdgeDrag.side self
  /\ points (EdgeDrag.parent (edge_moved m m p self)) = points (EdgeDrag.parent self).
Proof.
  intros Hlive Hd Hpasses. unfold edge_moved.
  apply Qltb_false in Hd, Hpasses. rewrite Hd, Hpasses.
  destruct (bool_decide _ && negb _) eqn:Hpromoted.
  - apply andb_true_iff in Hpromoted as [Hpossible%bool_decide_eq_true _].
    rewrite edge_set_state_recognizing. simpl.
    unfold transition. rewrite Hpossible. by simpl.
  - clear Hpromoted. by destruct (bool_decide _).
Qed.

(** Rounding does not take a displacement across 100 or 60, which are
    floats. *)
Lemma measured_displacement_le_100 side p :
  (axis_displacement side p <= 100)%Q -> (measured_displacement side p <= 100)%Q.
Proof.
  unfold axis_displacement, measured_displacement, float_sub. intros Hexact.
  rewrite <- float32_100.
  destruct side; by apply float32_abs_le.
Qed.

Lemma measured_displacement_ge_60 side p :
  (60 <= axis_displacement side p)%Q -> (60 <= measured_displacement side p)%Q.
Proof.
  unfold axis_displacement, measured_displacement, float_sub. intros Hexact.
  rewrite <- float32_60.
  destruct side; by apply float32_abs_ge.
Qed.

Lemma inward_displacement_bound side m c0 c e :
  (edge_distance side m c0 < 20)%Q ->
  (80 < edge_distance side m c)%Q ->
  (60 < axis_displacement side (moved_point c0 c e))%Q.
Proof.
  unfold edge_distance, axis_displacement. intros Hband Hpasses.
  destruct side; cbn [moved_point coords_abs begin_coords_abs];
    apply Qabs_case; intros; lra.
Qed.

(** ** Event copies of the drag-start recognizer *)

Lemma store_consistent_free c st :
  store_consistent (Some c) st ->
  store_consistent None (Dnd.clutter_event_free c st).
Proof.
  intros (Hlive & Hnodup & Hfreed & Hbound). unfold store_consistent; simpl in *.
  rewrite Hlive in Hfreed, Hbound |- *. split; [set_solver |].
  split; [apply NoDup_cons; split; [| done]; rewrite Hfreed; set_solver |].
  split.
  - intros id. rewrite elem_of_cons, Hfreed.
    destruct (decide (id = Dnd.copy_id c)) as [-> |].
    + split; [| by left]. intros _. split; [apply Hbound |]; set_solver.
    + set_solver.
  - set_solver.
Qed.

Lemma store_consistent_clear ptr st :
  store_consistent ptr st ->
  store_consistent None (Dnd.g_clear_pointer ptr st).
Proof.
  destruct ptr as [c |]; [apply store_consistent_free | done].
Qed.

Lemma store_consistent_copy event st :
  store_consistent None st ->
  store_consistent (Some (fst (Dnd.clutter_event_copy event st)))
    (snd (Dnd.clutter_event_copy event st)).
Proof.
  intros (Hlive & Hnodup & Hfreed & Hbound). unfold store_consistent; simpl in *.
  rewrite Hlive in Hfreed, Hbound |- *. split; [set_solver |]. split; [done |]. split.
  - intros id. rewrite Hfreed. split.
    + intros [Hid _]. split; [lia |]. set_solver by lia.
    + intros [Hid Hnew]. split; [| set_solver].
      assert (id <> Dnd.next_copy st) by set_solver. lia.
  - intros id Hid. assert (id = Dnd.next_copy st) by set_solver. lia.
Qed.

(** A copy made and freed at once, as the triggering event is. *)
Lemma store_consistent_copy_free ptr event st :
  store_consistent ptr st ->
  store_consistent ptr
    (Dnd.clutter_event_free (fst (Dnd.clutter_event_copy event st))
       (snd (Dnd.clutter_event_copy event st))).
Proof.
  intros (Hlive & Hnodup & Hfreed & Hbound). unfold store_consistent; simpl in *.
  assert (Hfresh : Dnd.next_copy st ∉ Dnd.live st).
  { intros Hin. apply Hbound in Hin. lia. }
  split; [set_solver |].
  split; [apply NoDup_cons; split; [| done]; rewrite Hfreed; lia |].
  split.
  - intros id. rewrite elem_of_cons, Hfreed.
    destruct (decide (id = Dnd.next_copy st)) as [-> |].
    + split; [| by left]. intros _. split; [lia | set_solver].
    + split.
      * intros [? | [Hid Hnot]]; [done |]. split; [lia | set_solver].
      * intros [Hid Hnot]. right. split; [lia | set_solver].
  - intros id Hid. assert (id ∈ Dnd.live st) as Hin%Hbound by set_solver. lia.
Qed.

(** ** The invariant of the drag-start recognizer *)

Lemma dnd_set_state_terminal new_state (self : Dnd.ShellDndStartGesture) :
  is_terminal new_state = true ->
  valid_transition (state (Dnd.parent self)) new_state = true ->
  clutter_gesture_set_state new_state self
  = {| Dnd.parent := transition new_state (Dnd.parent self);
       Dnd.drag_threshold_ignored := Dnd.drag_threshold_ignored self;
       Dnd.point_begin_event := None;
       Dnd.drag_triggering_event := None;
       Dnd.manual_mode := Dnd.manual_mode self;
       Dnd.timeout_threshold_ms := Dnd.timeout_threshold_ms self;
       Dnd.event_store :=
         Dnd.g_clear_pointer (Dnd.point_begin_event self)
           (Dnd.g_clear_pointer (Dnd.drag_triggering_event self)
              (Dnd.event_store self)) |}.
Proof.
  intros Hterminal Hvalid. unfold clutter_gesture_set_state. simpl.
  rewrite Hvalid. unfold Dnd.state_changed.
  by destruct new_state.
Qed.

Lemma transition_terminal new_state g :
  is_terminal new_state = true ->
  valid_transition (state g) new_state = true ->
  state (transition new_state g) = new_state.
Proof. intros _ Hvalid. by rewrite transition_state, Hvalid. Qed.

Lemma dnd_inv_set_state_terminal new_state self :
  is_terminal new_state = true ->
  dnd_inv self ->
  dnd_inv (clutter_gesture_set_state new_state self).
Proof.
  intros Hterminal (Htrigger & Hstore & Hfinished & Hempty & Hnot).
  destruct (valid_transition (state (Dnd.parent self)) new_state) eqn:Hvalid.
  2: { by rewrite set_state_invalid. }
  rewrite dnd_set_state_terminal by done.
  unfold dnd_inv. simpl. rewrite Htrigger. simpl.
  rewrite transition_terminal by done.
  split; [done |]. split; [by apply store_consistent_clear |].
  split; [done |]. split; [done |]. by destruct new_state.
Qed.

Lemma dnd_inv_start_drag start_event self :
  dnd_inv self ->
  dnd_inv (Dnd.shell_dnd_start_gesture_start_drag start_event self).
Proof.
  intros Hinv. unfold Dnd.shell_dnd_start_gesture_start_drag.
  destruct (negb _); [done |].
  case_bool_decide as Hpossible; [| done].
  destruct start_event as [event |]; [| by apply dnd_inv_set_state_terminal].
  destruct Hinv as (Htrigger & Hstore & Hfinished & Hempty & Hnot).
  rewrite dnd_set_state_terminal by (try done; simpl; by rewrite Hpossible).
  unfold dnd_inv. simpl.
  rewrite transition_terminal by (try done; by rewrite Hpossible).
  split; [done |].
  split; [by apply store_consistent_clear, store_consistent_copy_free |].
  done.
Qed.

Lemma dnd_inv_with_parent g self :
  dnd_inv self ->
  (is_terminal (state g) = true -> Dnd.point_begin_event self = None) ->
  (points g = ∅ -> Dnd.point_begin_event self = None) ->
  state g <> CLUTTER_GESTURE_STATE_RECOGNIZING ->
  dnd_inv (Dnd.with_parent g self).
Proof. intros (Htrigger & Hstore & _) Hfinished Hempty Hnot. by unfold dnd_inv. Qed.

Lemma dnd_maybe_start_drag_inv drag_threshold scale_factor point self self' :
  Dnd.maybe_start_drag drag_threshold scale_factor point self = Ok self' ->
  self' = self
  \/ self' = Dnd.set_drag_threshold_ignored true self
  \/ exists event, self' = Dnd.shell_dnd_start_gesture_start_drag (Some event) self.
Proof.
  unfold Dnd.maybe_start_drag. intros H.
  destruct (clutter_gesture_get_point _ _) as [p |]; cbn [rbind] in H; [| done].
  destruct (Dnd.drag_threshold_ignored self); [left; by injection H as <- |].
  destruct (_ || _); [| left; by injection H as <-].
  destruct (_ || _); injection H as <-; eauto.
Qed.

Lemma dnd_inv_maybe_start_drag drag_threshold scale_factor point self self' :
  dnd_inv self ->
  Dnd.maybe_start_drag drag_threshold scale_factor point self = Ok self' ->
  dnd_inv self'.
Proof.
  intros Hinv [-> | [-> | [event ->]]]%dnd_maybe_start_drag_inv.
  - done.
  - done.
  - by apply dnd_inv_start_drag.
Qed.

Lemma dnd_point_began_inv drag_threshold scale_factor point self self' :
  Dnd.point_began drag_threshold scale_factor point self = Ok self' ->
  self' = clutter_gesture_set_state CLUTTER_GESTURE_STATE_CANCELLED self
  \/ ((clutter_gesture_get_n_points (Dnd.parent self) <= 1)%nat
      /\ exists event,
          self' = dnd_begin_tracking event self
          \/ Dnd.maybe_start_drag drag_threshold scale_factor point
               (dnd_begin_tracking event self) = Ok self').
Proof.
  unfold Dnd.point_began. intros H.
  destruct (1 <? _)%nat eqn:Hn; [left; by injection H as <- |].
  apply Nat.ltb_ge in Hn. right. split; [done |].
  destruct (clutter_gesture_get_point _ _) as [p |]; cbn [rbind] in H; [| done].
  exists (point_event p). unfold dnd_begin_tracking.
  unfold Dnd.clutter_event_copy in *. cbn [fst snd] in *.
  destruct (_ && _); [by right | left; by injection H as <-].
Qed.

Lemma dnd_inv_begin_tracking event self :
  dnd_inv self ->
  Dnd.point_begin_event self = None ->
  points (Dnd.parent self) <> ∅ ->
  is_terminal (state (Dnd.parent self)) = false ->
  dnd_inv (dnd_begin_tracking event self).
Proof.
  intros (Htrigger & Hstore & Hfinished & Hempty & Hnot) Hnone Hpoints Hlive.
  unfold dnd_inv. cbn -[Dnd.clutter_event_copy].
  split; [done |]. rewrite Hnone in Hstore.
  split; [by apply store_consistent_copy |].
  split; [by rewrite Hlive |]. done.
Qed.

Lemma accepted_sequence_live point coords event g :
  is_terminal
    (state (register_point point coords event
              (if is_terminal (state g) then rearm g else g))) = false.
Proof. simpl. by destruct (is_terminal (state g)) eqn:Hstate. Qed.

Lemma accepted_sequence_points point coords event g :
  accepts_sequence point g = true ->
  clutter_gesture_get_n_points
    (register_point point coords event
       (if is_terminal (state g) then rearm g else g))
  = S (size (points g)).
Proof.
  unfold accepts_sequence. intros [Hfresh%bool_decide_eq_true _]%andb_true_iff.
  unfold clutter_gesture_get_n_points.
  replace (points (register_point _ _ _ _))
    with (<[point := moved_point coords coords event]> (points g))
    by (by destruct (is_terminal (state g))).
  by apply map_size_insert_None.
Qed.

Lemma dnd_inv_dispatch drag_threshold scale_factor i self self' :
  dnd_inv self ->
  Dnd.dispatch drag_threshold scale_factor i self = Ok self' ->
  dnd_inv self'.
Proof.
  intros Hinv H.
  destruct i as [point coords event | point coords event | point
                | start_event | b | t]; simpl in H.
  - destruct (Dnd.should_handle_sequence event); cbn [andb] in H;
      [| by injection H as <-].
    destruct (accepts_sequence point (Dnd.parent self)) eqn:Haccepts;
      [| by injection H as <-].
    pose proof (accepted_sequence_live point coords event (Dnd.parent self)) as Hlive.
    pose proof (accepted_sequence_points point coords event _ Haccepts) as Hn.
    set (g := register_point _ _ _ _) in *.
    assert (Hpoints : points g <> ∅).
    { apply map_size_non_empty_iff. unfold clutter_gesture_get_n_points in Hn. lia. }
    assert (Hinv_g : dnd_inv (Dnd.with_parent g self)).
    { apply dnd_inv_with_parent; [done | by rewrite Hlive | done |].
      subst g. simpl. destruct Hinv as (_ & _ & _ & _ & Hnot).
      by destruct (is_terminal (state (Dnd.parent self))). }
    apply dnd_point_began_inv in H as [-> | (Hle & event' & Hbegan)].
    { by apply dnd_inv_set_state_terminal. }
    assert (Hinv_b : dnd_inv (dnd_begin_tracking event' (Dnd.with_parent g self))).
    { apply dnd_inv_begin_tracking; try done.
      destruct Hinv as (_ & _ & _ & Hempty & _). apply Hempty.
      apply map_size_empty_inv. cbn [Dnd.parent Dnd.with_parent] in Hle. lia. }
    destruct Hbegan as [-> | Hbegan]; [done |].
    by eapply dnd_inv_maybe_start_drag.
  - case_bool_decide as Hpoint; [| by injection H as <-].
    assert (Hinv_u : dnd_inv (Dnd.with_parent
                                (update_point point coords event (Dnd.parent self))
                                self)).
    { destruct Hinv as (Htrigger & Hstore & Hfinished & Hempty & Hnot).
      apply dnd_inv_with_parent; try done.
      intros Hnone. pose proof (update_point_lookup point coords event _ Hpoint) as Hp.
      by rewrite Hnone, lookup_empty in Hp. }
    unfold Dnd.point_moved in H.
    destruct (_ && _); [| by injection H as <-].
    by eapply dnd_inv_maybe_start_drag.
  - case_bool_decide as Hpoint; injection H as <-; [| done].
    unfold Dnd.point_ended.
    destruct (bool_decide _ && _) eqn:Hlast.
    + apply andb_true_iff in Hlast as [Hpossible%bool_decide_eq_true _].
      pose proof (dnd_inv_set_state_terminal CLUTTER_GESTURE_STATE_CANCELLED self
                    eq_refl Hinv) as Hinv'.
      rewrite dnd_set_state_terminal in * by (try done; by rewrite Hpossible).
      destruct Hinv' as (Htrigger & Hstore & Hfinished & Hempty & Hnot).
      by apply dnd_inv_with_parent.
    + destruct Hinv as (Htrigger & Hstore & Hfinished & Hempty & Hnot).
      apply dnd_inv_with_parent; try done. simpl. intros Hnone.
      destruct (state (Dnd.parent self)) eqn:Hstate; try done; try by apply Hfinished.
      rewrite bool_decide_eq_true_2 in Hlast by done. cbn [andb] in Hlast.
      apply Nat.eqb_neq in Hlast. exfalso. apply Hlast.
      unfold clutter_gesture_get_n_points.
      pose proof (map_size_delete_Some point (points (Dnd.parent self)) Hpoint) as Hsize.
      rewrite Hnone, map_size_empty in Hsize.
      destruct Hpoint as [p Hp].
      assert (size (points (Dnd.parent self)) <> 0%nat); [| lia].
      apply map_size_non_empty_iff. intros Hempty'.
      by rewrite Hempty', lookup_empty in Hp.
  - injection H as <-. by apply dnd_inv_start_drag.
  - injection H as <-. unfold Dnd.shell_dnd_start_gesture_set_manual_mode.
    by case_bool_decide.
  - injection H as <-. unfold Dnd.shell_dnd_start_gesture_set_timeout_threshold.
    by case_bool_decide.
Qed.

Lemma dnd_inv_init : dnd_inv Dnd.shell_dnd_start_gesture_init.
Proof.
  unfold dnd_inv, store_consistent. simpl.
  repeat split; try done; try apply NoDup_nil_2; set_solver by lia.
Qed.

Lemma dnd_inv_run drag_threshold scale_factor inputs : forall self self',
  dnd_inv self ->
  Dnd.run drag_threshold scale_factor inputs self = Ok self' ->
  dnd_inv self'.
Proof.
  induction inputs as [| i inputs IH]; intros self self' Hinv Hrun.
  - by injection Hrun as <-.
  - simpl in Hrun.
    destruct (Dnd.dispatch drag_threshold scale_factor i self) as [self1 |] eqn:Hstep;
      cbn [rbind] in Hrun; [| done].
    eapply IH; [| done]. by eapply dnd_inv_dispatch.
Qed.

(** ** The invariant of the edge-drag recognizer *)

Lemma edge_inv_idle self :
  edge_inv self ->
  EdgeDrag.cancel_timeout_id self = 0%nat ->
  EdgeDrag.sources (EdgeDrag.main_context self) = ∅.
Proof.
  intros (Htimer & _) Hidle. unfold timer_consistent in Htimer.
  by rewrite Hidle in Htimer.
Qed.

Lemma edge_inv_set_state new_state self :
  edge_inv self ->
  edge_inv (clutter_gesture_set_state new_state self).
Proof.
  intros (Htimer & Hfinished & Hempty & Hwatched).
  destruct (valid_transition (state (EdgeDrag.parent self)) new_state) eqn:Hvalid.
  2: { by rewrite set_state_invalid. }
  destruct (is_terminal new_state) eqn:Hterminal.
  - rewrite edge_set_state_terminal by done.
    unfold edge_inv, timer_consistent. simpl.
    by rewrite clear_handle_sources.
  - assert (new_state = CLUTTER_GESTURE_STATE_RECOGNIZING) as ->
      by (by destruct (state (EdgeDrag.parent self)), new_state).
    rewrite edge_set_state_recognizing.
    unfold edge_inv, timer_consistent. simpl.
    rewrite transition_state, Hvalid, transition_points. done.
Qed.

Lemma edge_inv_with_parent g self :
  edge_inv self ->
  (is_terminal (state g) = true -> EdgeDrag.cancel_timeout_id self = 0%nat) ->
  (EdgeDrag.cancel_timeout_id self <> 0%nat ->
   is_Some (points g !! EdgeDrag.cancel_timeout_point self)) ->
  edge_inv (EdgeDrag.with_parent g self).
Proof.
  intros (Htimer & _) Hfinished Hwatched. unfold edge_inv. simpl.
  repeat split; try done. intros Hnone.
  destruct (decide (EdgeDrag.cancel_timeout_id self = 0%nat)) as [| Hid]; [done |].
  apply Hwatched in Hid as [p Hp]. by rewrite Hnone, lookup_empty in Hp.
Qed.

Lemma edge_inv_arm_timeout point self :
  edge_inv self ->
  EdgeDrag.cancel_timeout_id self = 0%nat ->
  is_terminal (state (EdgeDrag.parent self)) = false ->
  is_Some (points (EdgeDrag.parent self) !! point) ->
  edge_inv (edge_arm_timeout point self).
Proof.
  intros Hinv Hidle Hlive [p Hp].
  unfold edge_inv, timer_consistent. simpl.
  rewrite (edge_inv_idle self Hinv Hidle), insert_empty, Hlive.
  repeat split; try done. intros Hnone. by rewrite Hnone, lookup_empty in Hp.
Qed.

Lemma edge_inv_timeout_done id self :
  edge_inv self ->
  (EdgeDrag.cancel_timeout_id self = 0%nat \/ EdgeDrag.cancel_timeout_id self = id) ->
  edge_inv (edge_source_removed id (EdgeDrag.set_cancel_timeout_id 0 self)).
Proof.
  intros (Htimer & _) Hid. unfold edge_inv, timer_consistent in *. simpl.
  split; [| done]. rewrite Htimer.
  destruct Hid as [-> | <-]; simpl; [apply delete_empty |].
  destruct (_ =? 0)%nat; [apply delete_empty | apply delete_singleton_eq].
Qed.

Lemma edge_inv_dispatch display i self self' :
  edge_inv self ->
  EdgeDrag.dispatch display i self = Ok self' ->
  edge_inv self'.
Proof.
  intros Hinv H.
  destruct i as [point coords event | point coords event | point | id | s];
    simpl in H.
  - destruct (EdgeDrag.should_handle_sequence event); cbn [andb] in H;
      [| by injection H as <-].
    destruct (accepts_sequence point (EdgeDrag.parent self)) eqn:Haccepts;
      [| by injection H as <-].
    pose proof (accepted_sequence_live point coords event (EdgeDrag.parent self))
      as Hlive.
    pose proof (accepted_sequence_points point coords event _ Haccepts) as Hn.
    set (g := register_point _ _ _ _) in *.
    assert (Hpoints : points g <> ∅).
    { apply map_size_non_empty_iff. unfold clutter_gesture_get_n_points in Hn. lia. }
    assert (Hinv_g : edge_inv (EdgeDrag.with_parent g self)).
    { apply edge_inv_with_parent; [done | by rewrite Hlive |].
      intros Hid. destruct Hinv as (_ & _ & _ & Hwatched).
      apply Hwatched in Hid as [p Hp]. exists p.
      subst g. cbn [points register_point].
      replace (points (if is_terminal (state (EdgeDrag.parent self))
                       then rearm (EdgeDrag.parent self) else EdgeDrag.parent self))
        with (points (EdgeDrag.parent self)) by (by case_match).
      rewrite lookup_insert_ne; [done |].
      intros Hsame. unfold accepts_sequence in Haccepts.
      apply andb_true_iff in Haccepts as [Hfresh%bool_decide_eq_true _]. congruence. }
    apply edge_point_began_inv in H as [-> | (_ & Hidle & ->)].
    + by apply edge_inv_set_state.
    + apply edge_inv_arm_timeout; try done.
      subst g. cbn. by rewrite lookup_insert_eq.
  - case_bool_decide as Hpoint; [| by injection H as <-].
    assert (Hinv_u : edge_inv (EdgeDrag.with_parent
                                 (update_point point coords event (EdgeDrag.parent self))
                                 self)).
    { destruct Hinv as (Htimer & Hfinished & Hempty & Hwatched).
      apply edge_inv_with_parent; try done.
      intros Hid. apply Hwatched in Hid as [p Hp].
      unfold update_point. cbn [points]. rewrite lookup_alter, Hp.
      destruct Hpoint as [p' Hp']. rewrite Hp'. by case_decide. }
    apply edge_point_moved_inv in H
      as (p & Hp & [[_ ->] | (Hd & self1 & Hself1 & Hself')]).
    { by apply edge_inv_set_state. }
    assert (Hinv1 : edge_inv self1).
    { destruct Hself1 as [-> | ->]; [done | by apply edge_inv_set_state]. }
    destruct Hself' as [-> | (_ & [-> | ->])]; [done | |].
    + destruct Hinv1 as (? & ? & ? & ?). by apply edge_inv_with_parent.
    + apply edge_inv_set_state.
      destruct Hinv1 as (? & ? & ? & ?). by apply edge_inv_with_parent.
  - case_bool_decide as Hpoint; injection H as <-; [| done].
    unfold EdgeDrag.point_ended.
    pose proof (edge_inv_set_state CLUTTER_GESTURE_STATE_CANCELLED self Hinv)
      as Hinv'.
    assert (Hfinished :
      is_terminal (state (EdgeDrag.parent
                            (clutter_gesture_set_state
                               CLUTTER_GESTURE_STATE_CANCELLED self))) = true).
    { rewrite edge_set_state_parent, transition_state.
      by destruct (state (EdgeDrag.parent self)). }
    pose proof Hinv' as (Htimer' & Hfinished' & Hempty' & Hwatched').
    apply edge_inv_with_parent; [done | by intros _; apply Hfinished' |].
    intros Hid. by rewrite Hfinished' in Hid.
  - apply edge_main_dispatch_inv in H
      as [-> | ([interval Hsource] & self1 & Hself1 & ->)]; [done |].
    assert (Hid : EdgeDrag.cancel_timeout_id self = id).
    { destruct Hinv as (Htimer & _). unfold timer_consistent in Htimer.
      rewrite Htimer in Hsource. destruct (_ =? 0)%nat; [done |].
      by apply lookup_singleton_Some in Hsource as [-> _]. }
    apply edge_inv_timeout_done.
    + destruct Hself1 as [-> | ->]; [done | by apply edge_inv_set_state].
    + destruct Hself1 as [-> | ->]; [by right |].
      destruct (valid_transition (state (EdgeDrag.parent self))
                  CLUTTER_GESTURE_STATE_CANCELLED) eqn:Hvalid.
      * rewrite edge_set_state_terminal by done. by left.
      * rewrite set_state_invalid by done. by right.
  - injection H as <-. unfold EdgeDrag.shell_edge_drag_gesture_set_side.
    destruct Hinv as (? & ? & ? & ?). by repeat case_match.
Qed.

Lemma edge_inv_init : edge_inv EdgeDrag.shell_edge_drag_gesture_init.
Proof. by unfold edge_inv, timer_consistent. Qed.

Lemma edge_inv_run display inputs : forall self self',
  edge_inv self ->
  EdgeDrag.run display inputs self = Ok self' ->
  edge_inv self'.
Proof.
  induction inputs as [| i inputs IH]; intros self self' Hinv Hrun.
  - by injection Hrun as <-.
  - simpl in Hrun.
    destruct (EdgeDrag.dispatch display i self) as [self1 |] eqn:Hstep;
      cbn [rbind] in Hrun; [| done].
    eapply IH; [| done]. by eapply edge_inv_dispatch.
Qed.

(** The assertion of [point_began], that no cancel timeout is pending
    when one is scheduled, holds in every run. *)
Lemma get_point_no_assert_failure g point :
  clutter_gesture_get_point g point <> Err AssertFailed.
Proof. unfold clutter_gesture_get_point. by case_match. Qed.

Lemma is_near_no_assert_failure display self point :
  EdgeDrag.is_near_monitor_edge display self point <> Err AssertFailed.
Proof.
  unfold EdgeDrag.is_near_monitor_edge.
  pose proof (get_point_no_assert_failure (EdgeDrag.parent self) point).
  destruct (clutter_gesture_get_point _ _); cbn [rbind]; [| congruence].
  by case_match.
Qed.

Lemma passes_no_assert_failure display self point :
  EdgeDrag.passes_distance_needed display self point <> Err AssertFailed.
Proof.
  unfold EdgeDrag.passes_distance_needed.
  pose proof (get_point_no_assert_failure (EdgeDrag.parent self) point).
  destruct (clutter_gesture_get_point _ _); cbn [rbind]; [| congruence].
  by case_match.
Qed.

Lemma edge_dispatch_no_assert_failure display i self :
  edge_inv self ->
  EdgeDrag.dispatch display i self <> Err AssertFailed.
Proof.
  intros Hinv.
  destruct i as [point coords event | point coords event | point | id | s];
    simpl; try done.
  - destruct (EdgeDrag.should_handle_sequence event); cbn [andb]; [| done].
    destruct (accepts_sequence point (EdgeDrag.parent self)) eqn:Haccepts; [| done].
    pose proof (accepted_sequence_points point coords event _ Haccepts) as Hn.
    set (g := register_point _ _ _ _) in *.
    unfold EdgeDrag.point_began. cbn [EdgeDrag.parent EdgeDrag.with_parent].
    rewrite Hn. destruct (1 <? _)%nat eqn:Hsize; cbn [rbind]; [done |].
    apply Nat.ltb_ge in Hsize.
    pose proof (is_near_no_assert_failure display (EdgeDrag.with_parent g self) point).
    destruct (EdgeDrag.is_near_monitor_edge _ _ _) as [near |]; cbn [rbind];
      [| congruence].
    destruct near; cbn [negb]; [| done].
    destruct Hinv as (_ & _ & Hempty & _).
    cbn [EdgeDrag.cancel_timeout_id EdgeDrag.with_parent].
    rewrite Hempty; [done |]. apply map_size_empty_inv. lia.
  - case_bool_decide; [| done]. unfold EdgeDrag.point_moved.
    set (self_u := EdgeDrag.with_parent _ self).
    unfold EdgeDrag.exceeds_cancel_threshold.
    pose proof (get_point_no_assert_failure (EdgeDrag.parent self_u) point).
    destruct (clutter_gesture_get_point _ _) as [p |]; cbn [rbind]; [| congruence].
    destruct (graphene_point_distance _ _). cbn [rbind].
    destruct (match EdgeDrag.side self_u with
              | EdgeDrag.ST_SIDE_TOP | EdgeDrag.ST_SIDE_BOTTOM => _
              | _ => _
              end); [done |].
    pose proof (is_near_no_assert_failure display self_u point).
    assert (Hself1 : forall e,
      (if bool_decide (state (EdgeDrag.parent self_u) = CLUTTER_GESTURE_STATE_POSSIBLE)
       then
         let! near := EdgeDrag.is_near_monitor_edge display self_u point in
         if negb near
         then Ok (clutter_gesture_set_state CLUTTER_GESTURE_STATE_RECOGNIZING self_u)
         else Ok self_u
       else Ok self_u) = Err e -> e <> AssertFailed).
    { intros e. case_bool_decide; [| done].
      destruct (EdgeDrag.is_near_monitor_edge _ _ _) as [near |]; cbn [rbind];
        [by destruct near | congruence]. }
    destruct (if bool_decide (state (EdgeDrag.parent self_u) = _) then _ else _)
      as [self1 | e]; cbn [rbind]; [| intros [= ->]; by eapply Hself1].
    case_bool_decide; [| done].
    pose proof (get_point_no_assert_failure (EdgeDrag.parent self1) point).
    destruct (clutter_gesture_get_point _ _) as [p1 |]; cbn [rbind]; [| congruence].
    destruct (graphene_point_distance _ _).
    match goal with
    | |- context [EdgeDrag.passes_distance_needed display ?s point] =>
        pose proof (passes_no_assert_failure display s point);
        destruct (EdgeDrag.passes_distance_needed display s point) as [passes |]
    end; cbn [rbind]; [by destruct passes | congruence].
  - by case_bool_decide.
  - unfold EdgeDrag.g_main_dispatch. case_match; [| done].
    unfold EdgeDrag.on_cancel_timeout.
    pose proof (is_near_no_assert_failure display self
                  (EdgeDrag.cancel_timeout_point self)).
    destruct (EdgeDrag.is_near_monitor_edge _ _ _); cbn [rbind]; [done | congruence].
Qed.

Lemma edge_run_no_assert_failure display inputs : forall self,
  edge_inv self ->
  EdgeDrag.run display inputs self <> Err AssertFailed.
Proof.
  induction inputs as [| i inputs IH]; intros self Hinv; [done |].
  simpl. pose proof (edge_dispatch_no_assert_failure display i self Hinv) as Hstep.
  destruct (EdgeDrag.dispatch display i self) as [self1 |] eqn:Hdispatch;
    cbn [rbind]; [| done].
  apply IH. by eapply edge_inv_dispatch.
Qed.

(** While the cancel timeout is attached the gesture is in progress. *)
Lemma edge_inv_armed_live self :
  edge_inv self ->
  is_Some (EdgeDrag.sources (EdgeDrag.main_context self)
             !! EdgeDrag.cancel_timeout_id self) ->
  is_terminal (state (EdgeDrag.parent self)) = false.
Proof.
  intros (Htimer & Hfinished & _) [interval Hsource].
  destruct (is_terminal (state (EdgeDrag.parent self))); [| done].
  unfold timer_consistent in Htimer. rewrite Hfinished in Htimer, Hsource by done.
  by rewrite Htimer in Hsource.
Qed.

(** ** The cancel timeout *)

(** C7. At any point of a run, the main loop runs the callback of the
    cancel timeout, whose source is attached.  If the watched point is in
    the edge band (less than 20px inside the edge) the gesture is
    Cancelled, otherwise its state is kept.  Either way the stored id is 0
    afterwards and the source is gone, so that it cannot be dispatched
    again. *)
Theorem cancel_timeout_fires_once
    (display : EdgeDrag.MetaDisplay) (inputs : list EdgeDrag.Input)
    (self : EdgeDrag.ShellEdgeDragGesture)
    (p : GesturePoint) (m : EdgeDrag.MtkRectangle) (interval : Z)
    (Hrun : EdgeDrag.run display inputs EdgeDrag.shell_edge_drag_gesture_init
            = Ok self)
    (Harmed : EdgeDrag.sources (EdgeDrag.main_context self)
                !! EdgeDrag.cancel_timeout_id self = Some interval)
    (Hp : points (EdgeDrag.parent self) !! EdgeDrag.cancel_timeout_point self
          = Some p)
    (Hm : EdgeDrag.get_monitor_for_coords display (coords_abs p) = Some m) :
  let in_band := Qltb (edge_distance (EdgeDrag.side self) m (coords_abs p)) 20 in
  exists self',
    EdgeDrag.g_main_dispatch display (EdgeDrag.cancel_timeout_id self) self
    = Ok self'
    /\ EdgeDrag.on_cancel_timeout display self
       = Ok (EdgeDrag.set_cancel_timeout_id 0
               (if in_band
                then clutter_gesture_set_state CLUTTER_GESTURE_STATE_CANCELLED self
                else self),
             false)
    /\ state (EdgeDrag.parent self')
       = (if in_band then CLUTTER_GESTURE_STATE_CANCELLED
          else state (EdgeDrag.parent self))
    /\ EdgeDrag.cancel_timeout_id self' = 0%nat
    /\ EdgeDrag.sources (EdgeDrag.main_context self')
         !! EdgeDrag.cancel_timeout_id self = None
    /\ EdgeDrag.g_main_dispatch display (EdgeDrag.cancel_timeout_id self) self'
       = Ok self'.
Proof.
  intros in_band.
  pose proof (edge_inv_run _ _ _ _ edge_inv_init Hrun) as Hinv.
  pose proof (edge_inv_armed_live self Hinv (mk_is_Some _ _ Harmed)) as Hlive.
  assert (Hcallback :
    EdgeDrag.on_cancel_timeout display self
    = Ok (EdgeDrag.set_cancel_timeout_id 0
            (if in_band
             then clutter_gesture_set_state CLUTTER_GESTURE_STATE_CANCELLED self
             else self),
          false)).
  { unfold EdgeDrag.on_cancel_timeout.
    by rewrite (is_near_monitor_edge_spec display self _ p m Hp Hm). }
  unfold EdgeDrag.g_main_dispatch at 1. rewrite Harmed, Hcallback. simpl.
  eexists. split; [reflexivity |]. split; [reflexivity |].
  assert (Hgone : forall ctx,
    EdgeDrag.sources (EdgeDrag.g_source_remove (EdgeDrag.cancel_timeout_id self) ctx)
      !! EdgeDrag.cancel_timeout_id self = None).
  { intros ctx. simpl. apply lookup_delete_eq. }
  repeat split.
  - simpl. destruct in_band; [| done].
    rewrite edge_set_state_parent. by apply transition_cancelled_live.
  - simpl. apply Hgone.
  - unfold EdgeDrag.g_main_dispatch. simpl. by rewrite lookup_delete_eq.
Qed.

Lemma cancel_timeout_fires_once_witness :
  (exists self',
      EdgeDrag.g_main_dispatch Samples.one_monitor_display 1 Samples.edge_finger_down
      = Ok self'
      /\ state (EdgeDrag.parent self') = CLUTTER_GESTURE_STATE_CANCELLED)
  /\ (exists self',
         EdgeDrag.g_main_dispatch Samples.one_monitor_display 1
           Samples.edge_finger_moved = Ok self'
         /\ state (EdgeDrag.parent self') = CLUTTER_GESTURE_STATE_RECOGNIZING).
Proof.
  split.
  - destruct (cancel_timeout_fires_once Samples.one_monitor_display
                [EdgeDrag.PointBegan 0 (Samples.at_px 500 10)
                   (Samples.touch_event CLUTTER_TOUCH_BEGIN 1000)]
                Samples.edge_finger_down
                {| begin_coords_abs := Samples.at_px 500 10;
                   coords_abs := Samples.at_px 500 10;
                   point_event := Samples.touch_event CLUTTER_TOUCH_BEGIN 1000 |}
                Samples.one_monitor 200)
      as (self' & Hdispatch & _ & Hstate & _);
      [vm_compute; reflexivity .. |].
    exists self'. split; [exact Hdispatch | exact Hstate].
  - destruct (cancel_timeout_fires_once Samples.one_monitor_display
                [EdgeDrag.PointBegan 0 (Samples.at_px 500 10)
                   (Samples.touch_event CLUTTER_TOUCH_BEGIN 1000);
                 EdgeDrag.PointMoved 0 (Samples.at_px 500 50)
                   (Samples.touch_event CLUTTER_TOUCH_UPDATE 1050)]
                Samples.edge_finger_moved
                {| begin_coords_abs := Samples.at_px 500 10;
                   coords_abs := Samples.at_px 500 50;
                   point_event := Samples.touch_event CLUTTER_TOUCH_UPDATE 1050 |}
                Samples.one_monitor 200)
      as (self' & Hdispatch & _ & Hstate & _);
      [vm_compute; reflexivity .. |].
    exists self'. split; [exact Hdispatch | exact Hstate].
Defined.

(** ** Resources at the end of a gesture *)

Lemma dnd_inv_finished self :
  dnd_inv self ->
  is_terminal (state (Dnd.parent self)) = true ->
  Dnd.shell_dnd_start_gesture_get_point_begin_event self = None
  /\ Dnd.shell_dnd_start_gesture_get_drag_triggering_event self = None
  /\ Dnd.live (Dnd.event_store self) = ∅
  /\ forall id, (id < Dnd.next_copy (Dnd.event_store self))%nat ->
                count_occ Nat.eq_dec (Dnd.freed (Dnd.event_store self)) id = 1%nat.
Proof.
  intros (Htrigger & Hstore & Hfinished & _) Hterminal.
  unfold Dnd.shell_dnd_start_gesture_get_point_begin_event,
    Dnd.shell_dnd_start_gesture_get_drag_triggering_event.
  rewrite (Hfinished Hterminal) in Hstore |- *.
  destruct Hstore as (Hlive & Hnodup & Hfreed & _). simpl in Hlive.
  repeat split; try done.
  intros id Hid. apply NoDup_count_occ'; [by apply NoDup_ListNoDup |].
  apply list_elem_of_In, Hfreed. split; [done |]. rewrite Hlive. set_solver.
Qed.

Lemma edge_inv_at_most_one_source self :
  edge_inv self ->
  (size (EdgeDrag.sources (EdgeDrag.main_context self)) <= 1)%nat.
Proof.
  intros (Htimer & _). unfold timer_consistent in Htimer. rewrite Htimer.
  destruct (_ =? 0)%nat; [rewrite map_size_empty; lia |].
  by rewrite map_size_singleton.
Qed.

(** C8. In every run of the drag-start recognizer no event copy is ever
    freed twice, and whenever the gesture is Cancelled or Completed both
    event accessors return null and every copy made so far has been freed
    exactly once; a transition to a terminal state leaves the recognizer
    so.  In every run of the edge-drag recognizer at most one timeout
    source is attached, and whenever the gesture is Cancelled or Completed
    the stored id is 0 and no source is attached; a transition to a
    terminal state leaves the recognizer so. *)
Theorem terminal_states_release_resources
    (drag_threshold scale_factor : Z) (display : EdgeDrag.MetaDisplay)
    (dnd_inputs : list Dnd.Input) (edge_inputs : list EdgeDrag.Input)
    (dnd : Dnd.ShellDndStartGesture) (edge : EdgeDrag.ShellEdgeDragGesture)
    (Hdnd : Dnd.run drag_threshold scale_factor dnd_inputs
              Dnd.shell_dnd_start_gesture_init = Ok dnd)
    (Hedge : EdgeDrag.run display edge_inputs
               EdgeDrag.shell_edge_drag_gesture_init = Ok edge) :
  let released (self : Dnd.ShellDndStartGesture) :=
    Dnd.shell_dnd_start_gesture_get_point_begin_event self = None
    /\ Dnd.shell_dnd_start_gesture_get_drag_triggering_event self = None
    /\ Dnd.live (Dnd.event_store self) = ∅
    /\ forall id, (id < Dnd.next_copy (Dnd.event_store self))%nat ->
                  count_occ Nat.eq_dec (Dnd.freed (Dnd.event_store self)) id = 1%nat in
  let disarmed (self : EdgeDrag.ShellEdgeDragGesture) :=
    EdgeDrag.cancel_timeout_id self = 0%nat
    /\ EdgeDrag.sources (EdgeDrag.main_context self) = ∅ in
  (NoDup (Dnd.freed (Dnd.event_store dnd))
   /\ (is_terminal (state (Dnd.parent dnd)) = true -> released dnd)
   /\ (forall new_state,
          is_terminal new_state = true ->
          valid_transition (state (Dnd.parent dnd)) new_state = true ->
          released (clutter_gesture_set_state new_state dnd))
   /\ (forall start_event,
          clutter_gesture_get_n_points (Dnd.parent dnd) = 1%nat ->
          state (Dnd.parent dnd) = CLUTTER_GESTURE_STATE_POSSIBLE ->
          released (Dnd.shell_dnd_start_gesture_start_drag start_event dnd)))
  /\ ((size (EdgeDrag.sources (EdgeDrag.main_context edge)) <= 1)%nat
      /\ (is_terminal (state (EdgeDrag.parent edge)) = true -> disarmed edge)
      /\ (forall new_state,
             is_terminal new_state = true ->
             valid_transition (state (EdgeDrag.parent edge)) new_state = true ->
             disarmed (clutter_gesture_set_state new_state edge))).
Proof.
  intros released disarmed.
  pose proof (dnd_inv_run _ _ _ _ _ dnd_inv_init Hdnd) as Hinv_dnd.
  pose proof (edge_inv_run _ _ _ _ edge_inv_init Hedge) as Hinv_edge.
  split; [split; [| split; [| split]] | split; [| split]].
  - by destruct Hinv_dnd as (_ & (_ & Hnodup & _) & _).
  - by apply dnd_inv_finished.
  - intros new_state Hterminal Hvalid. apply dnd_inv_finished.
    + by apply dnd_inv_set_state_terminal.
    + by rewrite dnd_set_state_parent, transition_terminal.
  - intros start_event Hn Hpossible. apply dnd_inv_finished.
    + by apply dnd_inv_start_drag.
    + by rewrite dnd_start_drag_completes.
  - by apply edge_inv_at_most_one_source.
  - intros Hterminal. destruct Hinv_edge as (Htimer & Hfinished & _ & _).
    split; [by apply Hfinished |].
    unfold timer_consistent in Htimer. by rewrite (Hfinished Hterminal) in Htimer.
  - intros new_state Hterminal Hvalid.
    pose proof (edge_inv_set_state new_state edge Hinv_edge) as Hinv'.
    rewrite edge_set_state_terminal in * by done. split; [done |].
    by apply (edge_inv_idle _ Hinv').
Qed.

Lemma terminal_states_release_resources_witness :
  (Dnd.shell_dnd_start_gesture_get_point_begin_event
     (Samples.dnd_after Samples.dnd_mouse_drag) = None
   /\ Dnd.shell_dnd_start_gesture_get_drag_triggering_event
        (Samples.dnd_after Samples.dnd_mouse_drag) = None
   /\ Dnd.live (Dnd.event_store (Samples.dnd_after Samples.dnd_mouse_drag)) = ∅
   /\ forall id,
        (id < Dnd.next_copy (Dnd.event_store (Samples.dnd_after Samples.dnd_mouse_drag)))%nat ->
        count_occ Nat.eq_dec
          (Dnd.freed (Dnd.event_store (Samples.dnd_after Samples.dnd_mouse_drag))) id
        = 1%nat)
  /\ (EdgeDrag.cancel_timeout_id Samples.edge_after_short_drag = 0%nat
      /\ EdgeDrag.sources (EdgeDrag.main_context Samples.edge_after_short_drag) = ∅).
Proof.
  pose proof (terminal_states_release_resources 8 1 Samples.one_monitor_display
                Samples.dnd_mouse_drag
                (EdgeDrag.SetSide 0
                 :: single_touch 0 (Samples.at_px 500 19)
                      (Samples.touch_event CLUTTER_TOUCH_BEGIN 1000)
                      Samples.edge_short_drag)
                (Samples.dnd_after Samples.dnd_mouse_drag)
                Samples.edge_after_short_drag) as H.
  cbv zeta in H.
  destruct H as [(_ & Hdnd & _) (_ & Hedge & _)].
  - vm_compute. reflexivity.
  - vm_compute. reflexivity.
  - split; [apply Hdnd | apply Hedge]; reflexivity.
Defined.

(** ** A second point in a stream *)

(** A point that begins while the recognizer tracks another one: either
    the framework does not hand it over, or the gesture is Cancelled. *)
Lemma dnd_second_point_in_stream drag_threshold scale_factor point coords event
    self self' :
  points (Dnd.parent self) <> ∅ ->
  Dnd.dispatch drag_threshold scale_factor (Dnd.PointBegan point coords event) self
  = Ok self' ->
  self' = self \/ state (Dnd.parent self') = CLUTTER_GESTURE_STATE_CANCELLED.
Proof.
  intros Hpoints H. simpl in H.
  destruct (Dnd.should_handle_sequence event); cbn [andb] in H;
    [| left; by injection H as <-].
  destruct (accepts_sequence point (Dnd.parent self)) eqn:Haccepts;
    [| left; by injection H as <-].
  right.
  pose proof (accepted_sequence_live point coords event (Dnd.parent self)) as Hlive.
  pose proof (accepted_sequence_points point coords event _ Haccepts) as Hn.
  apply map_size_non_empty_iff in Hpoints.
  set (g := register_point _ _ _ _) in *.
  unfold Dnd.point_began in H. cbn [Dnd.parent Dnd.with_parent] in H.
  replace (1 <? clutter_gesture_get_n_points g)%nat with true in H
    by (symmetry; apply Nat.ltb_lt; lia).
  injection H as <-. rewrite dnd_set_state_parent.
  by apply transition_cancelled_live.
Qed.

Lemma edge_second_point_in_stream display point coords event self self' :
  points (EdgeDrag.parent self) <> ∅ ->
  EdgeDrag.dispatch display (EdgeDrag.PointBegan point coords event) self = Ok self' ->
  self' = self \/ state (EdgeDrag.parent self') = CLUTTER_GESTURE_STATE_CANCELLED.
Proof.
  intros Hpoints H. simpl in H.
  destruct (EdgeDrag.should_handle_sequence event); cbn [andb] in H;
    [| left; by injection H as <-].
  destruct (accepts_sequence point (EdgeDrag.parent self)) eqn:Haccepts;
    [| left; by injection H as <-].
  right.
  pose proof (accepted_sequence_live point coords event (EdgeDrag.parent self)) as Hlive.
  pose proof (accepted_sequence_points point coords event _ Haccepts) as Hn.
  apply map_size_non_empty_iff in Hpoints.
  set (g := register_point _ _ _ _) in *.
  unfold EdgeDrag.point_began in H. cbn [EdgeDrag.parent EdgeDrag.with_parent] in H.
  replace (1 <? clutter_gesture_get_n_points g)%nat with true in H
    by (symmetry; apply Nat.ltb_lt; lia).
  injection H as <-. rewrite edge_set_state_parent.
  by apply transition_cancelled_live.
Qed.

(* ===================================================================== *)
(** * Further properties of the drag-start recognizer *)
(* ===================================================================== *)

Lemma dnd_start_drag_event_eq event self :
  clutter_gesture_get_n_points (Dnd.parent self) = 1%nat ->
  state (Dnd.parent self) = CLUTTER_GESTURE_STATE_POSSIBLE ->
  Dnd.shell_dnd_start_gesture_start_drag (Some event) self
  = {| Dnd.parent := transition CLUTTER_GESTURE_STATE_COMPLETED (Dnd.parent self);
       Dnd.drag_threshold_ignored := Dnd.drag_threshold_ignored self;
       Dnd.point_begin_event := None;
       Dnd.drag_triggering_event := None;
       Dnd.manual_mode := Dnd.manual_mode self;
       Dnd.timeout_threshold_ms := Dnd.timeout_threshold_ms self;
       Dnd.event_store :=
         Dnd.g_clear_pointer (Dnd.point_begin_event self)
           (Dnd.clutter_event_free
              (fst (Dnd.clutter_event_copy event (Dnd.event_store self)))
              (snd (Dnd.clutter_event_copy event (Dnd.event_store self)))) |}.
Proof.
  intros Hn Hstate. unfold Dnd.shell_dnd_start_gesture_start_drag.
  rewrite Hn. simpl. rewrite bool_decide_eq_true_2 by done.
  rewrite dnd_set_state_terminal by (try done; simpl; by rewrite Hstate).
  done.
Qed.

Lemma g_clear_pointer_freed ptr st :
  Dnd.freed (Dnd.g_clear_pointer ptr st) = owned_ids ptr ++ Dnd.freed st.
Proof. by destruct ptr. Qed.

(** X1. Automatic mode, the gesture Possible with its one point, the
    threshold not ignored: a move beyond the scaled drag threshold, as the
    code measures it (the single-precision difference of the coordinates,
    compared with the threshold converted to [float]), made with a pointer
    or a touchpad, or made later than the timeout after the point began,
    starts the drag on that move.  The gesture is Completed; the event of
    the move is copied as the triggering event, and that copy and the begin
    event are freed in the transition. *)
Theorem move_beyond_threshold_starts_drag
    (drag_threshold scale_factor : Z) (self : Dnd.ShellDndStartGesture)
    (point : nat) (p : GesturePoint)
    (Hp : points (Dnd.parent self) !! point = Some p)
    (Hone : clutter_gesture_get_n_points (Dnd.parent self) = 1%nat)
    (Hauto : Dnd.manual_mode self = false)
    (Hpossible : state (Dnd.parent self) = CLUTTER_GESTURE_STATE_POSSIBLE)
    (Hchecked : Dnd.drag_threshold_ignored self = false)
    (Hexceeds : measured_beyond_drag_threshold (drag_threshold * scale_factor)
                  (begin_coords_abs p) (coords_abs p))
    (Hstart : event_device_type (point_event p) = CLUTTER_POINTER_DEVICE
              \/ event_device_type (point_event p) = CLUTTER_TOUCHPAD_DEVICE
              \/ (Dnd.timeout_threshold_ms self
                  < guint32 (event_time (point_event p)
                             - Dnd.clutter_event_get_time (Dnd.point_begin_event self)))%Z) :
  exists self',
    Dnd.point_moved drag_threshold scale_factor point self = Ok self'
    /\ self' = Dnd.shell_dnd_start_gesture_start_drag (Some (point_event p)) self
    /\ state (Dnd.parent self') = CLUTTER_GESTURE_STATE_COMPLETED
    /\ emitted (Dnd.parent self')
       = StateChanged CLUTTER_GESTURE_STATE_POSSIBLE CLUTTER_GESTURE_STATE_COMPLETED
         :: emitted (Dnd.parent self)
    /\ Dnd.point_begin_event self' = None
    /\ Dnd.drag_triggering_event self' = None
    /\ Dnd.freed (Dnd.event_store self')
       = owned_ids (Dnd.point_begin_event self)
         ++ Dnd.next_copy (Dnd.event_store self) :: Dnd.freed (Dnd.event_store self).
Proof.
  eexists. split.
  - unfold Dnd.point_moved. rewrite Hauto, Hpossible. simpl.
    unfold Dnd.maybe_start_drag. rewrite (get_point_Some _ _ _ Hp).
    cbn [rbind]. rewrite Hchecked.
    rewrite (measured_beyond_drag_threshold_true _ _ _ Hexceeds).
    replace (_ || (_ <? _)%Z) with true; [reflexivity |].
    symmetry. destruct Hstart as [-> | [-> | Hlate%Z.ltb_lt]]; [done | done |].
    rewrite Hlate. apply orb_true_r.
  - split; [done |]. rewrite dnd_start_drag_event_eq by done.
    cbn -[Dnd.clutter_event_copy]. rewrite g_clear_pointer_freed.
    unfold transition. rewrite Hpossible. done.
Qed.

Lemma move_beyond_threshold_starts_drag_witness :
  exists self',
    Dnd.point_moved 8 1 0 (MoreSamples.dnd_pointer_at 130 100 1010) = Ok self'
    /\ state (Dnd.parent self') = CLUTTER_GESTURE_STATE_COMPLETED.
Proof.
  destruct (move_beyond_threshold_starts_drag 8 1
              (MoreSamples.dnd_pointer_at 130 100 1010) 0
              {| begin_coords_abs := Samples.at_px 100 100;
                 coords_abs := Samples.at_px 130 100;
                 point_event := MoreSamples.mouse_event CLUTTER_MOTION 1010 |})
    as (self' & Hmoved & _ & Hstate & _).
  - vm_compute. reflexivity.
  - vm_compute. reflexivity.
  - reflexivity.
  - reflexivity.
  - reflexivity.
  - left. vm_compute. reflexivity.
  - left. reflexivity.
  - exists self'. split; [exact Hmoved | exact Hstate].
Defined.

Lemma within_drag_threshold_false drag_threshold begin_coords coords :
  within_drag_threshold drag_threshold begin_coords coords ->
  Qltb (float_of_int drag_threshold)
    (Qabs (float_sub (point_x coords) (point_x begin_coords)))
  || Qltb (float_of_int drag_threshold)
       (Qabs (float_sub (point_y coords) (point_y begin_coords)))
  = false.
Proof.
  intros [Hx Hy]. apply orb_false_iff.
  split; apply Qltb_false; by apply float32_abs_le.
Qed.

Lemma dnd_moves_within_threshold drag_threshold scale_factor point c0 moves :
  forall self p,
    points (Dnd.parent self) !! point = Some p ->
    begin_coords_abs p = c0 ->
    Forall (fun ce => within_drag_threshold (drag_threshold * scale_factor) c0 (fst ce))
      moves ->
    exists g',
      Dnd.run drag_threshold scale_factor
        (map (fun ce => Dnd.PointMoved point (fst ce) (snd ce)) moves) self
      = Ok (Dnd.with_parent g' self)
      /\ state g' = state (Dnd.parent self)
      /\ emitted g' = emitted (Dnd.parent self)
      /\ points g' !! point
         = Some (fold_left (fun _ ce => moved_point c0 (fst ce) (snd ce)) moves p).
Proof.
  induction moves as [| [c e] moves IH]; intros self p Hp Hbegin Hwithin.
  - exists (Dnd.parent self). by destruct self.
  - apply Forall_cons in Hwithin as [Hc Hwithin]. cbn [fst snd] in Hc.
    cbn [map fst snd Dnd.run Dnd.dispatch fold_left].
    rewrite bool_decide_eq_true_2 by (by rewrite Hp).
    set (self_u := Dnd.with_parent _ self).
    assert (Hp_u : points (Dnd.parent self_u) !! point = Some (moved_point c0 c e)).
    { subst self_u. cbn [Dnd.parent Dnd.with_parent].
      rewrite update_point_lookup by (by rewrite Hp). by rewrite Hp, Hbegin. }
    assert (Hmoved :
      Dnd.point_moved drag_threshold scale_factor point self_u = Ok self_u).
    { unfold Dnd.point_moved. destruct (_ && _); [| done].
      unfold Dnd.maybe_start_drag. rewrite (get_point_Some _ _ _ Hp_u).
      cbn [rbind]. destruct (Dnd.drag_threshold_ignored self_u); [done |].
      cbn [moved_point begin_coords_abs coords_abs].
      by rewrite (within_drag_threshold_false _ _ _ Hc). }
    rewrite Hmoved. cbn [rbind].
    destruct (IH self_u (moved_point c0 c e) Hp_u eq_refl Hwithin)
      as (g' & Hrun & Hstate & Hemitted & Hpoint).
    exists g'. by rewrite Hrun.
Qed.

(** X2. A sequence of moves of a tracked point that all stay within the
    scaled drag threshold of where the point began changes nothing but the
    coordinates and the event of that point: the state of the gesture, the
    log, [drag_threshold_ignored] and the event copies are as before, so
    the threshold is still checked on the next move. *)
Theorem moves_within_threshold_keep_waiting
    (drag_threshold scale_factor : Z) (self : Dnd.ShellDndStartGesture)
    (point : nat) (p : GesturePoint)
    (moves : list (graphene_point_t * ClutterEvent))
    (Hp : points (Dnd.parent self) !! point = Some p)
    (Hwithin : Forall (fun ce =>
                         within_drag_threshold (drag_threshold * scale_factor)
                           (begin_coords_abs p) (fst ce)) moves) :
  exists g',
    Dnd.run drag_threshold scale_factor
      (map (fun ce => Dnd.PointMoved point (fst ce) (snd ce)) moves) self
    = Ok (Dnd.with_parent g' self)
    /\ state g' = state (Dnd.parent self)
    /\ emitted g' = emitted (Dnd.parent self)
    /\ points g' !! point
       = Some (fold_left (fun _ ce => moved_point (begin_coords_abs p) (fst ce) (snd ce))
                 moves p).
Proof. by eapply dnd_moves_within_threshold. Qed.

Lemma moves_within_threshold_keep_waiting_witness :
  exists g',
    Dnd.run 8 1
      [Dnd.PointMoved 0 (Samples.at_px 104 100) (MoreSamples.mouse_event CLUTTER_MOTION 1010);
       Dnd.PointMoved 0 (Samples.at_px 108 92) (MoreSamples.mouse_event CLUTTER_MOTION 1020)]
      MoreSamples.dnd_button_down
    = Ok (Dnd.with_parent g' MoreSamples.dnd_button_down)
    /\ state g' = CLUTTER_GESTURE_STATE_POSSIBLE.
Proof.
  destruct (moves_within_threshold_keep_waiting 8 1 MoreSamples.dnd_button_down 0
              {| begin_coords_abs := Samples.at_px 100 100;
                 coords_abs := Samples.at_px 100 100;
                 point_event := MoreSamples.mouse_event CLUTTER_BUTTON_PRESS 1000 |}
              [(Samples.at_px 104 100, MoreSamples.mouse_event CLUTTER_MOTION 1010);
               (Samples.at_px 108 92, MoreSamples.mouse_event CLUTTER_MOTION 1020)])
    as (g' & Hrun & Hstate & _).
  - vm_compute. reflexivity.
  - repeat constructor; vm_compute; discriminate.
  - exists g'. split; [exact Hrun | exact Hstate].
Defined.

Lemma guint32_elapsed (b d : Z) :
  (0 <= d < 2 ^ 32)%Z -> guint32 (guint32 (b + d) - b) = d.
Proof.
  intros Hd. unfold guint32.
  rewrite Zminus_mod_idemp_l.
  replace (b + d - b)%Z with d by lia. by apply Z.mod_small.
Qed.

(** X3. The time since the point began is computed in [guint32], so it is
    right across the wrap of the timestamps.  Automatic mode, the gesture
    Possible with its one point, the threshold not ignored, a device that
    is neither a pointer nor a touchpad: when the point began at time [b]
    and the move beyond the threshold, as the code measures it (the
    single-precision difference of the coordinates, compared with the
    threshold converted to [float]), is stamped [d] milliseconds later
    (modulo 2^32), the drag starts if [d] is above the timeout, and
    otherwise the recognizer only sets [drag_threshold_ignored]. *)
Theorem touch_move_decided_by_elapsed_time
    (drag_threshold scale_factor : Z) (self : Dnd.ShellDndStartGesture)
    (point : nat) (p : GesturePoint) (b d : Z)
    (Hp : points (Dnd.parent self) !! point = Some p)
    (Hone : clutter_gesture_get_n_points (Dnd.parent self) = 1%nat)
    (Hauto : Dnd.manual_mode self = false)
    (Hpossible : state (Dnd.parent self) = CLUTTER_GESTURE_STATE_POSSIBLE)
    (Hchecked : Dnd.drag_threshold_ignored self = false)
    (Hexceeds : measured_beyond_drag_threshold (drag_threshold * scale_factor)
                  (begin_coords_abs p) (coords_abs p))
    (Hdevice : event_device_type (point_event p) <> CLUTTER_POINTER_DEVICE
               /\ event_device_type (point_event p) <> CLUTTER_TOUCHPAD_DEVICE)
    (Hd : (0 <= d < 2 ^ 32)%Z)
    (Hbegan : Dnd.clutter_event_get_time (Dnd.point_begin_event self) = b)
    (Hstamp : event_time (point_event p) = guint32 (b + d)) :
  Dnd.point_moved drag_threshold scale_factor point self
  = Ok (if (Dnd.timeout_threshold_ms self <? d)%Z
        then Dnd.shell_dnd_start_gesture_start_drag (Some (point_event p)) self
        else Dnd.set_drag_threshold_ignored true self)
  /\ state (Dnd.parent
              (if (Dnd.timeout_threshold_ms self <? d)%Z
               then Dnd.shell_dnd_start_gesture_start_drag (Some (point_event p)) self
               else Dnd.set_drag_threshold_ignored true self))
     = (if (Dnd.timeout_threshold_ms self <? d)%Z
        then CLUTTER_GESTURE_STATE_COMPLETED
        else CLUTTER_GESTURE_STATE_POSSIBLE).
Proof.
  split.
  - unfold Dnd.point_moved. rewrite Hauto, Hpossible. simpl.
    unfold Dnd.maybe_start_drag. rewrite (get_point_Some _ _ _ Hp).
    cbn [rbind]. rewrite Hchecked.
    rewrite (measured_beyond_drag_threshold_true _ _ _ Hexceeds).
    destruct Hdevice as [Hpointer Htouchpad].
    rewrite !bool_decide_eq_false_2 by done. cbn [orb].
    rewrite Hbegan, Hstamp, guint32_elapsed by done.
    by destruct (_ <? _)%Z.
  - destruct (_ <? _)%Z; [by apply dnd_start_drag_completes | done].
Qed.

Lemma touch_move_decided_by_elapsed_time_witness :
  Dnd.point_moved 8 1 0 (MoreSamples.dnd_finger_after_wrap 500)
  = Ok (Dnd.shell_dnd_start_gesture_start_drag
          (Some (Samples.touch_event CLUTTER_TOUCH_UPDATE 500))
          (MoreSamples.dnd_finger_after_wrap 500)).
Proof.
  apply (touch_move_decided_by_elapsed_time 8 1 (MoreSamples.dnd_finger_after_wrap 500) 0
           {| begin_coords_abs := Samples.at_px 100 100;
              coords_abs := Samples.at_px 120 100;
              point_event := Samples.touch_event CLUTTER_TOUCH_UPDATE 500 |}
           (2 ^ 32 - 100) 600).
  - vm_compute. reflexivity.
  - vm_compute. reflexivity.
  - reflexivity.
  - reflexivity.
  - reflexivity.
  - left. vm_compute. reflexivity.
  - split; discriminate.
  - lia.
  - reflexivity.
  - reflexivity.
Defined.

(** X4. At any point of a run, when the only point of the recognizer
    ends: the recognizer tracks no point afterwards, a gesture that was
    still Possible is Cancelled and a finished one keeps its state, and
    either way both event accessors return null and no event copy is left
    allocated. *)
Theorem last_point_ended_ends_gesture
    (drag_threshold scale_factor : Z) (inputs : list Dnd.Input)
    (self : Dnd.ShellDndStartGesture) (point : nat)
    (Hrun : Dnd.run drag_threshold scale_factor inputs
              Dnd.shell_dnd_start_gesture_init = Ok self)
    (Hp : is_Some (points (Dnd.parent self) !! point))
    (Hone : clutter_gesture_get_n_points (Dnd.parent self) = 1%nat) :
  exists self',
    Dnd.dispatch drag_threshold scale_factor (Dnd.PointEnded point) self = Ok self'
    /\ points (Dnd.parent self') = ∅
    /\ state (Dnd.parent self')
       = (if is_terminal (state (Dnd.parent self)) then state (Dnd.parent self)
          else CLUTTER_GESTURE_STATE_CANCELLED)
    /\ Dnd.shell_dnd_start_gesture_get_point_begin_event self' = None
    /\ Dnd.shell_dnd_start_gesture_get_drag_triggering_event self' = None
    /\ Dnd.live (Dnd.event_store self') = ∅.
Proof.
  pose proof (dnd_inv_run _ _ _ _ _ dnd_inv_init Hrun) as Hinv.
  destruct (Dnd.dispatch drag_threshold scale_factor (Dnd.PointEnded point) self)
    as [self' |] eqn:Hstep.
  2: { simpl in Hstep. by case_bool_decide. }
  pose proof (dnd_inv_dispatch _ _ _ _ _ Hinv Hstep) as Hinv'.
  exists self'. split; [done |].
  simpl in Hstep. rewrite bool_decide_eq_true_2 in Hstep by done.
  injection Hstep as <-.
  assert (Hstate :
    state (Dnd.parent (Dnd.point_ended point self))
    = (if is_terminal (state (Dnd.parent self)) then state (Dnd.parent self)
       else CLUTTER_GESTURE_STATE_CANCELLED)).
  { unfold Dnd.point_ended. rewrite Hone. cbn [Nat.eqb]. rewrite andb_true_r.
    destruct Hinv as (_ & _ & _ & _ & Hnot).
    case_bool_decide as Hpossible.
    - rewrite dnd_set_state_parent, transition_state, Hpossible. done.
    - by destruct (state (Dnd.parent self)). }
  assert (Hnone : points (Dnd.parent
                            (Dnd.with_parent
                               (remove_point point (Dnd.parent (Dnd.point_ended point self)))
                               (Dnd.point_ended point self))) = ∅).
  { cbn [Dnd.parent Dnd.with_parent remove_point points].
    replace (points (Dnd.parent (Dnd.point_ended point self)))
      with (points (Dnd.parent self)).
    2: { unfold Dnd.point_ended. destruct (_ && _); [| done].
         by rewrite dnd_set_state_parent, transition_points. }
    apply map_size_empty_inv. rewrite map_size_delete_Some by done.
    unfold clutter_gesture_get_n_points in Hone. by rewrite Hone. }
  split; [done |]. split; [done |].
  destruct (dnd_inv_finished _ Hinv') as (Hbegin & Htrigger & Hlive & _); [| done].
  cbn [Dnd.parent Dnd.with_parent remove_point state]. rewrite Hstate.
  destruct Hinv as (_ & _ & _ & _ & Hnot).
  by destruct (state (Dnd.parent self)).
Qed.

Lemma last_point_ended_ends_gesture_witness :
  exists self',
    Dnd.dispatch 8 1 (Dnd.PointEnded 0) MoreSamples.dnd_button_down = Ok self'
    /\ points (Dnd.parent self') = ∅
    /\ state (Dnd.parent self') = CLUTTER_GESTURE_STATE_CANCELLED.
Proof.
  destruct (last_point_ended_ends_gesture 8 1
              [Dnd.PointBegan 0 (Samples.at_px 100 100)
                 (MoreSamples.mouse_event CLUTTER_BUTTON_PRESS 1000)]
              MoreSamples.dnd_button_down 0)
    as (self' & Hstep & Hnone & Hstate & _).
  - vm_compute. reflexivity.
  - vm_compute. eexists. reflexivity.
  - vm_compute. reflexivity.
  - exists self'. split; [exact Hstep |]. split; [exact Hnone | exact Hstate].
Defined.

Lemma Qabs_zero_displacement (x : Q) (drag_threshold : Z) :
  (0 <= drag_threshold)%Z ->
  Qltb (float_of_int drag_threshold) (Qabs (float_sub x x)) = false.
Proof.
  intros Hthreshold. apply Qltb_false, float32_abs_le, Qabs_Qle_condition.
  assert (0 <= inject_Z drag_threshold)%Q
    by (change 0%Q with (inject_Z 0); by rewrite <- Zle_Qle).
  split; lra.
Qed.

(** X5. When the first point of a sequence begins (the gesture has that
    one point, whose current coordinates are its begin coordinates) and the
    scaled drag threshold is not negative, [point_began] only starts
    tracking: it stores a fresh copy of the event of the point as the begin
    event and resets [drag_threshold_ignored]; the state of the gesture
    and the log are as before. *)
Theorem first_point_began_stores_begin_event
    (drag_threshold scale_factor : Z) (self : Dnd.ShellDndStartGesture)
    (point : nat) (p : GesturePoint)
    (Hp : points (Dnd.parent self) !! point = Some p)
    (Hone : clutter_gesture_get_n_points (Dnd.parent self) = 1%nat)
    (Hfresh : coords_abs p = begin_coords_abs p)
    (Hthreshold : (0 <= drag_threshold * scale_factor)%Z) :
  exists self',
    Dnd.point_began drag_threshold scale_factor point self = Ok self'
    /\ self' = dnd_begin_tracking (point_event p) self
    /\ (exists c,
           Dnd.shell_dnd_start_gesture_get_point_begin_event self' = Some c
           /\ Dnd.copy_event c = point_event p
           /\ Dnd.copy_id c = Dnd.next_copy (Dnd.event_store self))
    /\ Dnd.drag_threshold_ignored self' = false
    /\ Dnd.parent self' = Dnd.parent self.
Proof.
  eexists. split.
  - unfold Dnd.point_began. rewrite Hone. cbn [Nat.ltb Nat.leb].
    rewrite (get_point_Some _ _ _ Hp). cbn [rbind].
    unfold Dnd.clutter_event_copy.
    match goal with
    | |- (if ?b then _ else _) = _ => destruct b
    end; [| reflexivity].
    unfold Dnd.maybe_start_drag. cbn [Dnd.parent].
    rewrite (get_point_Some _ _ _ Hp). cbn [rbind Dnd.drag_threshold_ignored].
    rewrite Hfresh, !Qabs_zero_displacement by done. reflexivity.
  - split; [reflexivity |]. split; [by eexists |]. done.
Qed.

Lemma first_point_began_stores_begin_event_witness :
  exists self',
    Dnd.point_began 8 1 0
      (Dnd.with_parent
         (register_point 0 (Samples.at_px 100 100)
            (MoreSamples.mouse_event CLUTTER_BUTTON_PRESS 1000) gesture_init)
         Dnd.shell_dnd_start_gesture_init) = Ok self'
    /\ Dnd.drag_threshold_ignored self' = false.
Proof.
  destruct (first_point_began_stores_begin_event 8 1
              (Dnd.with_parent
                 (register_point 0 (Samples.at_px 100 100)
                    (MoreSamples.mouse_event CLUTTER_BUTTON_PRESS 1000) gesture_init)
                 Dnd.shell_dnd_start_gesture_init) 0
              {| begin_coords_abs := Samples.at_px 100 100;
                 coords_abs := Samples.at_px 100 100;
                 point_event := MoreSamples.mouse_event CLUTTER_BUTTON_PRESS 1000 |})
    as (self' & Hbegan & _ & _ & Hflag & _).
  - vm_compute. reflexivity.
  - vm_compute. reflexivity.
  - reflexivity.
  - lia.
  - exists self'. split; [exact Hbegan | exact Hflag].
Defined.

Lemma dnd_set_state_same_or_terminal new_state (self : Dnd.ShellDndStartGesture) :
  is_terminal new_state = true ->
  clutter_gesture_set_state new_state self = self
  \/ is_terminal (state (Dnd.parent (clutter_gesture_set_state new_state self))) = true.
Proof.
  intros Hterminal.
  destruct (valid_transition (state (Dnd.parent self)) new_state) eqn:Hvalid.
  - right. by rewrite dnd_set_state_parent, transition_state, Hvalid.
  - left. by apply set_state_invalid.
Qed.

Lemma dnd_start_drag_same_or_terminal start_event self :
  Dnd.shell_dnd_start_gesture_start_drag start_event self = self
  \/ is_terminal
       (state (Dnd.parent (Dnd.shell_dnd_start_gesture_start_drag start_event self)))
     = true.
Proof.
  destruct (clutter_gesture_get_n_points (Dnd.parent self) =? 1)%nat eqn:Hn.
  - apply Nat.eqb_eq in Hn.
    destruct (decide (state (Dnd.parent self) = CLUTTER_GESTURE_STATE_POSSIBLE))
      as [Hpossible | Hpossible].
    + right. by rewrite dnd_start_drag_completes.
    + left. unfold Dnd.shell_dnd_start_gesture_start_drag.
      rewrite Hn. cbn [negb]. by rewrite bool_decide_eq_false_2.
  - left. unfold Dnd.shell_dnd_start_gesture_start_drag. by rewrite Hn.
Qed.

Lemma dnd_dispatch_begin_event drag_threshold scale_factor i self self' :
  points (Dnd.parent self) <> ∅ ->
  Dnd.dispatch drag_threshold scale_factor i self = Ok self' ->
  Dnd.point_begin_event self' = Dnd.point_begin_event self
  \/ is_terminal (state (Dnd.parent self')) = true.
Proof.
  intros Hpoints H.
  destruct i as [point coords event | point coords event | point
                | start_event | b | t].
  - destruct (dnd_second_point_in_stream _ _ _ _ _ _ _ Hpoints H) as [-> | Hstate].
    + by left.
    + right. by rewrite Hstate.
  - simpl in H. case_bool_decide; [| left; by injection H as <-].
    unfold Dnd.point_moved in H.
    destruct (_ && _); [| left; by injection H as <-].
    apply dnd_maybe_start_drag_inv in H as [-> | [-> | [ev ->]]]; [by left .. |].
    destruct (dnd_start_drag_same_or_terminal (Some ev)
                (Dnd.with_parent (update_point point coords event (Dnd.parent self)) self))
      as [-> | Hterminal]; [by left | by right].
  - simpl in H. case_bool_decide; [| left; by injection H as <-].
    injection H as <-. unfold Dnd.point_ended.
    destruct (_ && _); [| by left].
    destruct (dnd_set_state_same_or_terminal CLUTTER_GESTURE_STATE_CANCELLED self)
      as [-> | Hterminal]; [done | by left | by right].
  - simpl in H. injection H as <-.
    destruct (dnd_start_drag_same_or_terminal start_event self) as [-> | Hterminal];
      [by left | by right].
  - simpl in H. injection H as <-. left.
    unfold Dnd.shell_dnd_start_gesture_set_manual_mode. by case_bool_decide.
  - simpl in H. injection H as <-. left.
    unfold Dnd.shell_dnd_start_gesture_set_timeout_threshold. by case_bool_decide.
Qed.

(** X6. At any point of a run at which the begin-event accessor returns
    a copy, that copy is allocated and was never freed; and after any one
    further input the accessor returns either the same copy, still
    allocated, or null with the gesture finished (Cancelled or Completed)
    and no copy left allocated.  A stored begin event is thus neither
    replaced nor dropped while the gesture is in progress, and never
    dangles. *)
Theorem begin_event_kept_until_finished
    (drag_threshold scale_factor : Z) (inputs : list Dnd.Input) (i : Dnd.Input)
    (self self' : Dnd.ShellDndStartGesture) (c : Dnd.EventCopy)
    (Hrun : Dnd.run drag_threshold scale_factor inputs
              Dnd.shell_dnd_start_gesture_init = Ok self)
    (Hbegin : Dnd.shell_dnd_start_gesture_get_point_begin_event self = Some c)
    (Hstep : Dnd.dispatch drag_threshold scale_factor i self = Ok self') :
  (Dnd.copy_id c ∈ Dnd.live (Dnd.event_store self)
   /\ Dnd.copy_id c ∉ Dnd.freed (Dnd.event_store self))
  /\ ((Dnd.shell_dnd_start_gesture_get_point_begin_event self' = Some c
       /\ Dnd.live (Dnd.event_store self') = {[Dnd.copy_id c]})
      \/ (Dnd.shell_dnd_start_gesture_get_point_begin_event self' = None
          /\ is_terminal (state (Dnd.parent self')) = true
          /\ Dnd.live (Dnd.event_store self') = ∅)).
Proof.
  unfold Dnd.shell_dnd_start_gesture_get_point_begin_event in *.
  pose proof (dnd_inv_run _ _ _ _ _ dnd_inv_init Hrun) as Hinv.
  pose proof (dnd_inv_dispatch _ _ _ _ _ Hinv Hstep) as Hinv'.
  split.
  - destruct Hinv as (_ & (Hlive & _ & Hfreed & _) & _).
    rewrite Hbegin in Hlive. cbn [owned] in Hlive.
    assert (Dnd.copy_id c ∈ Dnd.live (Dnd.event_store self)) by set_solver.
    split; [done |]. rewrite Hfreed. tauto.
  - assert (Hpoints : points (Dnd.parent self) <> ∅).
    { destruct Hinv as (_ & _ & _ & Hnone & _). intros Hempty.
      specialize (Hnone Hempty). congruence. }
    destruct (dnd_dispatch_begin_event _ _ _ _ _ Hpoints Hstep) as [Hsame | Hterminal].
    + left. rewrite Hsame, Hbegin. split; [done |].
      destruct Hinv' as (_ & (Hlive & _) & _).
      by rewrite Hlive, Hsame, Hbegin.
    + right. destruct (dnd_inv_finished _ Hinv' Hterminal) as (Hnone & _ & Hlive & _).
      done.
Qed.

Lemma begin_event_kept_until_finished_witness :
  let c := {| Dnd.copy_id := 0;
              Dnd.copy_event := MoreSamples.mouse_event CLUTTER_BUTTON_PRESS 1000 |} in
  (Dnd.copy_id c ∈ Dnd.live (Dnd.event_store MoreSamples.dnd_button_down)
   /\ Dnd.copy_id c ∉ Dnd.freed (Dnd.event_store MoreSamples.dnd_button_down))
  /\ ((Dnd.shell_dnd_start_gesture_get_point_begin_event
         (MoreSamples.dnd_pointer_at 103 100 1010) = Some c
       /\ Dnd.live (Dnd.event_store (MoreSamples.dnd_pointer_at 103 100 1010))
          = {[Dnd.copy_id c]})
      \/ (Dnd.shell_dnd_start_gesture_get_point_begin_event
            (MoreSamples.dnd_pointer_at 103 100 1010) = None
          /\ is_terminal (state (Dnd.parent (MoreSamples.dnd_pointer_at 103 100 1010)))
             = true
          /\ Dnd.live (Dnd.event_store (MoreSamples.dnd_pointer_at 103 100 1010)) = ∅)).
Proof.
  apply (begin_event_kept_until_finished 8 1
           [Dnd.PointBegan 0 (Samples.at_px 100 100)
              (MoreSamples.mouse_event CLUTTER_BUTTON_PRESS 1000)]
           (Dnd.PointMoved 0 (Samples.at_px 103 100)
              (MoreSamples.mouse_event CLUTTER_MOTION 1010))
           MoreSamples.dnd_button_down).
  - vm_compute. reflexivity.
  - vm_compute. reflexivity.
  - vm_compute. reflexivity.
Defined.

(** ** The setters and the properties of the drag-start recognizer *)

Lemma last_cons_default {A : Type} (values : list A) : forall v d,
  List.last (v :: values) d = List.last values v.
Proof.
  induction values as [| v' values IH]; intros v d; [done |].
  change (List.last (v :: v' :: values) d) with (List.last (v' :: values) d).
  by rewrite !IH.
Qed.

Lemma replicate_app_cons {A : Type} (n : nat) (x : A) (l : list A) :
  replicate n x ++ x :: l = x :: replicate n x ++ l.
Proof. induction n as [| n IH]; [done |]. cbn. by rewrite IH. Qed.

Lemma dnd_set_manual_mode_all values : forall self,
  let self' := fold_left (fun self b => Dnd.shell_dnd_start_gesture_set_manual_mode b self)
                 values self in
  Dnd.shell_dnd_start_gesture_get_manual_mode self' = List.last values (Dnd.manual_mode self)
  /\ emitted (Dnd.parent self')
     = replicate (changes (Dnd.manual_mode self) values) (Notify PROP_MANUAL_MODE)
       ++ emitted (Dnd.parent self)
  /\ state (Dnd.parent self') = state (Dnd.parent self)
  /\ points (Dnd.parent self') = points (Dnd.parent self)
  /\ Dnd.point_begin_event self' = Dnd.point_begin_event self
  /\ Dnd.event_store self' = Dnd.event_store self
  /\ Dnd.timeout_threshold_ms self' = Dnd.timeout_threshold_ms self.
Proof.
  induction values as [| b values IH]; intros self; [done |].
  cbn [fold_left changes].
  specialize (IH (Dnd.shell_dnd_start_gesture_set_manual_mode b self)).
  cbv zeta in IH |- *.
  destruct IH as (Hlast & Hlog & Hstate & Hpoints & Hbegin & Hstore & Htimeout).
  assert (Hmode : Dnd.manual_mode (Dnd.shell_dnd_start_gesture_set_manual_mode b self) = b).
  { unfold Dnd.shell_dnd_start_gesture_set_manual_mode. by case_bool_decide. }
  rewrite Hmode in Hlast, Hlog.
  rewrite Hlast, Hlog, Hstate, Hpoints, Hbegin, Hstore, Htimeout.
  split; [by rewrite last_cons_default |].
  unfold Dnd.shell_dnd_start_gesture_set_manual_mode.
  destruct (decide (Dnd.manual_mode self = b)) as [Hsame | Hchanged].
  - by rewrite bool_decide_eq_true_2.
  - rewrite bool_decide_eq_false_2 by done. cbn.
    split; [| done]. unfold emit. cbn. apply replicate_app_cons.
Qed.

Lemma dnd_set_timeout_threshold_all values : forall self,
  let self' := fold_left
                 (fun self t => Dnd.shell_dnd_start_gesture_set_timeout_threshold t self)
                 values self in
  Dnd.shell_dnd_start_gesture_get_timeout_threshold self'
  = List.last values (Dnd.timeout_threshold_ms self)
  /\ emitted (Dnd.parent self')
     = replicate (changes (Dnd.timeout_threshold_ms self) values)
         (Notify PROP_TIMEOUT_THRESHOLD)
       ++ emitted (Dnd.parent self)
  /\ state (Dnd.parent self') = state (Dnd.parent self)
  /\ points (Dnd.parent self') = points (Dnd.parent self)
  /\ Dnd.point_begin_event self' = Dnd.point_begin_event self
  /\ Dnd.event_store self' = Dnd.event_store self
  /\ Dnd.manual_mode self' = Dnd.manual_mode self.
Proof.
  induction values as [| t values IH]; intros self; [done |].
  cbn [fold_left changes].
  specialize (IH (Dnd.shell_dnd_start_gesture_set_timeout_threshold t self)).
  cbv zeta in IH |- *.
  destruct IH as (Hlast & Hlog & Hstate & Hpoints & Hbegin & Hstore & Hmanual).
  assert (Htimeout :
    Dnd.timeout_threshold_ms (Dnd.shell_dnd_start_gesture_set_timeout_threshold t self) = t).
  { unfold Dnd.shell_dnd_start_gesture_set_timeout_threshold. by case_bool_decide. }
  rewrite Htimeout in Hlast, Hlog.
  rewrite Hlast, Hlog, Hstate, Hpoints, Hbegin, Hstore, Hmanual.
  split; [by rewrite last_cons_default |].
  unfold Dnd.shell_dnd_start_gesture_set_timeout_threshold.
  destruct (decide (Dnd.timeout_threshold_ms self = t)) as [Hsame | Hchanged].
  - by rewrite bool_decide_eq_true_2.
  - rewrite bool_decide_eq_false_2 by done. cbn.
    split; [| done]. unfold emit. cbn. apply replicate_app_cons.
Qed.

(** X7. The two setters of the drag-start recognizer, called any number
    of times in a row: the getter returns the last value set (the value
    held before, if there was no call), the log gains one notification of
    the property for each call whose value differs from the value held at
    that call and nothing else, and neither the state of the gesture, its
    points, the stored begin event nor the other property changes. *)
Theorem setters_notify_each_change
    (self : Dnd.ShellDndStartGesture) (modes : list bool) (timeouts : list Z) :
  let self1 := fold_left (fun self b => Dnd.shell_dnd_start_gesture_set_manual_mode b self)
                 modes self in
  let self2 := fold_left
                 (fun self t => Dnd.shell_dnd_start_gesture_set_timeout_threshold t self)
                 timeouts self1 in
  Dnd.shell_dnd_start_gesture_get_manual_mode self2 = List.last modes (Dnd.manual_mode self)
  /\ Dnd.shell_dnd_start_gesture_get_timeout_threshold self2
     = List.last timeouts (Dnd.timeout_threshold_ms self)
  /\ emitted (Dnd.parent self2)
     = replicate (changes (Dnd.timeout_threshold_ms self) timeouts)
         (Notify PROP_TIMEOUT_THRESHOLD)
       ++ replicate (changes (Dnd.manual_mode self) modes) (Notify PROP_MANUAL_MODE)
       ++ emitted (Dnd.parent self)
  /\ state (Dnd.parent self2) = state (Dnd.parent self)
  /\ points (Dnd.parent self2) = points (Dnd.parent self)
  /\ Dnd.shell_dnd_start_gesture_get_point_begin_event self2
     = Dnd.shell_dnd_start_gesture_get_point_begin_event self
  /\ Dnd.event_store self2 = Dnd.event_store self.
Proof.
  intros self1 self2.
  destruct (dnd_set_manual_mode_all modes self)
    as (Hmode & Hlog & Hstate & Hpoints & Hbegin & Hstore & Htimeout).
  destruct (dnd_set_timeout_threshold_all timeouts self1)
    as (Htimeout' & Hlog' & Hstate' & Hpoints' & Hbegin' & Hstore' & Hmode').
  fold self1 in Hmode, Hlog, Hstate, Hpoints, Hbegin, Hstore, Htimeout.
  fold self2 in Hmode', Hlog', Hstate', Hpoints', Hbegin', Hstore', Htimeout'.
  unfold Dnd.shell_dnd_start_gesture_get_point_begin_event,
    Dnd.shell_dnd_start_gesture_get_manual_mode in *.
  rewrite Hmode', Htimeout', Hlog', Hstate', Hpoints', Hbegin', Hstore'.
  rewrite Hmode, Htimeout, Hlog, Hstate, Hpoints, Hbegin, Hstore. done.
Qed.

(** X8. The property functions of the drag-start recognizer: setting
    "manual-mode" (id 1) to a boolean or "timeout-threshold" (id 2) to an
    unsigned integer and reading the property back gives that value with no
    warning, and the object is the one the setter of the property gives;
    any other property id warns, and then setting leaves the object as it
    is and reading writes no value. *)
Theorem property_set_then_get
    (self : Dnd.ShellDndStartGesture) (prop_id : nat) (value : GValue)
    (Htyped : match prop_id, value with
              | 1%nat, GValueBoolean _ | 2%nat, GValueUInt _ => True
              | 1%nat, _ | 2%nat, _ => False
              | _, _ => True
              end) :
  let (self', warned) := DndGObject.shell_dnd_start_gesture_set_property prop_id value self in
  if bool_decide (prop_id = 1%nat \/ prop_id = 2%nat) then
    warned = false
    /\ DndGObject.shell_dnd_start_gesture_get_property prop_id self' = (Some value, false)
    /\ self' = (if bool_decide (prop_id = 1%nat)
                then Dnd.shell_dnd_start_gesture_set_manual_mode
                       (g_value_get_boolean value) self
                else Dnd.shell_dnd_start_gesture_set_timeout_threshold
                       (g_value_get_uint value) self)
  else
    warned = true /\ self' = self
    /\ DndGObject.shell_dnd_start_gesture_get_property prop_id self = (None, true).
Proof.
  destruct prop_id as [| [| [| prop_id]]]; cbn; try done.
  - destruct value as [b | |]; try done.
    repeat split. unfold DndGObject.shell_dnd_start_gesture_get_property. cbn.
    unfold Dnd.shell_dnd_start_gesture_set_manual_mode,
      Dnd.shell_dnd_start_gesture_get_manual_mode.
    case_bool_decide; cbn; congruence.
  - destruct value as [| t |]; try done.
    repeat split. unfold DndGObject.shell_dnd_start_gesture_get_property. cbn.
    unfold Dnd.shell_dnd_start_gesture_set_timeout_threshold,
      Dnd.shell_dnd_start_gesture_get_timeout_threshold.
    case_bool_decide; cbn; congruence.
Qed.

Lemma property_set_then_get_witness :
  DndGObject.shell_dnd_start_gesture_get_property 2
    (fst (DndGObject.shell_dnd_start_gesture_set_property 2 (GValueUInt 500)
            Dnd.shell_dnd_start_gesture_init))
  = (Some (GValueUInt 500), false).
Proof.
  pose proof (property_set_then_get Dnd.shell_dnd_start_gesture_init 2 (GValueUInt 500) I)
    as H.
  destruct (DndGObject.shell_dnd_start_gesture_set_property 2 (GValueUInt 500)
              Dnd.shell_dnd_start_gesture_init) as [self' warned].
  exact (proj1 (proj2 H)).
Defined.

(** * Further properties of the edge-drag recognizer *)

(** X9. The first point of a sequence begins in the edge band, less than
    20px inside the configured edge of its monitor, on a recognizer whose
    cancel timeout is not scheduled: [point_began] schedules the timeout,
    for this point and with an interval of 200ms, under an id that is not
    0 and was never handed out before; the source is attached, and neither
    the state of the gesture nor the log changes. *)
Theorem began_in_band_arms_timeout
    (display : EdgeDrag.MetaDisplay) (self : EdgeDrag.ShellEdgeDragGesture)
    (point : nat) (p : GesturePoint) (m : EdgeDrag.MtkRectangle)
    (Hp : points (EdgeDrag.parent self) !! point = Some p)
    (Hone : clutter_gesture_get_n_points (EdgeDrag.parent self) = 1%nat)
    (Hm : EdgeDrag.get_monitor_for_coords display (coords_abs p) = Some m)
    (Hband : (edge_distance (EdgeDrag.side self) m (coords_abs p) < 20)%Q)
    (Hidle : EdgeDrag.cancel_timeout_id self = 0%nat) :
  exists self',
    EdgeDrag.point_began display point self = Ok self'
    /\ EdgeDrag.cancel_timeout_point self' = point
    /\ EdgeDrag.cancel_timeout_id self'
       = S (EdgeDrag.last_source_id (EdgeDrag.main_context self))
    /\ EdgeDrag.sources (EdgeDrag.main_context self')
       = <[EdgeDrag.cancel_timeout_id self' := 200%Z]>
           (EdgeDrag.sources (EdgeDrag.main_context self))
    /\ EdgeDrag.last_source_id (EdgeDrag.main_context self')
       = EdgeDrag.cancel_timeout_id self'
    /\ EdgeDrag.parent self' = EdgeDrag.parent self
    /\ EdgeDrag.side self' = EdgeDrag.side self.
Proof.
  exists (edge_arm_timeout point self). split; [| done].
  unfold EdgeDrag.point_began. cbv zeta. rewrite Hone. cbn [Nat.ltb Nat.leb].
  rewrite (is_near_monitor_edge_spec display self point p m Hp Hm). cbn [rbind].
  apply Qltb_true in Hband. rewrite Hband. cbn [negb].
  rewrite Hidle. done.
Qed.

Lemma began_in_band_arms_timeout_witness :
  exists self',
    EdgeDrag.point_began Samples.one_monitor_display 0 (Samples.edge_registered 10)
    = Ok self'
    /\ EdgeDrag.cancel_timeout_point self' = 0%nat
    /\ EdgeDrag.cancel_timeout_id self' = 1%nat.
Proof.
  destruct (began_in_band_arms_timeout Samples.one_monitor_display
              (Samples.edge_registered 10) 0
              (moved_point (Samples.at_px 500 10) (Samples.at_px 500 10)
                 (Samples.touch_event CLUTTER_TOUCH_BEGIN 1000))
              Samples.one_monitor)
    as (self' & Hbegan & Hpoint & Hid & _).
  - vm_compute. reflexivity.
  - vm_compute. reflexivity.
  - vm_compute. reflexivity.
  - vm_compute. reflexivity.
  - vm_compute. reflexivity.
  - exists self'. split; [exact Hbegan |]. split; [exact Hpoint | exact Hid].
Defined.

(** ** What can go wrong in a run *)

Lemma is_near_monitor_edge_error display self point p e :
  points (EdgeDrag.parent self) !! point = Some p ->
  EdgeDrag.is_near_monitor_edge display self point = Err e ->
  e = AssertNotReached
  /\ EdgeDrag.get_monitor_for_coords display (coords_abs p) = None.
Proof.
  intros Hp. unfold EdgeDrag.is_near_monitor_edge.
  rewrite (get_point_Some _ _ _ Hp). cbn [rbind].
  destruct (EdgeDrag.get_monitor_for_coords display (coords_abs p)); [done |].
  by intros [= <-].
Qed.

Lemma passes_distance_needed_error display self point p e :
  points (EdgeDrag.parent self) !! point = Some p ->
  EdgeDrag.passes_distance_needed display self point = Err e ->
  e = AssertNotReached
  /\ EdgeDrag.get_monitor_for_coords display (begin_coords_abs p) = None.
Proof.
  intros Hp. unfold EdgeDrag.passes_distance_needed.
  rewrite (get_point_Some _ _ _ Hp). cbn [rbind].
  destruct (EdgeDrag.get_monitor_for_coords display (begin_coords_abs p)); [done |].
  by intros [= <-].
Qed.

Lemma edge_point_moved_error display self point p e :
  points (EdgeDrag.parent self) !! point = Some p ->
  EdgeDrag.point_moved display point self = Err e ->
  e = AssertNotReached
  /\ (EdgeDrag.get_monitor_for_coords display (coords_abs p) = None
      \/ EdgeDrag.get_monitor_for_coords display (begin_coords_abs p) = None).
Proof.
  intros Hp. unfold EdgeDrag.point_moved.
  rewrite (exceeds_cancel_threshold_spec self point p Hp). cbn [rbind].
  destruct (Qltb 100 _); [done |].
  destruct (bool_decide (state (EdgeDrag.parent self) = CLUTTER_GESTURE_STATE_POSSIBLE)).
  - destruct (EdgeDrag.is_near_monitor_edge display self point) as [near | e1] eqn:Hnear;
      cbn [rbind].
    2: { intros [= <-]. destruct (is_near_monitor_edge_error _ _ _ _ _ Hp Hnear).
         eauto. }
    assert (exists self1,
      (if negb near
       then Ok (clutter_gesture_set_state CLUTTER_GESTURE_STATE_RECOGNIZING self)
       else Ok self) = Ok self1
      /\ points (EdgeDrag.parent self1) !! point = Some p) as (self1 & -> & Hp1).
    { destruct near; cbn [negb]; eexists; (split; [done |]); [done |].
      by rewrite edge_set_state_parent, transition_points. }
    cbn [rbind]. case_bool_decide; [| done].
    rewrite (get_point_Some _ _ _ Hp1). cbn [rbind].
    destruct (graphene_point_distance _ _).
    match goal with
    | |- context [EdgeDrag.passes_distance_needed display ?s point] =>
        destruct (EdgeDrag.passes_distance_needed display s point)
          as [passes | e1] eqn:Hpasses
    end; cbn [rbind]; [by destruct passes |].
    intros [= <-].
    apply (passes_distance_needed_error _ _ _ p) in Hpasses as [-> Hnone]; [eauto |].
    by destruct (EdgeDrag.side self1).
  - cbn [rbind]. case_bool_decide; [| done].
    rewrite (get_point_Some _ _ _ Hp). cbn [rbind].
    destruct (graphene_point_distance _ _).
    match goal with
    | |- context [EdgeDrag.passes_distance_needed display ?s point] =>
        destruct (EdgeDrag.passes_distance_needed display s point)
          as [passes | e1] eqn:Hpasses
    end; cbn [rbind]; [by destruct passes |].
    intros [= <-].
    apply (passes_distance_needed_error _ _ _ p) in Hpasses as [-> Hnone]; [eauto |].
    by destruct (EdgeDrag.side self).
Qed.

(** An input fails on a position it carries, or on the begin or the
    current position of a tracked point. *)
Lemma edge_dispatch_error display i self e :
  edge_inv self ->
  EdgeDrag.dispatch display i self = Err e ->
  e = AssertNotReached
  /\ exists c,
      EdgeDrag.get_monitor_for_coords display c = None
      /\ (c ∈ positions [i]
          \/ exists point p,
              points (EdgeDrag.parent self) !! point = Some p
              /\ (c = coords_abs p \/ c = begin_coords_abs p)).
Proof.
  intros Hinv H.
  assert (Hassert : e <> AssertFailed).
  { intros ->. by apply (edge_dispatch_no_assert_failure display i self Hinv). }
  destruct i as [point coords event | point coords event | point | id | s];
    simpl in H; try done.
  - destruct (_ && _); [| done].
    set (g := register_point _ _ _ _) in *.
    assert (Hp : points (EdgeDrag.parent (EdgeDrag.with_parent g self)) !! point
                 = Some (moved_point coords coords event)).
    { subst g. simpl. by rewrite lookup_insert_eq. }
    unfold EdgeDrag.point_began in H. cbv zeta in H.
    destruct (1 <? _)%nat; cbn [rbind] in H; [done |].
    destruct (EdgeDrag.is_near_monitor_edge display _ point) as [near | e1] eqn:Hnear;
      cbn [rbind] in H.
    + destruct near; cbn [negb] in H; [| done].
      destruct (_ =? 0)%nat; [done | congruence].
    + injection H as <-.
      destruct (is_near_monitor_edge_error _ _ _ _ _ Hp Hnear) as [-> Hnone].
      split; [done |]. exists coords. split; [done |]. left. set_solver.
  - case_bool_decide as Hpoint; [| done].
    destruct Hpoint as [p Hp].
    eapply edge_point_moved_error in H as [-> Hnone].
    2: { cbn [EdgeDrag.parent EdgeDrag.with_parent].
         apply update_point_lookup. by rewrite Hp. }
    rewrite Hp in Hnone. cbn [coords_abs begin_coords_abs] in Hnone.
    split; [done |]. destruct Hnone as [Hnone | Hnone].
    + exists coords. split; [done |]. left. set_solver.
    + exists (begin_coords_abs p). split; [done |]. right. eauto.
  - by case_bool_decide.
  - unfold EdgeDrag.g_main_dispatch in H.
    destruct (EdgeDrag.sources (EdgeDrag.main_context self) !! id) eqn:Hid; [| done].
    assert (Hwatched :
      is_Some (points (EdgeDrag.parent self) !! EdgeDrag.cancel_timeout_point self)).
    { destruct Hinv as (Htimer & _ & _ & Hwatched). apply Hwatched. intros Hzero.
      unfold timer_consistent in Htimer. rewrite Hzero in Htimer.
      by rewrite Htimer in Hid. }
    destruct Hwatched as [p Hp].
    unfold EdgeDrag.on_cancel_timeout in H.
    destruct (EdgeDrag.is_near_monitor_edge display self _) as [near | e1] eqn:Hnear;
      cbn [rbind] in H; [done |].
    injection H as <-.
    destruct (is_near_monitor_edge_error _ _ _ _ _ Hp Hnear) as [-> Hnone].
    split; [done |]. exists (coords_abs p). split; [done |]. right. eauto.
Qed.

Lemma edge_run_error display inputs : forall self e,
  edge_inv self ->
  EdgeDrag.run display inputs self = Err e ->
  e = AssertNotReached
  /\ exists c, EdgeDrag.get_monitor_for_coords display c = None.
Proof.
  induction inputs as [| i inputs IH]; intros self e Hinv Hrun; [done |].
  simpl in Hrun.
  destruct (EdgeDrag.dispatch display i self) as [self1 | e1] eqn:Hstep;
    cbn [rbind] in Hrun.
  - eapply IH; [| done]. by eapply edge_inv_dispatch.
  - injection Hrun as <-.
    destruct (edge_dispatch_error _ _ _ _ Hinv Hstep) as [-> (c & Hnone & _)].
    eauto.
Qed.

(** The callbacks do not touch the points of the gesture. *)
Lemma edge_point_moved_points display point self self' :
  EdgeDrag.point_moved display point self = Ok self' ->
  points (EdgeDrag.parent self') = points (EdgeDrag.parent self).
Proof.
  intros (p & _ & [[_ ->] | (_ & self1 & Hself1 & Hself')])%edge_point_moved_inv.
  { by rewrite edge_set_state_parent, transition_points. }
  assert (Hpoints1 : points (EdgeDrag.parent self1) = points (EdgeDrag.parent self)).
  { destruct Hself1 as [-> | ->]; [done |].
    by rewrite edge_set_state_parent, transition_points. }
  destruct Hself' as [-> | (_ & [-> | ->])]; [done | done |].
  by rewrite edge_set_state_parent, transition_points.
Qed.

Lemma points_from_more cs cs' g :
  points_from cs g -> points_from (cs ++ cs') g.
Proof. intros Hfrom point p Hp. destruct (Hfrom point p Hp). set_solver. Qed.

Lemma points_from_same cs g g' :
  points g' = points g -> points_from cs g -> points_from cs g'.
Proof. intros Hsame Hfrom point p. rewrite Hsame. apply Hfrom. Qed.

Lemma edge_dispatch_positions display i self self' cs :
  points_from cs (EdgeDrag.parent self) ->
  EdgeDrag.dispatch display i self = Ok self' ->
  points_from (cs ++ positions [i]) (EdgeDrag.parent self').
Proof.
  intros Hfrom H.
  destruct i as [point coords event | point coords event | point | id | s];
    simpl in H.
  - destruct (_ && _); [| injection H as <-; by apply points_from_more].
    set (g := register_point _ _ _ _) in *.
    assert (Hg : points_from (cs ++ positions [EdgeDrag.PointBegan point coords event])
                   g).
    { intros point' p'. subst g. cbn [register_point points].
      replace (points (if is_terminal (state (EdgeDrag.parent self))
                       then rearm (EdgeDrag.parent self) else EdgeDrag.parent self))
        with (points (EdgeDrag.parent self)) by (by destruct (is_terminal _)).
      intros [[_ <-] | [_ Hold]]%lookup_insert_Some.
      - cbn. set_solver.
      - destruct (Hfrom _ _ Hold). set_solver. }
    apply edge_point_began_inv in H as [-> | (_ & _ & ->)]; [| done].
    eapply points_from_same; [| exact Hg].
    by rewrite edge_set_state_parent, transition_points.
  - case_bool_decide; [| injection H as <-; by apply points_from_more].
    apply edge_point_moved_points in H.
    eapply points_from_same; [exact H |].
    intros point' p'. cbn [EdgeDrag.parent EdgeDrag.with_parent update_point points].
    intros [[_ (p & Hp & ->)] | [_ Hold]]%lookup_alter_Some.
    + destruct (Hfrom _ _ Hp). cbn. set_solver.
    + destruct (Hfrom _ _ Hold). set_solver.
  - case_bool_decide; injection H as <-; [| by apply points_from_more].
    intros point' p'. unfold EdgeDrag.point_ended.
    cbn [EdgeDrag.parent EdgeDrag.with_parent remove_point points].
    rewrite edge_set_state_parent, transition_points.
    intros [_ Hold]%lookup_delete_Some. destruct (Hfrom _ _ Hold). set_solver.
  - apply points_from_more.
    apply edge_main_dispatch_inv in H as [-> | (_ & self1 & [-> | ->] & ->)];
      [done | done |].
    eapply points_from_same; [| exact Hfrom]. simpl.
    by rewrite edge_set_state_parent, transition_points.
  - injection H as <-. apply points_from_more.
    eapply points_from_same; [| exact Hfrom].
    unfold EdgeDrag.shell_edge_drag_gesture_set_side. by repeat case_match.
Qed.

Lemma positions_cons i inputs :
  positions (i :: inputs) = positions [i] ++ positions inputs.
Proof. unfold positions. cbn [flat_map]. by rewrite app_nil_r. Qed.

Lemma edge_run_error_position display inputs : forall self cs e,
  edge_inv self ->
  points_from cs (EdgeDrag.parent self) ->
  EdgeDrag.run display inputs self = Err e ->
  e = AssertNotReached
  /\ exists c,
      c ∈ cs ++ positions inputs
      /\ EdgeDrag.get_monitor_for_coords display c = None.
Proof.
  induction inputs as [| i inputs IH]; intros self cs e Hinv Hfrom Hrun; [done |].
  simpl in Hrun.
  rewrite (positions_cons i inputs).
  destruct (EdgeDrag.dispatch display i self) as [self1 | e1] eqn:Hstep;
    cbn [rbind] in Hrun.
  - destruct (IH self1 (cs ++ positions [i]) e) as [-> (c & Hc & Hnone)].
    + by eapply edge_inv_dispatch.
    + by eapply edge_dispatch_positions.
    + done.
    + split; [done |]. exists c. split; [| done]. set_solver.
  - injection Hrun as <-.
    destruct (edge_dispatch_error _ _ _ _ Hinv Hstep)
      as [-> (c & Hnone & [Hc | (point & p & Hp & Hc)])].
    + split; [done |]. exists c. split; [| done]. set_solver.
    + split; [done |]. exists c. split; [| done].
      destruct (Hfrom _ _ Hp). destruct Hc as [-> | ->]; set_solver.
Qed.

(** X10. A run of the edge-drag recognizer, from the initial recognizer
    and on any inputs, goes wrong in one way only: [g_assert_not_reached],
    and then one of the positions the inputs carry (where a point began or
    moved to) is on no monitor of the display.  The assertion of
    [point_began] that no cancel timeout is scheduled never fails, and no
    callback asks the framework for a point it does not track. *)
Theorem run_fails_only_off_monitor
    (display : EdgeDrag.MetaDisplay) (inputs : list EdgeDrag.Input) :
  (exists self,
      EdgeDrag.run display inputs EdgeDrag.shell_edge_drag_gesture_init = Ok self)
  \/ (EdgeDrag.run display inputs EdgeDrag.shell_edge_drag_gesture_init
      = Err AssertNotReached
      /\ exists c,
          c ∈ positions inputs
          /\ EdgeDrag.get_monitor_for_coords display c = None).
Proof.
  destruct (EdgeDrag.run display inputs EdgeDrag.shell_edge_drag_gesture_init)
    as [self | e] eqn:Hrun; [left; by exists self |].
  right.
  destruct (edge_run_error_position display inputs _ [] e edge_inv_init)
    as [-> Hnone]; [| done | done].
  intros point p Hp.
  change (points (EdgeDrag.parent EdgeDrag.shell_edge_drag_gesture_init))
    with (∅ : gmap nat GesturePoint) in Hp.
  by rewrite lookup_empty in Hp.
Qed.

(** X11. On a display that has a monitor for every position (the index
    it returns is never -1), every run of the edge-drag recognizer returns:
    no assertion fails, whatever the inputs. *)
Theorem run_returns_when_monitors_cover
    (display : EdgeDrag.MetaDisplay) (inputs : list EdgeDrag.Input)
    (Hcover : forall rect,
        EdgeDrag.meta_display_get_monitor_index_for_rect display rect <> (-1)%Z) :
  exists self,
    EdgeDrag.run display inputs EdgeDrag.shell_edge_drag_gesture_init = Ok self
    /\ edge_inv self.
Proof.
  destruct (EdgeDrag.run display inputs EdgeDrag.shell_edge_drag_gesture_init)
    as [self | e] eqn:Hrun.
  - exists self. split; [done |]. by eapply edge_inv_run; [apply edge_inv_init |].
  - destruct (edge_run_error _ _ _ _ edge_inv_init Hrun) as [_ [c Hnone]].
    unfold EdgeDrag.get_monitor_for_coords in Hnone.
    destruct (_ =? -1)%Z eqn:Hindex; [| done].
    apply Z.eqb_eq in Hindex. by apply Hcover in Hindex.
Qed.

Lemma run_returns_when_monitors_cover_witness :
  exists self,
    EdgeDrag.run Samples.one_monitor_display
      [EdgeDrag.PointBegan 0 (Samples.at_px 500 10)
         (Samples.touch_event CLUTTER_TOUCH_BEGIN 1000);
       EdgeDrag.TimeoutFired 1]
      EdgeDrag.shell_edge_drag_gesture_init = Ok self
    /\ edge_inv self.
Proof.
  apply (run_returns_when_monitors_cover Samples.one_monitor_display).
  intros rect. vm_compute. discriminate.
Defined.

(** ** Moves in the edge band *)

Lemma edge_moves_in_band display m point c0 moves :
  forall self p,
    points (EdgeDrag.parent self) !! point = Some p ->
    begin_coords_abs p = c0 ->
    state (EdgeDrag.parent self) = CLUTTER_GESTURE_STATE_POSSIBLE ->
    Forall (fun ce => stays_in_band display (EdgeDrag.side self) m c0 (fst ce)) moves ->
    exists g',
      EdgeDrag.run display
        (map (fun ce => EdgeDrag.PointMoved point (fst ce) (snd ce)) moves) self
      = Ok (EdgeDrag.with_parent g' self)
      /\ state g' = CLUTTER_GESTURE_STATE_POSSIBLE
      /\ emitted g' = emitted (EdgeDrag.parent self)
      /\ points g' !! point
         = Some (fold_left (fun _ ce => moved_point c0 (fst ce) (snd ce)) moves p).
Proof.
  induction moves as [| [c e] moves IH]; intros self p Hp Hbegin Hpossible Hband.
  - exists (EdgeDrag.parent self). by destruct self.
  - apply Forall_cons in Hband as [(Hm & Hnear & Hd) Hband]. cbn [fst snd] in *.
    cbn [map fst snd EdgeDrag.run EdgeDrag.dispatch fold_left].
    rewrite bool_decide_eq_true_2 by (by rewrite Hp).
    set (self_u := EdgeDrag.with_parent _ self).
    assert (Hp_u : points (EdgeDrag.parent self_u) !! point = Some (moved_point c0 c e)).
    { subst self_u. cbn [EdgeDrag.parent EdgeDrag.with_parent].
      rewrite update_point_lookup by (by rewrite Hp). by rewrite Hp, Hbegin. }
    assert (Hmoved : EdgeDrag.point_moved display point self_u = Ok self_u).
    { unfold EdgeDrag.point_moved.
      rewrite (exceeds_cancel_threshold_spec self_u point _ Hp_u). cbn [rbind].
      replace (Qltb 100 _) with false
        by (symmetry; apply Qltb_false, measured_displacement_le_100, Hd).
      rewrite bool_decide_eq_true_2 by done.
      rewrite (is_near_monitor_edge_spec display self_u point _ m Hp_u Hm).
      cbn [rbind]. apply Qltb_true in Hnear.
      replace (Qltb _ 20) with true by done. cbn [negb rbind].
      by rewrite bool_decide_eq_false_2 by (subst self_u; simpl; congruence). }
    rewrite Hmoved. cbn [rbind].
    destruct (IH self_u (moved_point c0 c e) Hp_u eq_refl Hpossible Hband)
      as (g' & Hrun & Hstate & Hemitted & Hpoint).
    exists g'. by rewrite Hrun.
Qed.

(** X12. A gesture that is Possible, and a sequence of moves of a tracked
    point that all stay in the edge band of the same monitor (less than
    20px inside the edge) and within 100px of where the point began:
    nothing changes but the coordinates and the event of that point.  The
    gesture stays Possible, nothing is emitted, and the cancel timeout is
    as it was, still scheduled if it was. *)
Theorem moves_in_band_keep_waiting
    (display : EdgeDrag.MetaDisplay) (m : EdgeDrag.MtkRectangle)
    (self : EdgeDrag.ShellEdgeDragGesture) (point : nat) (p : GesturePoint)
    (moves : list (graphene_point_t * ClutterEvent))
    (Hp : points (EdgeDrag.parent self) !! point = Some p)
    (Hpossible : state (EdgeDrag.parent self) = CLUTTER_GESTURE_STATE_POSSIBLE)
    (Hband : Forall (fun ce =>
                       stays_in_band display (EdgeDrag.side self) m
                         (begin_coords_abs p) (fst ce)) moves) :
  exists g',
    EdgeDrag.run display
      (map (fun ce => EdgeDrag.PointMoved point (fst ce) (snd ce)) moves) self
    = Ok (EdgeDrag.with_parent g' self)
    /\ state g' = CLUTTER_GESTURE_STATE_POSSIBLE
    /\ emitted g' = emitted (EdgeDrag.parent self)
    /\ points g' !! point
       = Some (fold_left (fun _ ce => moved_point (begin_coords_abs p) (fst ce) (snd ce))
                 moves p).
Proof. by eapply edge_moves_in_band. Qed.

Lemma moves_in_band_keep_waiting_witness :
  exists g',
    EdgeDrag.run Samples.one_monitor_display
      [EdgeDrag.PointMoved 0 (Samples.at_px 540 15)
         (Samples.touch_event CLUTTER_TOUCH_UPDATE 1050);
       EdgeDrag.PointMoved 0 (Samples.at_px 700 19)
         (Samples.touch_event CLUTTER_TOUCH_UPDATE 1100)]
      Samples.edge_finger_down
    = Ok (EdgeDrag.with_parent g' Samples.edge_finger_down)
    /\ state g' = CLUTTER_GESTURE_STATE_POSSIBLE.
Proof.
  destruct (moves_in_band_keep_waiting Samples.one_monitor_display Samples.one_monitor
              Samples.edge_finger_down 0
              (moved_point (Samples.at_px 500 10) (Samples.at_px 500 10)
                 (Samples.touch_event CLUTTER_TOUCH_BEGIN 1000))
              [(Samples.at_px 540 15, Samples.touch_event CLUTTER_TOUCH_UPDATE 1050);
               (Samples.at_px 700 19, Samples.touch_event CLUTTER_TOUCH_UPDATE 1100)])
    as (g' & Hrun & Hstate & _).
  - vm_compute. reflexivity.
  - vm_compute. reflexivity.
  - repeat constructor; try intros event; vm_compute; first [reflexivity | discriminate].
  - exists g'. split; [exact Hrun | exact Hstate].
Defined.

(** ** The log of the edge-drag recognizer *)

Lemma edge_log_inv_transition new_state g :
  new_state <> CLUTTER_GESTURE_STATE_COMPLETED ->
  edge_log_inv g -> edge_log_inv (transition new_state g).
Proof.
  intros Hnew [Hlog Hcompleted]. unfold edge_log_inv.
  rewrite transition_progress_values, transition_state.
  split.
  - unfold transition. case_match; [| done]. simpl. by destruct new_state.
  - by case_match.
Qed.

Lemma edge_log_inv_set_state new_state (self : EdgeDrag.ShellEdgeDragGesture) :
  new_state <> CLUTTER_GESTURE_STATE_COMPLETED ->
  edge_log_inv (EdgeDrag.parent self) ->
  edge_log_inv (EdgeDrag.parent (clutter_gesture_set_state new_state self)).
Proof. intros. rewrite edge_set_state_parent. by apply edge_log_inv_transition. Qed.

Lemma edge_log_inv_same_log g g' :
  emitted g' = emitted g ->
  (state g' = CLUTTER_GESTURE_STATE_COMPLETED -> state g = CLUTTER_GESTURE_STATE_COMPLETED) ->
  edge_log_inv g -> edge_log_inv g'.
Proof.
  intros Hlog Hstate [Hcap Hcompleted]. unfold edge_log_inv. rewrite Hlog. auto.
Qed.

Lemma edge_log_inv_progress d (self : EdgeDrag.ShellEdgeDragGesture) :
  edge_log_inv (EdgeDrag.parent self) ->
  edge_log_inv (EdgeDrag.parent (edge_emit_progress d self)).
Proof. intros [Hcap _]. by split. Qed.

Lemma edge_log_inv_completed d (self : EdgeDrag.ShellEdgeDragGesture) :
  state (EdgeDrag.parent self) = CLUTTER_GESTURE_STATE_RECOGNIZING ->
  edge_log_inv (EdgeDrag.parent self) ->
  edge_log_inv
    (EdgeDrag.parent
       (clutter_gesture_set_state CLUTTER_GESTURE_STATE_COMPLETED
          (edge_emit_progress d self))).
Proof.
  intros Hstate [Hcap _]. rewrite edge_set_state_parent.
  unfold edge_log_inv, transition. simpl. rewrite Hstate. simpl. done.
Qed.

Lemma edge_log_inv_dispatch display i self self' :
  edge_log_inv (EdgeDrag.parent self) ->
  EdgeDrag.dispatch display i self = Ok self' ->
  edge_log_inv (EdgeDrag.parent self').
Proof.
  intros Hlog H.
  destruct i as [point coords event | point coords event | point | id | s];
    simpl in H.
  - destruct (_ && _); [| by injection H as <-].
    set (g := register_point _ _ _ _) in *.
    assert (Hg : edge_log_inv (EdgeDrag.parent (EdgeDrag.with_parent g self))).
    { apply (edge_log_inv_same_log (EdgeDrag.parent self)); [| | done].
      - subst g. simpl. by case_match.
      - subst g. simpl. by case_match. }
    apply edge_point_began_inv in H as [-> | (_ & _ & ->)]; [| done].
    by apply edge_log_inv_set_state.
  - case_bool_decide; [| by injection H as <-].
    set (self_u := EdgeDrag.with_parent _ self) in *.
    assert (Hu : edge_log_inv (EdgeDrag.parent self_u)) by done.
    apply edge_point_moved_inv in H
      as (p & Hp & [[_ ->] | (Hd & self1 & Hself1 & Hself')]).
    + by apply edge_log_inv_set_state.
    + assert (Hlog1 : edge_log_inv (EdgeDrag.parent self1)).
      { destruct Hself1 as [-> | ->]; [done |]. by apply edge_log_inv_set_state. }
      destruct Hself' as [-> | (Hrecognizing & [-> | ->])]; [done | |].
      * by apply edge_log_inv_progress.
      * by apply edge_log_inv_completed.
  - case_bool_decide; injection H as <-; [| done].
    unfold EdgeDrag.point_ended.
    apply (edge_log_inv_same_log
             (EdgeDrag.parent
                (clutter_gesture_set_state CLUTTER_GESTURE_STATE_CANCELLED self)));
      [done | done |].
    by apply edge_log_inv_set_state.
  - apply edge_main_dispatch_inv in H as [-> | (_ & self1 & [-> | ->] & ->)];
      [done | done |].
    by apply (edge_log_inv_set_state CLUTTER_GESTURE_STATE_CANCELLED).
  - injection H as <-. unfold EdgeDrag.shell_edge_drag_gesture_set_side.
    repeat case_match; done.
Qed.

(** X13. In every run of the edge-drag recognizer, every transition to
    Completed in the log is a transition from Recognizing that directly
    follows a progress emission, and a gesture that is Completed has
    emitted progress: the gesture never completes from Possible, nor
    without reporting a distance first. *)
Theorem completed_only_after_progress
    (display : EdgeDrag.MetaDisplay) (inputs : list EdgeDrag.Input)
    (self : EdgeDrag.ShellEdgeDragGesture)
    (Hrun : EdgeDrag.run display inputs EdgeDrag.shell_edge_drag_gesture_init = Ok self) :
  completed_after_progress (emitted (EdgeDrag.parent self)) = true
  /\ (state (EdgeDrag.parent self) = CLUTTER_GESTURE_STATE_COMPLETED ->
      progress_values (emitted (EdgeDrag.parent self)) <> []).
Proof.
  change (edge_log_inv (EdgeDrag.parent self)).
  assert (Hinit : edge_log_inv (EdgeDrag.parent EdgeDrag.shell_edge_drag_gesture_init))
    by (by split).
  revert Hinit Hrun. generalize EdgeDrag.shell_edge_drag_gesture_init.
  induction inputs as [| i inputs IH]; intros self0 Hinit Hrun.
  - by injection Hrun as <-.
  - simpl in Hrun.
    destruct (EdgeDrag.dispatch display i self0) as [self1 |] eqn:Hstep;
      cbn [rbind] in Hrun; [| done].
    eapply IH; [| done]. by eapply edge_log_inv_dispatch.
Qed.

Lemma completed_only_after_progress_witness :
  completed_after_progress (emitted (EdgeDrag.parent Samples.edge_after_short_drag)) = true
  /\ (state (EdgeDrag.parent Samples.edge_after_short_drag)
      = CLUTTER_GESTURE_STATE_COMPLETED ->
      progress_values (emitted (EdgeDrag.parent Samples.edge_after_short_drag)) <> []).
Proof.
  apply (completed_only_after_progress Samples.one_monitor_display
           (EdgeDrag.SetSide 0
            :: single_touch 0 (Samples.at_px 500 19)
                 (Samples.touch_event CLUTTER_TOUCH_BEGIN 1000) Samples.edge_short_drag)).
  vm_compute. reflexivity.
Defined.

(** ** The end of a point, and what follows the end of a gesture *)

(** X14. At any point of a run of the edge-drag recognizer, when a
    tracked point ends: a gesture in progress, Possible or Recognizing, is
    Cancelled, whatever the other points, and a finished one keeps its
    state; afterwards the cancel timeout is not scheduled, no source is
    attached and the point is no longer tracked. *)
Theorem point_ended_cancels_edge_drag
    (display : EdgeDrag.MetaDisplay) (inputs : list EdgeDrag.Input)
    (self : EdgeDrag.ShellEdgeDragGesture) (point : nat)
    (Hrun : EdgeDrag.run display inputs EdgeDrag.shell_edge_drag_gesture_init = Ok self)
    (Hp : is_Some (points (EdgeDrag.parent self) !! point)) :
  exists self',
    EdgeDrag.dispatch display (EdgeDrag.PointEnded point) self = Ok self'
    /\ points (EdgeDrag.parent self') = delete point (points (EdgeDrag.parent self))
    /\ state (EdgeDrag.parent self')
       = (if is_terminal (state (EdgeDrag.parent self)) then state (EdgeDrag.parent self)
          else CLUTTER_GESTURE_STATE_CANCELLED)
    /\ emitted (EdgeDrag.parent self')
       = (if is_terminal (state (EdgeDrag.parent self)) then emitted (EdgeDrag.parent self)
          else StateChanged (state (EdgeDrag.parent self)) CLUTTER_GESTURE_STATE_CANCELLED
               :: emitted (EdgeDrag.parent self))
    /\ EdgeDrag.cancel_timeout_id self' = 0%nat
    /\ EdgeDrag.sources (EdgeDrag.main_context self') = ∅.
Proof.
  pose proof (edge_inv_run _ _ _ _ edge_inv_init Hrun) as Hinv.
  eexists. split.
  { simpl. by rewrite bool_decide_eq_true_2. }
  unfold EdgeDrag.point_ended. cbn [EdgeDrag.parent EdgeDrag.with_parent remove_point
    points state emitted EdgeDrag.cancel_timeout_id EdgeDrag.main_context].
  destruct (is_terminal (state (EdgeDrag.parent self))) eqn:Hterminal.
  - rewrite set_state_invalid by (by apply valid_transition_from_terminal).
    destruct Hinv as (Htimer & Hfinished & _).
    repeat split; try done; [by apply Hfinished |].
    unfold timer_consistent in Htimer. by rewrite Hfinished in Htimer.
  - rewrite edge_set_state_terminal
      by (by rewrite ?valid_transition_cancelled, ?Hterminal).
    cbn [EdgeDrag.parent EdgeDrag.cancel_timeout_id EdgeDrag.main_context].
    rewrite transition_points, transition_state.
    unfold transition. rewrite valid_transition_cancelled, Hterminal. cbn.
    repeat split. apply clear_handle_sources. by destruct Hinv.
Qed.

Lemma point_ended_cancels_edge_drag_witness :
  exists self',
    EdgeDrag.dispatch Samples.one_monitor_display (EdgeDrag.PointEnded 0)
      Samples.edge_finger_moved = Ok self'
    /\ state (EdgeDrag.parent self') = CLUTTER_GESTURE_STATE_CANCELLED
    /\ EdgeDrag.sources (EdgeDrag.main_context self') = ∅.
Proof.
  destruct (point_ended_cancels_edge_drag Samples.one_monitor_display
              [EdgeDrag.PointBegan 0 (Samples.at_px 500 10)
                 (Samples.touch_event CLUTTER_TOUCH_BEGIN 1000);
               EdgeDrag.PointMoved 0 (Samples.at_px 500 50)
                 (Samples.touch_event CLUTTER_TOUCH_UPDATE 1050)]
              Samples.edge_finger_moved 0)
    as (self' & Hstep & _ & Hstate & _ & _ & Hsources).
  - vm_compute. reflexivity.
  - vm_compute. eexists. reflexivity.
  - exists self'. split; [exact Hstep |]. split; [exact Hstate | exact Hsources].
Defined.

Lemma edge_follow_up_finished display inputs : forall self,
  edge_inv self ->
  is_terminal (state (EdgeDrag.parent self)) = true ->
  forallb is_edge_follow_up inputs = true ->
  exists g',
    EdgeDrag.run display inputs self = Ok (EdgeDrag.with_parent g' self)
    /\ state g' = state (EdgeDrag.parent self)
    /\ emitted g' = emitted (EdgeDrag.parent self).
Proof.
  induction inputs as [| i inputs IH]; intros self Hinv Hterminal Hinputs.
  - exists (EdgeDrag.parent self). by destruct self.
  - cbn [forallb] in Hinputs. apply andb_true_iff in Hinputs as [Hi Hinputs].
    assert (Hstep : exists g1,
      EdgeDrag.dispatch display i self = Ok (EdgeDrag.with_parent g1 self)
      /\ state g1 = state (EdgeDrag.parent self)
      /\ emitted g1 = emitted (EdgeDrag.parent self)).
    { destruct i as [point coords event | point coords event | point | id | s];
        try done; simpl.
      - case_bool_decide as Hpoint; [| exists (EdgeDrag.parent self); by destruct self].
        destruct Hpoint as [p Hp].
        set (self_u := EdgeDrag.with_parent _ self).
        exists (EdgeDrag.parent self_u). split; [| done].
        assert (Hp_u : is_Some (points (EdgeDrag.parent self_u) !! point)).
        { subst self_u. cbn [EdgeDrag.parent EdgeDrag.with_parent].
          rewrite update_point_lookup by (by rewrite Hp). done. }
        destruct Hp_u as [pu Hp_u].
        unfold EdgeDrag.point_moved.
        rewrite (exceeds_cancel_threshold_spec self_u point _ Hp_u). cbn [rbind].
        destruct (Qltb 100 _).
        + by rewrite set_state_invalid by (by apply valid_transition_from_terminal).
        + rewrite bool_decide_eq_false_2
            by (subst self_u; simpl; intros Hs; by rewrite Hs in Hterminal).
          cbn [rbind].
          by rewrite bool_decide_eq_false_2
            by (subst self_u; simpl; intros Hs; by rewrite Hs in Hterminal).
      - case_bool_decide; [| exists (EdgeDrag.parent self); by destruct self].
        unfold EdgeDrag.point_ended.
        rewrite set_state_invalid by (by apply valid_transition_from_terminal).
        by eexists.
      - exists (EdgeDrag.parent self). split; [| done].
        unfold EdgeDrag.g_main_dispatch.
        destruct Hinv as (Htimer & Hfinished & _).
        assert (Hsources : EdgeDrag.sources (EdgeDrag.main_context self) = ∅).
        { unfold timer_consistent in Htimer. by rewrite Hfinished in Htimer. }
        rewrite Hsources, lookup_empty. by destruct self. }
    destruct Hstep as (g1 & Hstep & Hstate1 & Hlog1).
    cbn [EdgeDrag.run]. rewrite Hstep. cbn [rbind].
    destruct (IH (EdgeDrag.with_parent g1 self)) as (g' & Hrun & Hstate & Hlog).
    + eapply edge_inv_dispatch; [apply Hinv | apply Hstep].
    + simpl. by rewrite Hstate1.
    + done.
    + exists g'. rewrite Hrun. simpl in *. split; [done |]. split; congruence.
Qed.

(** X15. Once the gesture of an edge-drag recognizer has finished, moves
    and ends of its points and timers that fire do nothing until a new
    sequence begins: the run returns, the state stays, nothing is emitted
    and nothing but the tracked points changes; in particular no timeout
    is scheduled and the side is kept. *)
Theorem finished_edge_drag_is_inert
    (display : EdgeDrag.MetaDisplay) (before inputs : list EdgeDrag.Input)
    (self : EdgeDrag.ShellEdgeDragGesture)
    (Hrun : EdgeDrag.run display before EdgeDrag.shell_edge_drag_gesture_init = Ok self)
    (Hterminal : is_terminal (state (EdgeDrag.parent self)) = true)
    (Hinputs : forallb is_edge_follow_up inputs = true) :
  exists g',
    EdgeDrag.run display inputs self = Ok (EdgeDrag.with_parent g' self)
    /\ state g' = state (EdgeDrag.parent self)
    /\ emitted g' = emitted (EdgeDrag.parent self).
Proof.
  apply edge_follow_up_finished; [| done | done].
  by eapply edge_inv_run; [apply edge_inv_init |].
Qed.

Lemma finished_edge_drag_is_inert_witness :
  exists g',
    EdgeDrag.run Samples.one_monitor_display
      [EdgeDrag.PointMoved 0 (Samples.at_px 500 300)
         (Samples.touch_event CLUTTER_TOUCH_UPDATE 1200);
       EdgeDrag.TimeoutFired 1;
       EdgeDrag.PointEnded 0]
      Samples.edge_after_short_drag
    = Ok (EdgeDrag.with_parent g' Samples.edge_after_short_drag)
    /\ state g' = state (EdgeDrag.parent Samples.edge_after_short_drag)
    /\ emitted g' = emitted (EdgeDrag.parent Samples.edge_after_short_drag).
Proof.
  apply (finished_edge_drag_is_inert Samples.one_monitor_display
           (EdgeDrag.SetSide 0
            :: single_touch 0 (Samples.at_px 500 19)
                 (Samples.touch_event CLUTTER_TOUCH_BEGIN 1000) Samples.edge_short_drag)).
  - vm_compute. reflexivity.
  - vm_compute. reflexivity.
  - reflexivity.
Defined.

(** ** Inward drags *)

Lemma edge_run_app display inputs1 inputs2 : forall self,
  EdgeDrag.run display (inputs1 ++ inputs2) self
  = let! self1 := EdgeDrag.run display inputs1 self in
    EdgeDrag.run display inputs2 self1.
Proof.
  induction inputs1 as [| i inputs1 IH]; intros self; [done |].
  cbn [app EdgeDrag.run].
  destruct (EdgeDrag.dispatch display i self) as [self1 |]; cbn [rbind]; [| done].
  apply IH.
Qed.

Lemma edge_drag_begins display self point c0 e0 m :
  edge_inv self ->
  points (EdgeDrag.parent self) = ∅ ->
  EdgeDrag.should_handle_sequence e0 = true ->
  EdgeDrag.get_monitor_for_coords display c0 = Some m ->
  (edge_distance (EdgeDrag.side self) m c0 < 20)%Q ->
  exists self1,
    EdgeDrag.dispatch display (EdgeDrag.PointBegan point c0 e0) self = Ok self1
    /\ edge_dragging point c0 c0 (EdgeDrag.side self) self1.
Proof.
  intros Hinv Hnone Htouch Hm0 Hband.
  assert (Haccepts : accepts_sequence point (EdgeDrag.parent self) = true).
  { unfold accepts_sequence. rewrite Hnone, lookup_empty.
    rewrite !bool_decide_eq_true_2 by done. apply orb_true_r. }
  set (g := register_point point c0 e0
              (if is_terminal (state (EdgeDrag.parent self))
               then rearm (EdgeDrag.parent self) else EdgeDrag.parent self)).
  assert (Hpoints : points g = {[point := moved_point c0 c0 e0]}).
  { subst g. destruct (is_terminal _); simpl; by rewrite Hnone, insert_empty. }
  assert (Hlive : is_terminal (state g) = false)
    by apply accepted_sequence_live.
  set (registered := EdgeDrag.with_parent g self).
  assert (Hp : points (EdgeDrag.parent registered) !! point
               = Some (moved_point c0 c0 e0)).
  { subst registered. cbn [EdgeDrag.parent EdgeDrag.with_parent].
    rewrite Hpoints. apply lookup_singleton_eq. }
  assert (Hbegan : EdgeDrag.dispatch display (EdgeDrag.PointBegan point c0 e0) self
                   = Ok (edge_arm_timeout point registered)).
  { cbn [EdgeDrag.dispatch]. rewrite Htouch, Haccepts. cbn [andb].
    fold g. fold registered. unfold EdgeDrag.point_began. cbv zeta.
    replace (clutter_gesture_get_n_points (EdgeDrag.parent registered)) with 1%nat.
    2: { subst registered. unfold clutter_gesture_get_n_points.
         cbn [EdgeDrag.parent EdgeDrag.with_parent].
         rewrite Hpoints. symmetry. apply map_size_singleton. }
    cbn [Nat.ltb Nat.leb].
    rewrite (is_near_monitor_edge_spec display registered point _ m Hp Hm0).
    cbn [rbind]. apply Qltb_true in Hband.
    replace (Qltb _ 20) with true by done. cbn [negb].
    destruct Hinv as (_ & _ & Hidle & _).
    replace (EdgeDrag.cancel_timeout_id registered) with 0%nat
      by (symmetry; by apply Hidle).
    done. }
  eexists. split; [exact Hbegan |].
  split; [by eapply edge_inv_dispatch |].
  split; [done |]. split; [done |]. by exists e0.
Qed.

Lemma edge_drag_goes_on display side m point c0 inputs : forall self cur,
  edge_dragging point c0 cur side self ->
  EdgeDrag.get_monitor_for_coords display c0 = Some m ->
  EdgeDrag.get_monitor_for_coords display cur = Some m ->
  drag_goes_on display side m point c0 cur inputs ->
  exists self1 cur1,
    EdgeDrag.run display inputs self = Ok self1
    /\ edge_dragging point c0 cur1 side self1.
Proof.
  induction inputs as [| i inputs IH];
    intros self cur (Hinv & Hlive & Hside & event & Hpoints) Hm0 Hcur Hinputs.
  { exists self, cur. split; [done |]. split; [done |]. eauto. }
  assert (Hp : points (EdgeDrag.parent self) !! point = Some (moved_point c0 cur event))
    by (rewrite Hpoints; apply lookup_singleton_eq).
  destruct i as [moved c e | moved c e | moved | id | s]; try done;
    cbn [drag_goes_on] in Hinputs.
  - destruct Hinputs as (-> & Hc & Hd & Hpasses & Hinputs).
    pose proof (edge_dispatch_moved display self point c e _ m m Hp Hm0 Hc) as Hstep.
    cbn [moved_point begin_coords_abs] in Hstep.
    set (self_u := EdgeDrag.with_parent _ self) in Hstep.
    destruct (edge_moved_continues m (moved_point c0 c e) self_u)
      as (Hlive1 & Hside1 & Hpoints1);
      [done
      | change (EdgeDrag.side self_u) with (EdgeDrag.side self); by rewrite Hside ..
      |].
    cbn [EdgeDrag.run]. rewrite Hstep. cbn [rbind].
    apply (IH _ c); [| done | done | done].
    split; [by eapply edge_inv_dispatch |].
    split; [done |]. split; [by rewrite Hside1 |].
    exists e. rewrite Hpoints1. subst self_u.
    cbn [EdgeDrag.parent EdgeDrag.with_parent update_point points].
    by rewrite Hpoints, alter_singleton_eq.
  - destruct Hinputs as [Hout Hinputs].
    assert (Hstep : exists self1,
      EdgeDrag.dispatch display (EdgeDrag.TimeoutFired id) self = Ok self1
      /\ EdgeDrag.parent self1 = EdgeDrag.parent self
      /\ EdgeDrag.side self1 = EdgeDrag.side self).
    { cbn [EdgeDrag.dispatch]. unfold EdgeDrag.g_main_dispatch.
      destruct (EdgeDrag.sources (EdgeDrag.main_context self) !! id) eqn:Hid;
        [| by exists self].
      assert (Hwatched : EdgeDrag.cancel_timeout_point self = point).
      { destruct Hinv as (Htimer & _ & _ & Hwatched).
        destruct Hwatched as [p' Hp'].
        - intros Hzero. unfold timer_consistent in Htimer.
          rewrite Hzero in Htimer. by rewrite Htimer in Hid.
        - rewrite Hpoints in Hp'. by apply lookup_singleton_Some in Hp' as [-> _]. }
      unfold EdgeDrag.on_cancel_timeout. rewrite Hwatched.
      rewrite (is_near_monitor_edge_spec display self point _ m Hp Hcur).
      cbn [rbind moved_point coords_abs]. rewrite Hside.
      replace (Qltb (edge_distance side m cur) 20) with false
        by (symmetry; by apply Qltb_false).
      by eexists. }
    destruct Hstep as (self1 & Hstep & Hparent & Hside1).
    cbn [EdgeDrag.run]. rewrite Hstep. cbn [rbind].
    apply (IH _ cur); [| done | done | done].
    split; [by eapply edge_inv_dispatch |].
    rewrite Hparent, Hside1. split; [done |]. split; [done |]. eauto.
Qed.

(** C2, as the code has it.  A recognizer in any state a run can reach
    that tracks no point; one finger goes down in the edge band (less than
    20px inside the edge) and moves, every position on the same monitor.
    As long as the moves are measured within 100px of where the finger
    went down (the single-precision difference of the coordinates, on the
    axis of the side) and the cancel timeout does not fire while the finger
    is in the band, the first move to a position more than 80px inside the
    edge completes the gesture, whatever moves, ends of points and timer
    dispatches follow it.  The last emission
    before the transition to Completed is the progress of that move, whose
    value is the measured displacement of that move; it is at least 60 and
    at most 100. *)
Theorem inward_drag_completes
    (display : EdgeDrag.MetaDisplay) (before : list EdgeDrag.Input)
    (self : EdgeDrag.ShellEdgeDragGesture)
    (point : nat) (c0 c : graphene_point_t) (e0 e : ClutterEvent)
    (waiting after : list EdgeDrag.Input) (m : EdgeDrag.MtkRectangle)
    (Hrun : EdgeDrag.run display before EdgeDrag.shell_edge_drag_gesture_init = Ok self)
    (Hnone : points (EdgeDrag.parent self) = ∅)
    (Htouch : EdgeDrag.should_handle_sequence e0 = true)
    (Hm0 : EdgeDrag.get_monitor_for_coords display c0 = Some m)
    (Hband : (edge_distance (EdgeDrag.side self) m c0 < 20)%Q)
    (Hwaiting : drag_goes_on display (EdgeDrag.side self) m point c0 c0 waiting)
    (Hm : EdgeDrag.get_monitor_for_coords display c = Some m)
    (Hd : (measured_displacement (EdgeDrag.side self) (moved_point c0 c e) <= 100)%Q)
    (Hpasses : (80 < edge_distance (EdgeDrag.side self) m c)%Q)
    (Hafter : forallb is_edge_follow_up after = true) :
  exists self' older,
    EdgeDrag.run display
      (EdgeDrag.PointBegan point c0 e0
       :: waiting ++ EdgeDrag.PointMoved point c e :: after) self = Ok self'
    /\ state (EdgeDrag.parent self') = CLUTTER_GESTURE_STATE_COMPLETED
    /\ emitted (EdgeDrag.parent self')
       = StateChanged CLUTTER_GESTURE_STATE_RECOGNIZING CLUTTER_GESTURE_STATE_COMPLETED
         :: Progress (measured_displacement (EdgeDrag.side self) (moved_point c0 c e))
         :: older
    /\ (60 <= measured_displacement (EdgeDrag.side self) (moved_point c0 c e))%Q
    /\ (measured_displacement (EdgeDrag.side self) (moved_point c0 c e) <= 100)%Q.
Proof.
  pose proof (edge_inv_run _ _ _ _ edge_inv_init Hrun) as Hinv.
  destruct (edge_drag_begins display self point c0 e0 m Hinv Hnone Htouch Hm0 Hband)
    as (self1 & Hbegan & Hdragging1).
  destruct (edge_drag_goes_on display _ m point c0 waiting self1 c0
              Hdragging1 Hm0 Hm0 Hwaiting)
    as (self2 & cur & Hwaited & Hinv2 & Hlive2 & Hside2 & event & Hpoints2).
  assert (Hp : points (EdgeDrag.parent self2) !! point = Some (moved_point c0 cur event))
    by (rewrite Hpoints2; apply lookup_singleton_eq).
  pose proof (edge_dispatch_moved display self2 point c e _ m m Hp Hm0 Hm) as Hstep.
  cbn [moved_point begin_coords_abs] in Hstep.
  set (self_u := EdgeDrag.with_parent _ self2) in Hstep.
  destruct (edge_moved_completes m (moved_point c0 c e) self_u)
    as (older & Hstate & Hemitted);
    [done
    | change (EdgeDrag.side self_u) with (EdgeDrag.side self2); by rewrite Hside2 ..
    |].
  destruct (edge_follow_up_finished display after
              (edge_moved m m (moved_point c0 c e) self_u))
    as (g' & Hfollow & Hstate' & Hemitted').
  { by eapply edge_inv_dispatch. }
  { by rewrite Hstate. }
  { done. }
  eexists. exists older. split.
  { cbn [EdgeDrag.run]. rewrite Hbegan. cbn [rbind].
    rewrite edge_run_app, Hwaited. cbn [rbind EdgeDrag.run].
    rewrite Hstep. cbn [rbind]. exact Hfollow. }
  cbn [EdgeDrag.parent EdgeDrag.with_parent].
  rewrite Hstate', Hemitted', Hstate, Hemitted.
  change (EdgeDrag.side self_u) with (EdgeDrag.side self2). rewrite Hside2.
  split; [done |]. split; [done |]. split; [| done].
  apply measured_displacement_ge_60, Qlt_le_weak.
  by apply (inward_displacement_bound _ m).
Qed.

Lemma inward_drag_completes_witness :
  exists self' older,
    EdgeDrag.run Samples.one_monitor_display
      (EdgeDrag.PointBegan 0 (Samples.at_px 500 19)
         (Samples.touch_event CLUTTER_TOUCH_BEGIN 2000)
       :: [EdgeDrag.PointMoved 0 (Samples.at_px 500 50)
             (Samples.touch_event CLUTTER_TOUCH_UPDATE 2100);
           EdgeDrag.TimeoutFired 1]
          ++ EdgeDrag.PointMoved 0 (Samples.at_px 500 81)
               (Samples.touch_event CLUTTER_TOUCH_UPDATE 2250)
             :: [EdgeDrag.PointMoved 0 (Samples.at_px 500 99)
                   (Samples.touch_event CLUTTER_TOUCH_UPDATE 2300);
                 EdgeDrag.PointEnded 0])
      (Samples.edge_after
         [EdgeDrag.PointBegan 0 (Samples.at_px 500 300)
            (Samples.touch_event CLUTTER_TOUCH_BEGIN 1000);
          EdgeDrag.PointEnded 0]) = Ok self'
    /\ state (EdgeDrag.parent self') = CLUTTER_GESTURE_STATE_COMPLETED
    /\ emitted (EdgeDrag.parent self')
       = StateChanged CLUTTER_GESTURE_STATE_RECOGNIZING CLUTTER_GESTURE_STATE_COMPLETED
         :: Progress 62 :: older.
Proof.
  destruct (inward_drag_completes Samples.one_monitor_display
              [EdgeDrag.PointBegan 0 (Samples.at_px 500 300)
                 (Samples.touch_event CLUTTER_TOUCH_BEGIN 1000);
               EdgeDrag.PointEnded 0]
              (Samples.edge_after
                 [EdgeDrag.PointBegan 0 (Samples.at_px 500 300)
                    (Samples.touch_event CLUTTER_TOUCH_BEGIN 1000);
                  EdgeDrag.PointEnded 0])
              0 (Samples.at_px 500 19) (Samples.at_px 500 81)
              (Samples.touch_event CLUTTER_TOUCH_BEGIN 2000)
              (Samples.touch_event CLUTTER_TOUCH_UPDATE 2250)
              [EdgeDrag.PointMoved 0 (Samples.at_px 500 50)
                 (Samples.touch_event CLUTTER_TOUCH_UPDATE 2100);
               EdgeDrag.TimeoutFired 1]
              [EdgeDrag.PointMoved 0 (Samples.at_px 500 99)
                 (Samples.touch_event CLUTTER_TOUCH_UPDATE 2300);
               EdgeDrag.PointEnded 0]
              Samples.one_monitor)
    as (self' & older & Hrun & Hstate & Hemitted & _).
  - vm_compute. reflexivity.
  - vm_compute. reflexivity.
  - reflexivity.
  - reflexivity.
  - vm_compute. reflexivity.
  - repeat split; vm_compute; first [reflexivity | discriminate].
  - reflexivity.
  - vm_compute. discriminate.
  - vm_compute. reflexivity.
  - reflexivity.
  - exists self', older. split; [exact Hrun |]. split; [exact Hstate | exact Hemitted].
Defined.

Lemma dnd_follow_up_finished drag_threshold scale_factor inputs : forall self,
  is_terminal (state (Dnd.parent self)) = true ->
  forallb is_dnd_follow_up inputs = true ->
  exists g',
    Dnd.run drag_threshold scale_factor inputs self = Ok (Dnd.with_parent g' self)
    /\ state g' = state (Dnd.parent self)
    /\ emitted g' = emitted (Dnd.parent self).
Proof.
  induction inputs as [| i inputs IH]; intros self Hterminal Hinputs.
  - exists (Dnd.parent self). by destruct self.
  - cbn [forallb] in Hinputs. apply andb_true_iff in Hinputs as [Hi Hinputs].
    assert (Hnot : state (Dnd.parent self) <> CLUTTER_GESTURE_STATE_POSSIBLE)
      by (intros Hs; by rewrite Hs in Hterminal).
    assert (Hstep : exists g1,
      Dnd.dispatch drag_threshold scale_factor i self = Ok (Dnd.with_parent g1 self)
      /\ state g1 = state (Dnd.parent self)
      /\ emitted g1 = emitted (Dnd.parent self)).
    { destruct i as [point coords event | point coords event | point
                    | start_event | b | t]; try done; simpl.
      - case_bool_decide; [| exists (Dnd.parent self); by destruct self].
        exists (update_point point coords event (Dnd.parent self)).
        split; [| done]. unfold Dnd.point_moved.
        cbn [Dnd.parent Dnd.with_parent Dnd.manual_mode update_point state].
        by rewrite bool_decide_eq_false_2, andb_false_r by done.
      - case_bool_decide; [| exists (Dnd.parent self); by destruct self].
        unfold Dnd.point_ended. rewrite bool_decide_eq_false_2 by done. cbn [andb].
        by exists (remove_point point (Dnd.parent self)).
      - exists (Dnd.parent self). split; [| done].
        unfold Dnd.shell_dnd_start_gesture_start_drag.
        rewrite bool_decide_eq_false_2 by done.
        destruct (negb _); by destruct self. }
    destruct Hstep as (g1 & Hstep & Hstate1 & Hlog1).
    cbn [Dnd.run]. rewrite Hstep. cbn [rbind].
    destruct (IH (Dnd.with_parent g1 self)) as (g' & Hrun & Hstate & Hlog).
    + simpl. by rewrite Hstate1.
    + done.
    + exists g'. rewrite Hrun. simpl in *. split; [done |]. split; congruence.
Qed.

(** X16. Once the gesture of a drag-start recognizer has finished, moves
    and ends of its points and calls of [start_drag] do nothing until a
    new sequence begins: the state stays, nothing is emitted, no event is
    copied or stored, and nothing but the tracked points changes. *)
Theorem finished_drag_start_is_inert
    (drag_threshold scale_factor : Z) (inputs : list Dnd.Input)
    (self : Dnd.ShellDndStartGesture)
    (Hterminal : is_terminal (state (Dnd.parent self)) = true)
    (Hinputs : forallb is_dnd_follow_up inputs = true) :
  exists g',
    Dnd.run drag_threshold scale_factor inputs self = Ok (Dnd.with_parent g' self)
    /\ state g' = state (Dnd.parent self)
    /\ emitted g' = emitted (Dnd.parent self).
Proof. by apply dnd_follow_up_finished. Qed.

Lemma finished_drag_start_is_inert_witness :
  exists g',
    Dnd.run 8 1
      [Dnd.PointMoved 0 (Samples.at_px 150 100) (MoreSamples.mouse_event CLUTTER_MOTION 1030);
       Dnd.StartDrag None;
       Dnd.PointEnded 0]
      (Samples.dnd_after
         [Dnd.PointBegan 0 (Samples.at_px 100 100)
            (MoreSamples.mouse_event CLUTTER_BUTTON_PRESS 1000);
          Dnd.PointMoved 0 (Samples.at_px 120 100)
            (MoreSamples.mouse_event CLUTTER_MOTION 1010)])
    = Ok (Dnd.with_parent g'
            (Samples.dnd_after
               [Dnd.PointBegan 0 (Samples.at_px 100 100)
                  (MoreSamples.mouse_event CLUTTER_BUTTON_PRESS 1000);
                Dnd.PointMoved 0 (Samples.at_px 120 100)
                  (MoreSamples.mouse_event CLUTTER_MOTION 1010)]))
    /\ state g' = CLUTTER_GESTURE_STATE_COMPLETED.
Proof.
  destruct (finished_drag_start_is_inert 8 1
              [Dnd.PointMoved 0 (Samples.at_px 150 100)
                 (MoreSamples.mouse_event CLUTTER_MOTION 1030);
               Dnd.StartDrag None;
               Dnd.PointEnded 0]
              (Samples.dnd_after
                 [Dnd.PointBegan 0 (Samples.at_px 100 100)
                    (MoreSamples.mouse_event CLUTTER_BUTTON_PRESS 1000);
                  Dnd.PointMoved 0 (Samples.at_px 120 100)
                    (MoreSamples.mouse_event CLUTTER_MOTION 1010)]))
    as (g' & Hrun & Hstate & _).
  - vm_compute. reflexivity.
  - reflexivity.
  - exists g'. split; [exact Hrun |]. rewrite Hstate. vm_compute. reflexivity.
Defined.

(* ===================================================================== *)
(** * Properties of the stylesheet object *)
(* ===================================================================== *)

Section StyleSheet.

Context {CRStatement : Type}.
Implicit Types this held : CRStyleSheet.CRStyleSheetReal CRStatement.

Lemma with_ref_count_same this :
  with_ref_count (CRStyleSheet.ref_count this) this = this.
Proof. by destruct this. Qed.

Lemma ref_times_count n : forall this,
  (CRStyleSheet.ref_count this < 0)%Z ->
  (CRStyleSheet.G_MININT <= CRStyleSheet.ref_count this - Z.of_nat n)%Z ->
  CRStyleSheet.ref_times n this
  = Some (with_ref_count (CRStyleSheet.ref_count this - Z.of_nat n) this).
Proof.
  induction n as [| n IH]; intros this Hvalid Hroom.
  - cbn [CRStyleSheet.ref_times]. f_equal.
    replace (CRStyleSheet.ref_count this - Z.of_nat 0)%Z
      with (CRStyleSheet.ref_count this) by lia.
    by rewrite with_ref_count_same.
  - cbn [CRStyleSheet.ref_times CRStyleSheet.cr_stylesheet_ref].
    unfold CRStyleSheet.g_ref_count_inc.
    replace (CRStyleSheet.ref_count this <? 0)%Z with true by (symmetry; lia).
    replace (CRStyleSheet.ref_count this =? CRStyleSheet.G_MININT)%Z with false
      by (symmetry; lia).
    cbn [negb]. rewrite IH; cbn [CRStyleSheet.ref_count]; [| lia | lia].
    unfold with_ref_count. cbn. do 2 f_equal. lia.
Qed.

Lemma unref_times_held n : forall held,
  (CRStyleSheet.ref_count held + Z.of_nat n < 0)%Z ->
  CRStyleSheet.unref_times n held
  = (replicate n false,
     Some (with_ref_count (CRStyleSheet.ref_count held + Z.of_nat n) held), []).
Proof.
  induction n as [| n IH]; intros held Hheld.
  - cbn [CRStyleSheet.unref_times replicate]. do 2 f_equal.
    replace (CRStyleSheet.ref_count held + Z.of_nat 0)%Z
      with (CRStyleSheet.ref_count held) by lia.
    by rewrite with_ref_count_same.
  - cbn [CRStyleSheet.unref_times]. unfold CRStyleSheet.cr_stylesheet_unref,
      CRStyleSheet.g_ref_count_dec.
    replace (CRStyleSheet.ref_count held <? 0)%Z with true by (symmetry; lia).
    replace (CRStyleSheet.ref_count held + 1 =? 0)%Z with false by (symmetry; lia).
    cbn [negb]. rewrite IH; cbn [CRStyleSheet.ref_count]; [| lia].
    cbn [replicate app]. unfold with_ref_count. cbn. do 4 f_equal. lia.
Qed.

Lemma unref_times_last n : forall held,
  CRStyleSheet.ref_count held = (- 1 - Z.of_nat n)%Z ->
  CRStyleSheet.unref_times (S n) held
  = (replicate n false ++ [true], None,
     CRStyleSheet.cr_stylesheet_destroy (Some (with_ref_count (-1) held))).
Proof.
  induction n as [| n IH]; intros held Hheld.
  - cbn [CRStyleSheet.unref_times]. unfold CRStyleSheet.cr_stylesheet_unref,
      CRStyleSheet.g_ref_count_dec.
    replace (- 1 - Z.of_nat 0)%Z with (-1)%Z in Hheld by lia. rewrite Hheld.
    change (negb (-1 <? 0)%Z) with false. change (-1 + 1 =? 0)%Z with true.
    cbn [replicate app]. do 2 f_equal.
    by rewrite <- Hheld, with_ref_count_same.
  - change (CRStyleSheet.unref_times (S (S n)) held)
      with (match CRStyleSheet.cr_stylesheet_unref held with
            | (zero, Some this, effects) =>
                let '(returned, final, later) := CRStyleSheet.unref_times (S n) this in
                (zero :: returned, final, effects ++ later)
            | (zero, None, effects) => ([zero], None, effects)
            end).
    unfold CRStyleSheet.cr_stylesheet_unref, CRStyleSheet.g_ref_count_dec.
    replace (CRStyleSheet.ref_count held <? 0)%Z with true by (symmetry; lia).
    replace (CRStyleSheet.ref_count held + 1 =? 0)%Z with false by (symmetry; lia).
    cbn [negb]. rewrite IH by (cbn [CRStyleSheet.ref_count]; lia).
    done.
Qed.

(** X17. A stylesheet with one reference, as [cr_stylesheet_new] returns
    it: [n] calls of [cr_stylesheet_ref] (fewer than the count can hold)
    followed by [n] calls of [cr_stylesheet_unref] give the stylesheet
    back as it was; every one of these calls of unref returns FALSE and
    destroys nothing.  One more call of unref returns TRUE and destroys the
    stylesheet: the statements, if any, are destroyed, then the application
    data, if it was set with a function to destroy it, then the stylesheet
    is freed. *)
Theorem refs_and_unrefs_balance (n : nat) this
    (Hone : CRStyleSheet.ref_count this = CRStyleSheet.g_ref_count_init)
    (Hroom : (Z.of_nat n < 2 ^ 31 - 1)%Z) :
  exists held,
    CRStyleSheet.ref_times n this = Some held
    /\ CRStyleSheet.ref_count held = (- 1 - Z.of_nat n)%Z
    /\ CRStyleSheet.unref_times n held = (replicate n false, Some this, [])
    /\ CRStyleSheet.unref_times (S n) held
       = (replicate n false ++ [true], None,
          match CRStyleSheet.nodes (CRStyleSheet.statements this) with
          | [] => []
          | _ :: _ =>
              [CRStyleSheet.StatementDestroy
                 (CRStyleSheet.nodes (CRStyleSheet.statements this))]
          end
          ++ match CRStyleSheet.app_data_destroy_func this, CRStyleSheet.app_data this with
             | Some func, Some data => [CRStyleSheet.DestroyNotify func data]
             | _, _ => []
             end
          ++ [CRStyleSheet.Free]).
Proof.
  unfold CRStyleSheet.g_ref_count_init in Hone.
  exists (with_ref_count (- 1 - Z.of_nat n) this).
  split; [| split; [done | split]].
  - rewrite ref_times_count; rewrite Hone; [done | lia |].
    unfold CRStyleSheet.G_MININT. lia.
  - rewrite unref_times_held; cbn [with_ref_count CRStyleSheet.ref_count]; [| lia].
    replace (-1 - Z.of_nat n + Z.of_nat n)%Z with (CRStyleSheet.ref_count this) by lia.
    unfold with_ref_count. cbn. by destruct this.
  - rewrite unref_times_last by done.
    unfold CRStyleSheet.cr_stylesheet_destroy, CRStyleSheet.cleanup_app_data.
    cbn. do 2 f_equal.
    by destruct (CRStyleSheet.app_data_destroy_func this), (CRStyleSheet.app_data this).
Qed.

End StyleSheet.

Lemma refs_and_unrefs_balance_witness :
  exists held,
    CRStyleSheet.ref_times 2
      {| CRStyleSheet.statements :=
           {| CRStyleSheet.first_has_prev := false; CRStyleSheet.nodes := [7%nat] |};
         CRStyleSheet.ref_count := -1;
         CRStyleSheet.app_data := Some 3%nat;
         CRStyleSheet.app_data_destroy_func := Some 4%nat |} = Some held
    /\ CRStyleSheet.ref_count held = (-3)%Z.
Proof.
  destruct (refs_and_unrefs_balance 2
              {| CRStyleSheet.statements :=
                   {| CRStyleSheet.first_has_prev := false;
                      CRStyleSheet.nodes := [7%nat] |};
                 CRStyleSheet.ref_count := -1;
                 CRStyleSheet.app_data := Some 3%nat;
                 CRStyleSheet.app_data_destroy_func := Some 4%nat |})
    as (held & Hrefs & Hcount & _).
  - reflexivity.
  - reflexivity.
  - exists held. split; [exact Hrefs | exact Hcount].
Defined.


Section StyleSheetData.

Context {CRStatement : Type}.
Variable cr_statement_to_string : CRStatement -> option String.string.
Implicit Types this : CRStyleSheet.CRStyleSheetReal CRStatement.

Lemma cleanup_app_data_handed_over this data func :
  snd (CRStyleSheet.cleanup_app_data
         {| CRStyleSheet.statements := CRStyleSheet.statements this;
            CRStyleSheet.ref_count := CRStyleSheet.ref_count this;
            CRStyleSheet.app_data := data;
            CRStyleSheet.app_data_destroy_func := func |})
  = CRStyleSheet.handed_over [(data, func)].
Proof. by destruct data, func. Qed.

Lemma set_app_data_all_effects calls : forall this,
  exists final,
    fst (CRStyleSheet.set_app_data_all calls (Some this)) = Some final
    /\ snd (CRStyleSheet.set_app_data_all calls (Some this))
       ++ snd (CRStyleSheet.cleanup_app_data final)
       = snd (CRStyleSheet.cleanup_app_data this) ++ CRStyleSheet.handed_over calls
    /\ CRStyleSheet.app_data final
       = List.last (map fst calls) (CRStyleSheet.app_data this)
    /\ CRStyleSheet.statements final = CRStyleSheet.statements this
    /\ CRStyleSheet.ref_count final = CRStyleSheet.ref_count this.
Proof.
  induction calls as [| [data func] calls IH]; intros this.
  - exists this. cbn. by rewrite app_nil_r.
  - cbn [CRStyleSheet.set_app_data_all CRStyleSheet.cr_stylesheet_set_app_data].
    destruct (CRStyleSheet.cleanup_app_data this) as [real effects] eqn:Hcleanup.
    assert (Hreal : CRStyleSheet.statements real = CRStyleSheet.statements this
                    /\ CRStyleSheet.ref_count real = CRStyleSheet.ref_count this).
    { unfold CRStyleSheet.cleanup_app_data in Hcleanup.
      destruct (CRStyleSheet.app_data_destroy_func this);
        by injection Hcleanup as <- <-. }
    destruct Hreal as [Hstatements Hcount].
    set (this1 := {| CRStyleSheet.statements := CRStyleSheet.statements real;
                     CRStyleSheet.ref_count := CRStyleSheet.ref_count real;
                     CRStyleSheet.app_data := data;
                     CRStyleSheet.app_data_destroy_func := func |}).
    destruct (IH this1) as (final & Hfinal & Heffects & Hdata & Hstmts & Hrc).
    destruct (CRStyleSheet.set_app_data_all calls (Some this1)) as [final' later].
    cbn [fst snd] in *. exists final. split; [done |].
    split; [| split; [| split]].
    + rewrite <- (assoc_L (++)), Heffects.
      subst this1. rewrite cleanup_app_data_handed_over.
      cbn [CRStyleSheet.handed_over flat_map]. by rewrite app_nil_r.
    + rewrite Hdata. subst this1. cbn [CRStyleSheet.app_data map fst].
      by rewrite last_cons_default.
    + by rewrite Hstmts.
    + by rewrite Hrc.
Qed.

(** X18. Any sequence of calls of [cr_stylesheet_set_app_data] on a
    stylesheet, followed by its destruction.  The functions called to
    destroy application data, by the calls and then by the destruction, are
    first the one for what the stylesheet held, if it held a datum with a
    function, and then, in the order of the calls and exactly once each,
    those for every datum that was handed over non-null with a function; a
    datum handed over without a function is never destroyed.  The
    destruction destroys the statements before the last datum, and frees
    the stylesheet last.  After the calls [cr_stylesheet_get_app_data]
    returns the datum of the last call, and the statements and the
    reference count are as before. *)
Theorem app_data_destroyed_exactly_once
    (calls : list (option CRStyleSheet.gpointer * option CRStyleSheet.GDestroyNotify))
    this :
  exists final last_datum,
    fst (CRStyleSheet.set_app_data_all calls (Some this)) = Some final
    /\ snd (CRStyleSheet.set_app_data_all calls (Some this)) ++ last_datum
       = CRStyleSheet.handed_over
           ((CRStyleSheet.app_data this, CRStyleSheet.app_data_destroy_func this)
            :: calls)
    /\ CRStyleSheet.cr_stylesheet_destroy (Some final)
       = match CRStyleSheet.nodes (CRStyleSheet.statements this) with
         | [] => []
         | _ :: _ =>
             [CRStyleSheet.StatementDestroy
                (CRStyleSheet.nodes (CRStyleSheet.statements this))]
         end
         ++ last_datum ++ [CRStyleSheet.Free]
    /\ CRStyleSheet.cr_stylesheet_get_app_data (Some final)
       = List.last (map fst calls) (CRStyleSheet.app_data this)
    /\ CRStyleSheet.statements final = CRStyleSheet.statements this
    /\ CRStyleSheet.ref_count final = CRStyleSheet.ref_count this.
Proof.
  destruct (set_app_data_all_effects calls this)
    as (final & Hfinal & Heffects & Hdata & Hstatements & Hcount).
  exists final, (snd (CRStyleSheet.cleanup_app_data final)).
  split; [done |]. split; [| split; [| done]].
  - rewrite Heffects. cbn [CRStyleSheet.handed_over flat_map]. f_equal.
    unfold CRStyleSheet.cleanup_app_data.
    by destruct (CRStyleSheet.app_data_destroy_func this), (CRStyleSheet.app_data this).
  - unfold CRStyleSheet.cr_stylesheet_destroy. by rewrite Hstatements.
Qed.

Lemma string_append_cons (x : Ascii.ascii) (a b : String.string) :
  String.append (String.String x a) b = String.String x (String.append a b).
Proof. reflexivity. Qed.

Lemma string_append_empty_l (a : String.string) :
  String.append String.EmptyString a = a.
Proof. reflexivity. Qed.

Lemma string_append_assoc (a b c : String.string) :
  String.append (String.append a b) c = String.append a (String.append b c).
Proof.
  induction a as [| x a IH]; [done |]. by rewrite !string_append_cons, IH.
Qed.

Lemma string_append_empty (a : String.string) :
  String.append a String.EmptyString = a.
Proof.
  induction a as [| x a IH]; [done |]. by rewrite string_append_cons, IH.
Qed.

Lemma statements_to_string_concat next : forall stmt stringue,
  CRStyleSheet.statements_to_string cr_statement_to_string true next
    (String.append stringue (statement_text cr_statement_to_string stmt))
  = String.append stringue
      (String.concat CRStyleSheet.blank_line
         (map (statement_text cr_statement_to_string) (stmt :: next))).
Proof.
  induction next as [| stmt' next IH]; intros stmt stringue; [done |].
  cbn [CRStyleSheet.statements_to_string].
  set (stringue' := String.append
                      (String.append stringue
                         (statement_text cr_statement_to_string stmt))
                      CRStyleSheet.blank_line).
  assert (Hnext :
    match cr_statement_to_string stmt' with
    | Some str => String.append stringue' str
    | None => stringue'
    end = String.append stringue' (statement_text cr_statement_to_string stmt')).
  { unfold statement_text.
    destruct (cr_statement_to_string stmt'); [done |].
    by rewrite string_append_empty. }
  rewrite Hnext, IH. subst stringue'.
  change (map (statement_text cr_statement_to_string) (stmt :: stmt' :: next))
    with (statement_text cr_statement_to_string stmt
          :: map (statement_text cr_statement_to_string) (stmt' :: next)).
  cbn [map String.concat]. by rewrite !string_append_assoc.
Qed.

(** X19. [cr_stylesheet_to_string] on a stylesheet whose statement
    pointer is the head of its list: NULL when there is no statement,
    and otherwise the texts of the statements, in order, joined by an empty
    line.  A statement for which [cr_statement_to_string] returns NULL
    contributes an empty text, and is still separated from its
    neighbours. *)
Theorem stylesheet_to_string_joins_statements this
    (Hhead : CRStyleSheet.first_has_prev (CRStyleSheet.statements this) = false) :
  CRStyleSheet.cr_stylesheet_to_string cr_statement_to_string (Some this)
  = match CRStyleSheet.nodes (CRStyleSheet.statements this) with
    | [] => None
    | _ :: _ =>
        Some (String.concat CRStyleSheet.blank_line
                (map (statement_text cr_statement_to_string)
                   (CRStyleSheet.nodes (CRStyleSheet.statements this))))
    end.
Proof.
  unfold CRStyleSheet.cr_stylesheet_to_string. rewrite Hhead.
  destruct (CRStyleSheet.nodes (CRStyleSheet.statements this)) as [| stmt next];
    [done |].
  f_equal. cbn [CRStyleSheet.statements_to_string].
  pose proof (statements_to_string_concat next stmt String.EmptyString) as Hconcat.
  rewrite !string_append_empty_l in Hconcat. rewrite <- Hconcat.
  unfold statement_text. by destruct (cr_statement_to_string stmt).
Qed.

End StyleSheetData.

Lemma stylesheet_to_string_joins_statements_witness :
  CRStyleSheet.cr_stylesheet_to_string (fun stmt : option String.string => stmt)
    (CRStyleSheet.cr_stylesheet_new true
       {| CRStyleSheet.first_has_prev := false;
          CRStyleSheet.nodes := [Some (MoreSamples.letter 97); None; Some (MoreSamples.letter 98)] |})
  = Some (String.concat CRStyleSheet.blank_line
            [MoreSamples.letter 97; String.EmptyString; MoreSamples.letter 98]).
Proof.
  apply (stylesheet_to_string_joins_statements
           (fun stmt : option String.string => stmt)
           {| CRStyleSheet.statements :=
                {| CRStyleSheet.first_has_prev := false;
                   CRStyleSheet.nodes :=
                     [Some (MoreSamples.letter 97); None; Some (MoreSamples.letter 98)] |};
              CRStyleSheet.ref_count := -1;
              CRStyleSheet.app_data := None;
              CRStyleSheet.app_data_destroy_func := None |}).
  reflexivity.
Defined.

(* ===================================================================== *)
(** * Properties of the toolkit context *)
(* ===================================================================== *)

Lemma st_init_all_spec calls : forall st warnings,
  StContext.st_init_all calls st warnings
  = (List.last calls st, (warnings + st_init_warnings calls st)%nat).
Proof.
  induction calls as [| clutter_context calls IH]; intros st warnings.
  - cbn. by rewrite Nat.add_0_r.
  - cbn [StContext.st_init_all StContext.st_init st_init_warnings].
    rewrite IH, last_cons_default. f_equal.
    destruct st; [rewrite bool_decide_eq_true_2 by done; lia |].
    rewrite bool_decide_eq_false_2 by (intros Hnot; by apply Hnot). done.
Qed.

(** X20. After any sequence of calls of [st_init], from any value of the
    static, [st_get_clutter_context] returns the context of the last call
    (the value held before, if there was no call): a call made while a
    context is set warns, and replaces the context all the same.  The
    calls that warn are those made while the static is not null. *)
Theorem st_init_keeps_last_context
    (calls : list (option StContext.ClutterContext))
    (st_clutter_context : option StContext.ClutterContext) :
  StContext.st_get_clutter_context
    (fst (StContext.st_init_all calls st_clutter_context 0))
  = List.last calls st_clutter_context
  /\ snd (StContext.st_init_all calls st_clutter_context 0)
     = st_init_warnings calls st_clutter_context.
Proof. rewrite st_init_all_spec. cbn [fst snd Nat.add]. by split. Qed.

(* ===================================================================== *)
(** * The side property of the edge-drag recognizer *)
(* ===================================================================== *)

(** X21. The property functions of the edge-drag recognizer.  Setting
    "side" (id 1) to the value of one of the four sides and reading it back
    gives that value, with no warning, and the set notifies the property
    once, whether or not the side changed; a value that is no side is
    rejected and the side read back is the old one.  Any other property
    id warns, and then setting leaves the object as it is and reading
    writes no value. *)
Theorem side_property_set_then_get
    (self : EdgeDrag.ShellEdgeDragGesture) (prop_id : nat) (v_enum : Z) :
  let (self', warned) :=
    EdgeDragGObject.shell_edge_drag_gesture_set_property prop_id (GValueEnum v_enum) self in
  if bool_decide (prop_id = 1%nat) then
    warned = false
    /\ (if bool_decide (0 <= v_enum <= 3)%Z then
          EdgeDragGObject.shell_edge_drag_gesture_get_property prop_id self'
          = (Some (GValueEnum v_enum), false)
          /\ emitted (EdgeDrag.parent self')
             = Notify PROP_SIDE :: emitted (EdgeDrag.parent self)
        else
          self' = self
          /\ EdgeDragGObject.shell_edge_drag_gesture_get_property prop_id self'
             = (Some (GValueEnum (EdgeDrag.StSide_to_int (EdgeDrag.side self))), false))
  else
    warned = true /\ self' = self
    /\ EdgeDragGObject.shell_edge_drag_gesture_get_property prop_id self = (None, true).
Proof.
  destruct prop_id as [| [| prop_id]]; cbn; try done.
  split; [done |].
  unfold EdgeDragGObject.shell_edge_drag_gesture_get_property,
    EdgeDrag.shell_edge_drag_gesture_set_side, EdgeDrag.shell_edge_drag_gesture_get_side.
  cbn [EdgeDragGObject.pspec_of_prop_id EdgeDrag.StSide_to_int].
  case_bool_decide as Hside.
  - replace ((0 <=? v_enum)%Z && (v_enum <=? 3)%Z) with true by (symmetry; lia).
    cbn [negb].
    assert (v_enum = 0 \/ v_enum = 1 \/ v_enum = 2 \/ v_enum = 3)%Z
      as [-> | [-> | [-> | ->]]] by lia; done.
  - replace ((0 <=? v_enum)%Z && (v_enum <=? 3)%Z) with false by (symmetry; lia).
    done.
Qed.

(* ===================================================================== *)
(** * Sequences the recognizers do not handle *)
(* ===================================================================== *)

(** X22. An edge-drag recognizer that tracks no point and has no timeout
    source attached, on a stream in which no sequence begins with a touch
    (a button press, say): the recognizer is left exactly as it is,
    whatever moves, ends, start events of other types and timer
    dispatches the stream holds. *)
Theorem edge_drag_ignores_other_sequences
    (display : EdgeDrag.MetaDisplay) (inputs : list EdgeDrag.Input)
    (self : EdgeDrag.ShellEdgeDragGesture)
    (Hpoints : points (EdgeDrag.parent self) = ∅)
    (Hsources : EdgeDrag.sources (EdgeDrag.main_context self) = ∅)
    (Hinputs : forallb edge_not_for_us inputs = true) :
  EdgeDrag.run display inputs self = Ok self.
Proof.
  induction inputs as [| i inputs IH]; [done |].
  cbn [forallb] in Hinputs. apply andb_true_iff in Hinputs as [Hi Hinputs].
  assert (Hstep : EdgeDrag.dispatch display i self = Ok self).
  { destruct i as [point coords event | point coords event | point | id | s];
      try done; simpl.
    - unfold EdgeDrag.should_handle_sequence. cbv zeta.
      simpl in Hi. apply negb_true_iff in Hi. by rewrite Hi.
    - by rewrite Hpoints, lookup_empty, bool_decide_eq_false_2
        by (by intros [p Hp]).
    - by rewrite Hpoints, lookup_empty, bool_decide_eq_false_2
        by (by intros [p Hp]).
    - unfold EdgeDrag.g_main_dispatch. by rewrite Hsources, lookup_empty. }
  cbn [EdgeDrag.run]. rewrite Hstep. cbn [rbind]. by apply IH.
Qed.

Lemma edge_drag_ignores_other_sequences_witness :
  EdgeDrag.run Samples.one_monitor_display
    [EdgeDrag.PointBegan 0 (Samples.at_px 500 10)
       (MoreSamples.mouse_event CLUTTER_BUTTON_PRESS 1000);
     EdgeDrag.PointMoved 0 (Samples.at_px 500 95)
       (MoreSamples.mouse_event CLUTTER_MOTION 1050);
     EdgeDrag.TimeoutFired 1;
     EdgeDrag.PointEnded 0]
    EdgeDrag.shell_edge_drag_gesture_init
  = Ok EdgeDrag.shell_edge_drag_gesture_init.
Proof.
  apply edge_drag_ignores_other_sequences; reflexivity.
Defined.

(** X23. A drag-start recognizer that tracks no point, on a stream in
    which no sequence begins with a button press or a touch: the
    recognizer is left exactly as it is, whatever moves, ends, start
    events of other types and calls of [start_drag] the stream holds. *)
Theorem drag_start_ignores_other_sequences
    (drag_threshold scale_factor : Z) (inputs : list Dnd.Input)
    (self : Dnd.ShellDndStartGesture)
    (Hpoints : points (Dnd.parent self) = ∅)
    (Hinputs : forallb dnd_not_for_us inputs = true) :
  Dnd.run drag_threshold scale_factor inputs self = Ok self.
Proof.
  induction inputs as [| i inputs IH]; [done |].
  cbn [forallb] in Hinputs. apply andb_true_iff in Hinputs as [Hi Hinputs].
  assert (Hstep : Dnd.dispatch drag_threshold scale_factor i self = Ok self).
  { destruct i as [point coords event | point coords event | point
                  | start_event | b | t]; try done; simpl.
    - unfold Dnd.should_handle_sequence. cbv zeta.
      simpl in Hi. apply andb_true_iff in Hi as [Hpress Htouch].
      apply negb_true_iff in Hpress, Htouch. by rewrite Hpress, Htouch.
    - by rewrite Hpoints, lookup_empty, bool_decide_eq_false_2
        by (by intros [p Hp]).
    - by rewrite Hpoints, lookup_empty, bool_decide_eq_false_2
        by (by intros [p Hp]).
    - unfold Dnd.shell_dnd_start_gesture_start_drag, clutter_gesture_get_n_points.
      by rewrite Hpoints, map_size_empty. }
  cbn [Dnd.run]. rewrite Hstep. cbn [rbind]. by apply IH.
Qed.

Lemma drag_start_ignores_other_sequences_witness :
  Dnd.run 8 1
    [Dnd.PointBegan 0 (Samples.at_px 100 100)
       (MoreSamples.mouse_event CLUTTER_MOTION 1000);
     Dnd.PointMoved 0 (Samples.at_px 150 100)
       (MoreSamples.mouse_event CLUTTER_MOTION 1050);
     Dnd.StartDrag None;
     Dnd.PointEnded 0]
    Dnd.shell_dnd_start_gesture_init
  = Ok Dnd.shell_dnd_start_gesture_init.
Proof.
  apply drag_start_ignores_other_sequences; reflexivity.
Defined.
